(** * pe_tools.pe_parser: a shallow embedding and its properties

    The development follows [src/pe_tools/pe_parser.py]: the checksum engine
    [pe_checksum], the parser [_PeFile.__init__], the directory and
    signature operations of [_PeFile], and the serializer [_PeFile.store].

    Python integers are unbounded, so every number is a [Z]. Python
    exceptions are values of [exn]; a method that mutates [self] is a
    function from the object's state to an outcome and the state left
    behind, so that what an exception leaves mutated is visible. *)

From Stdlib Require Import ZArith Lia Bool Sorted Permutation.
From Stdlib.Strings Require Import String Byte.
From stdpp Require Import base list.

Local Open Scope Z_scope.

(** ** Exceptions and outcomes *)

Inductive exn : Type :=
| RuntimeError (msg : string)
| RuntimeErrorFmt (template : string) (name : list byte) (idx : Z) (value : Z)
| IndexError
| AttributeError
| TypeError
| ZeroDivisionError
| StructError.

Inductive result (A : Type) : Type :=
| Ok (a : A)
| Raise (e : exn).
Arguments Ok {A} a.
Arguments Raise {A} e.

Definition rbind {A B} (r : result A) (k : A -> result B) : result B :=
  match r with
  | Ok a => k a
  | Raise e => Raise e
  end.

Declare Scope result_scope.
Delimit Scope result_scope with result.
Notation "x <- r ;; k" := (rbind r (fun x => k))
  (at level 100, r at next level, right associativity) : result_scope.

Definition is_ok {A} (r : result A) : bool :=
  match r with Ok _ => true | Raise _ => false end.

(** ** Python sequences *)

Definition len {A} (l : list A) : Z := Z.of_nat (length l).

(** An index bound of a slice, clamped the way Python clamps it. *)
Definition py_clamp (n i : Z) : Z :=
  if i <? 0 then Z.max 0 (n + i) else Z.min i n.

(** Modelled from the spec: the byte buffer of [blob.py] (not among the
    sources) is "an immutable, randomly-sliceable sequence of bytes"; a
    buffer is a [list byte] and [b[start:stop]] is Python's slice, either
    bound possibly omitted. *)
Definition py_slice {A} (l : list A) (start stop : option Z) : list A :=
  let a := match start with None => 0 | Some i => py_clamp (len l) i end in
  let b := match stop with None => len l | Some i => py_clamp (len l) i end in
  take (Z.to_nat (b - a)) (drop (Z.to_nat a) l).

(** [l[i]], with Python's negative indices. *)
Definition py_index (n i : Z) : result nat :=
  if (0 <=? i) && (i <? n) then Ok (Z.to_nat i)
  else if (- n <=? i) && (i <? 0) then Ok (Z.to_nat (n + i))
  else Raise IndexError.

Definition py_getitem {A} (l : list A) (i : Z) : result A :=
  (k <- py_index (len l) i ;;
   match l !! k with
   | Some x => Ok x
   | None => Raise IndexError
   end)%result.

(** Modelled from the spec: [join_blobs] of [blob.py] is the
    "concatenation of heterogeneous buffer fragments". *)
Definition join_blobs (blobs : list (list byte)) : list byte := concat blobs.

(** Modelled from the spec: [PadBlob n] of [blob.py] is the "synthetic
    zero-fill fragment" of [n] bytes. *)
Definition PadBlob (n : Z) : list byte := replicate (Z.to_nat n) x00.

(** ** Little-endian primitives ([struct] with a ['<'] format) *)

Definition byte_to_Z (b : byte) : Z := Z.of_N (Byte.to_N b).

Definition byte_of_Z (z : Z) : byte :=
  match Byte.of_N (Z.to_N (z mod 256)) with
  | Some b => b
  | None => x00
  end.

(** The unsigned value of a little-endian byte string. *)
Fixpoint le_decode (bs : list byte) : Z :=
  match bs with
  | [] => 0
  | b :: rest => byte_to_Z b + 256 * le_decode rest
  end.

Fixpoint le_encode (width : nat) (v : Z) : list byte :=
  match width with
  | O => []
  | S w => byte_of_Z v :: le_encode w (v / 256)
  end.

(** [struct.pack] of one unsigned field of [width] bytes: a value out of
    range is a [struct.error]. *)
Definition pack_uint (width : nat) (v : Z) : result (list byte) :=
  if (0 <=? v) && (v <? 2 ^ (8 * Z.of_nat width)) then Ok (le_encode width v)
  else Raise StructError.

(** The words of a buffer read as consecutive ['H'] fields. *)
Fixpoint words_le (bs : list byte) : list Z :=
  match bs with
  | lo :: hi :: rest => le_decode [lo; hi] :: words_le rest
  | _ => []
  end.

(** [struct.unpack('<' + 'H'*count, bs)]: the buffer must be exactly
    [2*count] bytes long. *)
Definition struct_unpack_H (count : Z) (bs : list byte) : result (list Z) :=
  if len bs =? 2 * count then Ok (words_le bs) else Raise StructError.

(** Python's [sum]. *)
Definition sum (xs : list Z) : Z := fold_left Z.add xs 0.

(** ** [_align] *)

Definition _align (offs alignment : Z) : result Z :=
  if alignment =? 0 then Raise ZeroDivisionError
  else Ok ((offs + alignment - 1) / alignment * alignment).

(** ** [pe_checksum] *)

(** [while len(blob) >= 0x1000]: every iteration drops 0x1000 bytes, so
    [length blob] iterations are never used up. *)
Fixpoint checksum_blocks (fuel : nat) (blob : list byte) (r : Z)
  : result (Z * list byte) :=
  match fuel with
  | O => Ok (r, blob)
  | S fuel' =>
      if 0x1000 <=? len blob then
        (words <- struct_unpack_H 2048 (py_slice blob None (Some 0x1000)) ;;
         checksum_blocks fuel' (py_slice blob (Some 0x1000) None) (r + sum words))%result
      else Ok (r, blob)
  end.

(** [while c: r += c & 0xffff; c >>= 16]. *)
Fixpoint limb_loop (fuel : nat) (c r : Z) : Z :=
  match fuel with
  | O => r
  | S fuel' =>
      if c =? 0 then r
      else limb_loop fuel' (Z.shiftr c 16) (r + Z.land c 0xffff)
  end.

(** [while r > 0xffff: c = r; r = 0; ...]. *)
Fixpoint fold_loop (fuel : nat) (r : Z) : Z :=
  match fuel with
  | O => r
  | S fuel' =>
      if 0xffff <? r then fold_loop fuel' (limb_loop (S (Z.to_nat (Z.log2 r))) r 0)
      else r
  end.

Definition pe_checksum (blobs : list (list byte)) : result Z :=
  let blob := join_blobs blobs in
  let total_len := len blob in
  (rb <- checksum_blocks (length blob) blob 0 ;;
   let '(r, blob) := rb in
   words <- struct_unpack_H (len blob / 2) blob ;;
   let r := r + sum words in
   let r := fold_loop (S (Z.to_nat (Z.log2 r))) r in
   Ok (r + total_len))%result.

(** Python's [sorted(xs, key=...)]: a stable sort, here by insertion. The
    head comes before the rest in the input, so it goes in front of the
    first element whose key is not smaller. *)
Fixpoint insert_sorted {A} (key : A -> Z) (x : A) (l : list A) : list A :=
  match l with
  | [] => [x]
  | y :: l' => if key x <=? key y then x :: y :: l' else y :: insert_sorted key x l'
  end.

Fixpoint sorted {A} (key : A -> Z) (l : list A) : list A :=
  match l with
  | [] => []
  | x :: l' => insert_sorted key x (sorted key l')
  end.

(** ** The record codec

    [structs2.py] is not among the sources. The field lists below are the
    ones [pe_parser.py] declares; how a [Struct] reads and writes them is
    taken from the specification. *)

Module Fmt.
Inductive t : Type := B | H | I | Q.
Definition width (f : t) : nat :=
  match f with B => 1 | H => 2 | I => 4 | Q => 8 end%nat.
End Fmt.

Definition layout : Type := list (Fmt.t * string).

(** Modelled from the spec: the [size] of a [Struct] of [structs2.py] and
    of its records, "an introspectable byte size constant". *)
Definition layout_size (l : layout) : Z :=
  fold_right (fun f acc => Z.of_nat (Fmt.width f.1) + acc) 0 l.

(** The input stream [fin]: the bytes not yet read. *)
Definition stream : Type := list byte.

(** Modelled from the spec: the stream that [blob.seek] of [blob.py]
    gives; [fin.read(n)] returns fewer bytes at the end of the stream. *)
Definition fin_read (n : nat) (fin : stream) : list byte * stream :=
  (take n fin, drop n fin).

(** Modelled from the spec: one field of a record of [structs2.py], read
    little-endian; a stream that ends early is a [struct.error]. *)
Definition read_uint (f : Fmt.t) (fin : stream) : result (Z * stream) :=
  let '(bs, fin') := fin_read (Fmt.width f) fin in
  if (length bs =? Fmt.width f)%nat then Ok (le_decode bs, fin')
  else Raise StructError.

(** Modelled from the spec: [Struct.parse] of [structs2.py], "reading a
    fixed, statically known number of bytes in declared field order,
    little-endian". *)
Fixpoint read_fields (l : layout) (fin : stream) : result (list Z * stream) :=
  match l with
  | [] => Ok ([], fin)
  | (f, _) :: l' =>
      (vf <- read_uint f fin ;;
       vsf <- read_fields l' vf.2 ;;
       Ok (vf.1 :: vsf.1, vsf.2))%result
  end.

(** Modelled from the spec: [pack] of a record of [structs2.py],
    "producing the identical byte layout"; a value that does not fit its
    field is a [struct.error]. *)
Fixpoint pack_fields (l : layout) (vs : list Z) : result (list byte) :=
  match l, vs with
  | [], [] => Ok []
  | (f, _) :: l', v :: vs' =>
      (bs <- pack_uint (Fmt.width f) v ;;
       rest <- pack_fields l' vs' ;;
       Ok (bs ++ rest))%result
  | _, _ => Raise StructError
  end.

Local Open Scope string_scope.

Definition _IMAGE_FILE_HEADER : layout :=
  [ (Fmt.H, "Machine");
    (Fmt.H, "NumberOfSections");
    (Fmt.I, "TimeDateStamp");
    (Fmt.I, "PointerToSymbolTable");
    (Fmt.I, "NumberOfSymbols");
    (Fmt.H, "SizeOfOptionalHeader");
    (Fmt.H, "Characteristics") ].

Definition IMAGE_NT_OPTIONAL_HDR32_MAGIC : Z := 0x10b.
Definition IMAGE_NT_OPTIONAL_HDR64_MAGIC : Z := 0x20b.

Definition _IMAGE_OPTIONAL_HEADER32 : layout :=
  [ (Fmt.B, "MajorLinkerVersion");
    (Fmt.B, "MinorLinkerVersion");
    (Fmt.I, "SizeOfCode");
    (Fmt.I, "SizeOfInitializedData");
    (Fmt.I, "SizeOfUninitializedData");
    (Fmt.I, "AddressOfEntryPoint");
    (Fmt.I, "BaseOfCode");
    (Fmt.I, "BaseOfData");
    (Fmt.I, "ImageBase");
    (Fmt.I, "SectionAlignment");
    (Fmt.I, "FileAlignment");
    (Fmt.H, "MajorOperatingSystemVersion");
    (Fmt.H, "MinorOperatingSystemVersion");
    (Fmt.H, "MajorImageVersion");
    (Fmt.H, "MinorImageVersion");
    (Fmt.H, "MajorSubsystemVersion");
    (Fmt.H, "MinorSubsystemVersion");
    (Fmt.I, "Reserved1");
    (Fmt.I, "SizeOfImage");
    (Fmt.I, "SizeOfHeaders");
    (Fmt.I, "CheckSum");
    (Fmt.H, "Subsystem");
    (Fmt.H, "DllCharacteristics");
    (Fmt.I, "SizeOfStackReserve");
    (Fmt.I, "SizeOfStackCommit");
    (Fmt.I, "SizeOfHeapReserve");
    (Fmt.I, "SizeOfHeapCommit");
    (Fmt.I, "LoaderFlags");
    (Fmt.I, "NumberOfRvaAndSizes") ].

Definition _IMAGE_OPTIONAL_HEADER64 : layout :=
  [ (Fmt.B, "MajorLinkerVersion");
    (Fmt.B, "MinorLinkerVersion");
    (Fmt.I, "SizeOfCode");
    (Fmt.I, "SizeOfInitializedData");
    (Fmt.I, "SizeOfUninitializedData");
    (Fmt.I, "AddressOfEntryPoint");
    (Fmt.I, "BaseOfCode");
    (Fmt.Q, "ImageBase");
    (Fmt.I, "SectionAlignment");
    (Fmt.I, "FileAlignment");
    (Fmt.H, "MajorOperatingSystemVersion");
    (Fmt.H, "MinorOperatingSystemVersion");
    (Fmt.H, "MajorImageVersion");
    (Fmt.H, "MinorImageVersion");
    (Fmt.H, "MajorSubsystemVersion");
    (Fmt.H, "MinorSubsystemVersion");
    (Fmt.I, "Reserved1");
    (Fmt.I, "SizeOfImage");
    (Fmt.I, "SizeOfHeaders");
    (Fmt.I, "CheckSum");
    (Fmt.H, "Subsystem");
    (Fmt.H, "DllCharacteristics");
    (Fmt.Q, "SizeOfStackReserve");
    (Fmt.Q, "SizeOfStackCommit");
    (Fmt.Q, "SizeOfHeapReserve");
    (Fmt.Q, "SizeOfHeapCommit");
    (Fmt.I, "LoaderFlags");
    (Fmt.I, "NumberOfRvaAndSizes") ].

Definition _IMAGE_DATA_DIRECTORY : layout :=
  [ (Fmt.I, "VirtualAddress");
    (Fmt.I, "Size") ].

(** The fields of [_IMAGE_SECTION_HEADER] after ['8s:Name']; the first is
    declared ['I:PhysicalAddress:VirtualSize'], one field under two names. *)
Definition _IMAGE_SECTION_HEADER_tail : layout :=
  [ (Fmt.I, "VirtualSize");
    (Fmt.I, "VirtualAddress");
    (Fmt.I, "SizeOfRawData");
    (Fmt.I, "PointerToRawData");
    (Fmt.I, "PointerToRelocations");
    (Fmt.I, "PointerToLinenumbers");
    (Fmt.H, "NumberOfRelocations");
    (Fmt.H, "NumberOfLinenumbers");
    (Fmt.I, "Characteristics") ].

Definition _IMAGE_SECTION_HEADER_size : Z := 8 + layout_size _IMAGE_SECTION_HEADER_tail.

Definition IMAGE_DIRECTORY_ENTRY_EXPORT : Z := 0.
Definition IMAGE_DIRECTORY_ENTRY_IMPORT : Z := 1.
Definition IMAGE_DIRECTORY_ENTRY_RESOURCE : Z := 2.
Definition IMAGE_DIRECTORY_ENTRY_EXCEPTION : Z := 3.
Definition IMAGE_DIRECTORY_ENTRY_SECURITY : Z := 4.
Definition IMAGE_DIRECTORY_ENTRY_BASERELOC : Z := 5.

Local Close Scope string_scope.

Module FileHeader.
Record t : Type := mk {
  Machine : Z;
  NumberOfSections : Z;
  TimeDateStamp : Z;
  PointerToSymbolTable : Z;
  NumberOfSymbols : Z;
  SizeOfOptionalHeader : Z;
  Characteristics : Z }.

Definition size : Z := layout_size _IMAGE_FILE_HEADER.

Definition parse (fin : stream) : result (t * stream) :=
  (vsf <- read_fields _IMAGE_FILE_HEADER fin ;;
   match vsf.1 with
   | [a; b; c; d; e; f; g] => Ok (mk a b c d e f g, vsf.2)
   | _ => Raise StructError
   end)%result.

Definition pack (h : t) : result (list byte) :=
  pack_fields _IMAGE_FILE_HEADER
    [ Machine h; NumberOfSections h; TimeDateStamp h; PointerToSymbolTable h;
      NumberOfSymbols h; SizeOfOptionalHeader h; Characteristics h ].
End FileHeader.

Module OptionalHeader.
(** Which of the two [Struct]s the object is an instance of. *)
Inductive variant : Type := PE32 | PE32Plus.

Record t : Type := mk {
  struct : variant;
  sig : Z;
  MajorLinkerVersion : Z;
  MinorLinkerVersion : Z;
  SizeOfCode : Z;
  SizeOfInitializedData : Z;
  SizeOfUninitializedData : Z;
  AddressOfEntryPoint : Z;
  BaseOfCode : Z;
  BaseOfData : option Z;   (* a field of the 32-bit record only *)
  ImageBase : Z;
  SectionAlignment : Z;
  FileAlignment : Z;
  MajorOperatingSystemVersion : Z;
  MinorOperatingSystemVersion : Z;
  MajorImageVersion : Z;
  MinorImageVersion : Z;
  MajorSubsystemVersion : Z;
  MinorSubsystemVersion : Z;
  Reserved1 : Z;
  SizeOfImage : Z;
  SizeOfHeaders : Z;
  CheckSum : Z;
  Subsystem : Z;
  DllCharacteristics : Z;
  SizeOfStackReserve : Z;
  SizeOfStackCommit : Z;
  SizeOfHeapReserve : Z;
  SizeOfHeapCommit : Z;
  LoaderFlags : Z;
  NumberOfRvaAndSizes : Z }.

Definition layout_of (v : variant) : layout :=
  match v with
  | PE32 => _IMAGE_OPTIONAL_HEADER32
  | PE32Plus => _IMAGE_OPTIONAL_HEADER64
  end.

Definition size (h : t) : Z := layout_size (layout_of (struct h)).

(** [opt = _IMAGE_OPTIONAL_HEADER32.parse(fin); opt.sig = opt_sig]. *)
Definition parse32 (opt_sig : Z) (fin : stream) : result (t * stream) :=
  (vsf <- read_fields _IMAGE_OPTIONAL_HEADER32 fin ;;
   match vsf.1 with
   | [a1; a2; a3; a4; a5; a6; a7; a8; a9; a10; a11; a12; a13; a14; a15;
      a16; a17; a18; a19; a20; a21; a22; a23; a24; a25; a26; a27; a28; a29] =>
       Ok (mk PE32 opt_sig a1 a2 a3 a4 a5 a6 a7 (Some a8) a9 a10 a11 a12 a13
             a14 a15 a16 a17 a18 a19 a20 a21 a22 a23 a24 a25 a26 a27 a28 a29,
           vsf.2)
   | _ => Raise StructError
   end)%result.

Definition parse64 (opt_sig : Z) (fin : stream) : result (t * stream) :=
  (vsf <- read_fields _IMAGE_OPTIONAL_HEADER64 fin ;;
   match vsf.1 with
   | [a1; a2; a3; a4; a5; a6; a7; a9; a10; a11; a12; a13; a14; a15;
      a16; a17; a18; a19; a20; a21; a22; a23; a24; a25; a26; a27; a28; a29] =>
       Ok (mk PE32Plus opt_sig a1 a2 a3 a4 a5 a6 a7 None a9 a10 a11 a12 a13
             a14 a15 a16 a17 a18 a19 a20 a21 a22 a23 a24 a25 a26 a27 a28 a29,
           vsf.2)
   | _ => Raise StructError
   end)%result.

Definition pack (h : t) : result (list byte) :=
  let front :=
    [ MajorLinkerVersion h; MinorLinkerVersion h; SizeOfCode h;
      SizeOfInitializedData h; SizeOfUninitializedData h;
      AddressOfEntryPoint h; BaseOfCode h ] in
  let back :=
    [ ImageBase h; SectionAlignment h; FileAlignment h;
      MajorOperatingSystemVersion h; MinorOperatingSystemVersion h;
      MajorImageVersion h; MinorImageVersion h; MajorSubsystemVersion h;
      MinorSubsystemVersion h; Reserved1 h; SizeOfImage h; SizeOfHeaders h;
      CheckSum h; Subsystem h; DllCharacteristics h; SizeOfStackReserve h;
      SizeOfStackCommit h; SizeOfHeapReserve h; SizeOfHeapCommit h;
      LoaderFlags h; NumberOfRvaAndSizes h ] in
  match struct h with
  | PE32 =>
      match BaseOfData h with
      | Some bod => pack_fields _IMAGE_OPTIONAL_HEADER32 (front ++ bod :: back)
      | None => Raise AttributeError
      end
  | PE32Plus => pack_fields _IMAGE_OPTIONAL_HEADER64 (front ++ back)
  end.

(** [opt.CheckSum = v]. *)
Definition set_CheckSum (v : Z) (h : t) : t :=
  mk (struct h) (sig h) (MajorLinkerVersion h) (MinorLinkerVersion h)
     (SizeOfCode h) (SizeOfInitializedData h) (SizeOfUninitializedData h)
     (AddressOfEntryPoint h) (BaseOfCode h) (BaseOfData h) (ImageBase h)
     (SectionAlignment h) (FileAlignment h) (MajorOperatingSystemVersion h)
     (MinorOperatingSystemVersion h) (MajorImageVersion h)
     (MinorImageVersion h) (MajorSubsystemVersion h)
     (MinorSubsystemVersion h) (Reserved1 h) (SizeOfImage h)
     (SizeOfHeaders h) v (Subsystem h) (DllCharacteristics h)
     (SizeOfStackReserve h) (SizeOfStackCommit h) (SizeOfHeapReserve h)
     (SizeOfHeapCommit h) (LoaderFlags h) (NumberOfRvaAndSizes h).
End OptionalHeader.

Module DataDirectory.
Record t : Type := mk {
  VirtualAddress : Z;
  Size : Z }.

Definition size : Z := layout_size _IMAGE_DATA_DIRECTORY.

Definition parse (fin : stream) : result (t * stream) :=
  (vsf <- read_fields _IMAGE_DATA_DIRECTORY fin ;;
   match vsf.1 with
   | [a; b] => Ok (mk a b, vsf.2)
   | _ => Raise StructError
   end)%result.

Definition pack (dd : t) : result (list byte) :=
  pack_fields _IMAGE_DATA_DIRECTORY [VirtualAddress dd; Size dd].

Definition set_VirtualAddress (v : Z) (dd : t) : t := mk v (Size dd).
Definition set_Size (v : Z) (dd : t) : t := mk (VirtualAddress dd) v.
End DataDirectory.

Module SectionHeader.
Record t : Type := mk {
  Name : list byte;
  VirtualSize : Z;          (* also named PhysicalAddress *)
  VirtualAddress : Z;
  SizeOfRawData : Z;
  PointerToRawData : Z;
  PointerToRelocations : Z;
  PointerToLinenumbers : Z;
  NumberOfRelocations : Z;
  NumberOfLinenumbers : Z;
  Characteristics : Z }.

Definition size : Z := _IMAGE_SECTION_HEADER_size.

Definition parse (fin : stream) : result (t * stream) :=
  let '(name, fin) := fin_read 8 fin in
  if (length name =? 8)%nat then
    (vsf <- read_fields _IMAGE_SECTION_HEADER_tail fin ;;
     match vsf.1 with
     | [a; b; c; d; e; f; g; h; i] => Ok (mk name a b c d e f g h i, vsf.2)
     | _ => Raise StructError
     end)%result
  else Raise StructError.

(** An ['8s'] field is cut or zero-filled to eight bytes. *)
Definition pack (h : t) : result (list byte) :=
  (rest <- pack_fields _IMAGE_SECTION_HEADER_tail
             [ VirtualSize h; VirtualAddress h; SizeOfRawData h;
               PointerToRawData h; PointerToRelocations h;
               PointerToLinenumbers h; NumberOfRelocations h;
               NumberOfLinenumbers h; Characteristics h ] ;;
   Ok (take 8 (Name h ++ replicate 8 x00) ++ rest))%result.

Definition set_VirtualSize (v : Z) (h : t) : t :=
  mk (Name h) v (VirtualAddress h) (SizeOfRawData h) (PointerToRawData h)
     (PointerToRelocations h) (PointerToLinenumbers h)
     (NumberOfRelocations h) (NumberOfLinenumbers h) (Characteristics h).
Definition set_SizeOfRawData (v : Z) (h : t) : t :=
  mk (Name h) (VirtualSize h) (VirtualAddress h) v (PointerToRawData h)
     (PointerToRelocations h) (PointerToLinenumbers h)
     (NumberOfRelocations h) (NumberOfLinenumbers h) (Characteristics h).
Definition set_PointerToRawData (v : Z) (h : t) : t :=
  mk (Name h) (VirtualSize h) (VirtualAddress h) (SizeOfRawData h) v
     (PointerToRelocations h) (PointerToLinenumbers h)
     (NumberOfRelocations h) (NumberOfLinenumbers h) (Characteristics h).
End SectionHeader.

(** [_PeSection]: the header and the raw data ([None] without file
    backing). A Python object takes any attribute assigned to it:
    [_resize_directory] assigns [sec.VirtualAddress] and [sec.VirtualSize]
    on the section object itself, and [_find_vm_hole] reads them back, so
    the two are attributes that a section has only once they were
    assigned. *)
Record _PeSection : Type := mk_PeSection {
  hdr : SectionHeader.t;
  data : option (list byte);
  attr_VirtualAddress : option Z;
  attr_VirtualSize : option Z }.

Definition set_hdr (h : SectionHeader.t) (sec : _PeSection) : _PeSection :=
  mk_PeSection h (data sec) (attr_VirtualAddress sec) (attr_VirtualSize sec).
Definition set_data (d : option (list byte)) (sec : _PeSection) : _PeSection :=
  mk_PeSection (hdr sec) d (attr_VirtualAddress sec) (attr_VirtualSize sec).
Definition set_attr_VirtualAddress (v : Z) (sec : _PeSection) : _PeSection :=
  mk_PeSection (hdr sec) (data sec) (Some v) (attr_VirtualSize sec).
Definition set_attr_VirtualSize (v : Z) (sec : _PeSection) : _PeSection :=
  mk_PeSection (hdr sec) (data sec) (attr_VirtualAddress sec) (Some v).

(** [sec.VirtualAddress] and [sec.VirtualSize] on a [_PeSection]. *)
Definition getattr_VirtualAddress (sec : _PeSection) : result Z :=
  match attr_VirtualAddress sec with
  | Some v => Ok v
  | None => Raise AttributeError
  end.
Definition getattr_VirtualSize (sec : _PeSection) : result Z :=
  match attr_VirtualSize sec with
  | Some v => Ok v
  | None => Raise AttributeError
  end.

(** The state of a [_PeFile] object. *)
Record _PeFile : Type := mk_PeFile {
  _checksum_offs : Z;
  _blob : list byte;
  _dos_stub : list byte;
  _file_header : FileHeader.t;
  _opt_header : OptionalHeader.t;
  _data_directories : list DataDirectory.t;
  _sections : list _PeSection;
  _trailer_offset : Z;
  _trailer : list byte }.

Definition set_opt_header (h : OptionalHeader.t) (self : _PeFile) : _PeFile :=
  mk_PeFile (_checksum_offs self) (_blob self) (_dos_stub self)
    (_file_header self) h (_data_directories self) (_sections self)
    (_trailer_offset self) (_trailer self).
Definition set_data_directories (dds : list DataDirectory.t) (self : _PeFile) : _PeFile :=
  mk_PeFile (_checksum_offs self) (_blob self) (_dos_stub self)
    (_file_header self) (_opt_header self) dds (_sections self)
    (_trailer_offset self) (_trailer self).
Definition set_sections (secs : list _PeSection) (self : _PeFile) : _PeFile :=
  mk_PeFile (_checksum_offs self) (_blob self) (_dos_stub self)
    (_file_header self) (_opt_header self) (_data_directories self) secs
    (_trailer_offset self) (_trailer self).
Definition set_trailer (tr : list byte) (self : _PeFile) : _PeFile :=
  mk_PeFile (_checksum_offs self) (_blob self) (_dos_stub self)
    (_file_header self) (_opt_header self) (_data_directories self)
    (_sections self) (_trailer_offset self) tr.

(** ** [_PeFile._check_vm_overlaps] *)

Definition sec_VirtualAddress (sec : _PeSection) : Z :=
  SectionHeader.VirtualAddress (hdr sec).
Definition sec_VirtualSize (sec : _PeSection) : Z :=
  SectionHeader.VirtualSize (hdr sec).
Definition sec_PointerToRawData (sec : _PeSection) : Z :=
  SectionHeader.PointerToRawData (hdr sec).
Definition sec_SizeOfRawData (sec : _PeSection) : Z :=
  SectionHeader.SizeOfRawData (hdr sec).

(** The body of the [for] loop; [x % 0] is a [ZeroDivisionError]. A
    section object is always true, so [if prev and ...] only asks whether
    there is a previous section. *)
Fixpoint check_vm_overlaps_loop (alignment : Z) (prev : option _PeSection)
    (secs : list _PeSection) : result unit :=
  match secs with
  | [] => Ok tt
  | sec :: rest =>
      if alignment =? 0 then Raise ZeroDivisionError
      else if negb (sec_VirtualAddress sec mod alignment =? 0)
      then Raise (RuntimeError "sections are misaligned in memory")
      else if match prev with
              | Some p => sec_VirtualAddress sec <? sec_VirtualAddress p + sec_VirtualSize p
              | None => false
              end
      then Raise (RuntimeError "sections overlap in memory")
      else check_vm_overlaps_loop alignment (Some sec) rest
  end.

Definition _check_vm_overlaps (self : _PeFile) : result unit :=
  check_vm_overlaps_loop
    (OptionalHeader.SectionAlignment (_opt_header self)) None
    (sorted sec_VirtualAddress (_sections self)).

Definition _file_align (self : _PeFile) (addr : Z) : result Z :=
  _align addr (OptionalHeader.FileAlignment (_opt_header self)).

Definition _mem_align (self : _PeFile) (addr : Z) : result Z :=
  _align addr (OptionalHeader.SectionAlignment (_opt_header self)).

(** ** [_PeFile.__init__] *)

(** Modelled from the spec: [blob.load(offs, '<H')] of [blob.py] is a
    "direct little-endian primitive read at an offset". *)
Definition blob_load_H (blob : list byte) (offs : Z) : result Z :=
  let bs := py_slice blob (Some offs) (Some (offs + 2)) in
  if (length bs =? 2)%nat then Ok (le_decode bs) else Raise StructError.

(** Modelled from the spec: [blob.seek(offs)] of [blob.py] gives the stream
    of the bytes from [offs] on. *)
Definition blob_seek (blob : list byte) (offs : Z) : stream :=
  py_slice blob (Some offs) None.

Definition PE_signature : list byte := [x50; x45; x00; x00].

Fixpoint bytes_eqb (a b : list byte) : bool :=
  match a, b with
  | [], [] => true
  | x :: a', y :: b' => Byte.eqb x y && bytes_eqb a' b'
  | _, _ => false
  end.

Fixpoint parse_data_directories (n : nat) (fin : stream)
  : result (list DataDirectory.t * stream) :=
  match n with
  | O => Ok ([], fin)
  | S n' =>
      (df <- DataDirectory.parse fin ;;
       rest <- parse_data_directories n' df.2 ;;
       Ok (df.1 :: rest.1, rest.2))%result
  end.

(** [hdr.Name.rstrip(b'\0')]. *)
Fixpoint rstrip_nul (bs : list byte) : list byte :=
  match bs with
  | [] => []
  | b :: rest =>
      match rstrip_nul rest with
      | [] => if Byte.eqb b x00 then [] else [b]
      | rest' => b :: rest'
      end
  end.

Definition make_pe_section (blob : list byte) (opt : OptionalHeader.t)
    (idx : Z) (hdr : SectionHeader.t) : result _PeSection :=
  let name := rstrip_nul (SectionHeader.Name hdr) in
  let ptr := SectionHeader.PointerToRawData hdr in
  let sz := SectionHeader.SizeOfRawData hdr in
  if negb (ptr mod OptionalHeader.FileAlignment opt =? 0) then
    Raise (RuntimeErrorFmt "Section {}@{} is misaligned ({})" name idx ptr)
  else if negb (sz mod OptionalHeader.FileAlignment opt =? 0) then
    Raise (RuntimeErrorFmt "Size of section {}@{} is misaligned ({})" name idx sz)
  else
    let data :=
      if ptr =? 0 then None
      else Some (py_slice blob (Some ptr) (Some (ptr + sz))) in
    Ok (mk_PeSection hdr data None None).

Fixpoint parse_sections (blob : list byte) (opt : OptionalHeader.t)
    (n : nat) (sec_idx : Z) (fin : stream) : result (list _PeSection * stream) :=
  match n with
  | O => Ok ([], fin)
  | S n' =>
      (hf <- SectionHeader.parse fin ;;
       sec <- make_pe_section blob opt sec_idx hf.1 ;;
       rest <- parse_sections blob opt n' (sec_idx + 1) hf.2 ;;
       Ok (sec :: rest.1, rest.2))%result
  end.

(** [while i < len(present_secs)]: every adjacent pair, in order. *)
Fixpoint check_holes (present_secs : list _PeSection) : result unit :=
  match present_secs with
  | a :: ((b :: _) as rest) =>
      if negb (sec_PointerToRawData a + sec_SizeOfRawData a =? sec_PointerToRawData b)
      then Raise (RuntimeError "there are holes between sections")
      else check_holes rest
  | _ => Ok tt
  end.

Definition __init__ (blob : list byte) : result _PeFile :=
  (pe_offs <- blob_load_H blob 0x3c ;;
   let fin := blob_seek blob pe_offs in
   let '(sig, fin) := fin_read 4 fin in
   if negb (bytes_eqb sig PE_signature) then
     Raise (RuntimeError "Not a PE file: PE signature is missing.")
   else
   hf <- FileHeader.parse fin ;;
   let '(hdr, fin) := hf in
   let '(magic, fin) := fin_read 2 fin in
   opt_sig <- (if (length magic =? 2)%nat then Ok (le_decode magic) else Raise StructError) ;;
   opt_fin <- (if opt_sig =? IMAGE_NT_OPTIONAL_HDR32_MAGIC then OptionalHeader.parse32 opt_sig fin
          else if opt_sig =? IMAGE_NT_OPTIONAL_HDR64_MAGIC then OptionalHeader.parse64 opt_sig fin
          else Raise (RuntimeError "Unknown optional header type.")) ;;
   let '(opt, fin) := opt_fin in
   let checksum_offs := pe_offs + 4 + FileHeader.size + 4 * 16 in
   _ok <- (if negb (OptionalHeader.CheckSum opt =? 0) then
           real_checksum <- pe_checksum [ py_slice blob None (Some checksum_offs);
                                          [x00; x00; x00; x00];
                                          py_slice blob (Some (checksum_offs + 4)) None ] ;;
           if negb (OptionalHeader.CheckSum opt =? real_checksum)
           then Raise (RuntimeError "incorrect checksum")
           else Ok tt
         else Ok tt) ;;
   if OptionalHeader.FileAlignment opt =? 0 then
     Raise (RuntimeError "IMAGE_OPTIONAL_HEADER.FileAlignment must be nonzero")
   else
   df <- parse_data_directories (Z.to_nat (OptionalHeader.NumberOfRvaAndSizes opt)) fin ;;
   let '(dds, fin) := df in
   sf <- parse_sections blob opt (Z.to_nat (FileHeader.NumberOfSections hdr)) 0 fin ;;
   let sections := sf.1 in
   let present_secs :=
     sorted sec_PointerToRawData
       (List.filter (fun sec => negb (sec_SizeOfRawData sec =? 0)) sections) in
   match last present_secs with
   | None => Raise (RuntimeError "no present sections")
   | Some last_sec =>
       _ok <- check_holes present_secs ;;
       let end_of_image := sec_PointerToRawData last_sec + sec_SizeOfRawData last_sec in
       let self :=
         mk_PeFile checksum_offs blob (py_slice blob None (Some pe_offs)) hdr opt
           dds sections end_of_image (py_slice blob (Some end_of_image) None) in
       _ok <- _check_vm_overlaps self ;;
       Ok self
   end)%result.

(** [parse_pe]: the buffer is a [Blob] already. *)
Definition parse_pe (blob : list byte) : result _PeFile := __init__ blob.

(** ** Methods: a state monad with exceptions

    A method is run on the state of [self]; it gives an outcome and the
    state it leaves, also when it raises. *)

Definition M (A : Type) : Type := _PeFile -> result A * _PeFile.

Definition mret {A} (a : A) : M A := fun self => (Ok a, self).
Definition mraise {A} (e : exn) : M A := fun self => (Raise e, self).
Definition mlift {A} (r : result A) : M A := fun self => (r, self).
Definition mget : M _PeFile := fun self => (Ok self, self).
Definition mmodify (f : _PeFile -> _PeFile) : M unit := fun self => (Ok tt, f self).
Definition mbind {A B} (m : M A) (k : A -> M B) : M B :=
  fun self =>
    match m self with
    | (Ok a, self') => k a self'
    | (Raise e, self') => (Raise e, self')
    end.

Declare Scope M_scope.
Delimit Scope M_scope with M.
Notation "x <- m ;; k" := (mbind m (fun x => k))
  (at level 100, m at next level, right associativity) : M_scope.

(** ** Trailer and signature *)

Definition has_trailer (self : _PeFile) : bool :=
  negb (len (_trailer self) =? 0).

Definition has_signature (self : _PeFile) : result bool :=
  if IMAGE_DIRECTORY_ENTRY_SECURITY <? len (_data_directories self) then
    (dd <- py_getitem (_data_directories self) IMAGE_DIRECTORY_ENTRY_SECURITY ;;
     Ok (negb (DataDirectory.VirtualAddress dd =? 0)))%result
  else Ok false.

Definition remove_signature : M unit :=
  (self <- mget ;;
   if len (_data_directories self) <? IMAGE_DIRECTORY_ENTRY_SECURITY then mret tt
   else
     k <- mlift (py_index (len (_data_directories self)) IMAGE_DIRECTORY_ENTRY_SECURITY) ;;
     dd <- mlift (py_getitem (_data_directories self) IMAGE_DIRECTORY_ENTRY_SECURITY) ;;
     if DataDirectory.Size dd =? 0 then mret tt
     else if negb (DataDirectory.VirtualAddress dd + DataDirectory.Size dd
                   =? _trailer_offset self + len (_trailer self))
     then mraise (RuntimeError "signature is not at the end of the file")
     else if DataDirectory.VirtualAddress dd <? _trailer_offset self
     then mraise (RuntimeError "signature is not contained in the pe trailer")
     else
       _ok <- mmodify (set_trailer
                 (py_slice (_trailer self) None (Some (- DataDirectory.Size dd)))) ;;
       _ok <- mmodify (fun self =>
                 set_data_directories
                   (alter (DataDirectory.set_VirtualAddress 0) k (_data_directories self))
                   self) ;;
       mmodify (fun self =>
                 set_data_directories
                   (alter (DataDirectory.set_Size 0) k (_data_directories self))
                   self))%M.

Definition remove_trailer : M unit :=
  (_ok <- remove_signature ;;
   mmodify (set_trailer []))%M.

(** ** Directories *)

Definition has_directory (idx : Z) (self : _PeFile) : result bool :=
  if len (_data_directories self) <? idx then Ok false
  else
    (dd <- py_getitem (_data_directories self) idx ;;
     Ok (negb (DataDirectory.VirtualAddress dd =? 0)))%result.

(** [slice(start, stop)]. *)
Record slice : Type := mk_slice { start : Z; stop : Z }.

Definition find_directory (idx : Z) (self : _PeFile) : result (option slice) :=
  if len (_data_directories self) <? idx then Ok None
  else
    (dd <- py_getitem (_data_directories self) idx ;;
     if DataDirectory.VirtualAddress dd =? 0 then Ok None
     else Ok (Some (mk_slice (DataDirectory.VirtualAddress dd)
                      (DataDirectory.VirtualAddress dd + DataDirectory.Size dd))))%result.

(** [for sec_idx, sec in enumerate(self._sections)]; falling off the loop
    returns [None]. *)
Fixpoint get_directory_section_from (sec_idx : nat) (secs : list _PeSection)
    (start stop : Z) : option nat :=
  match secs with
  | [] => None
  | sec :: rest =>
      let vm_start := sec_VirtualAddress sec in
      let vm_stop := vm_start + sec_VirtualSize sec in
      if (vm_start =? start) && (stop <=? vm_stop) && (vm_stop =? stop)
      then Some sec_idx
      else get_directory_section_from (S sec_idx) rest start stop
  end.

Definition _get_directory_section (self : _PeFile) (start stop : Z) : option nat :=
  get_directory_section_from 0 (_sections self) start stop.

(** [sorted(secs, key=lambda sec: sec.VirtualAddress)]: the key is taken
    of every element first. *)
Fixpoint keyed_by_attr (secs : list _PeSection) : result (list (Z * _PeSection)) :=
  match secs with
  | [] => Ok []
  | sec :: rest =>
      (k <- getattr_VirtualAddress sec ;;
       rest' <- keyed_by_attr rest ;;
       Ok ((k, sec) :: rest'))%result
  end.

(** [while i < len(sorted_secs)]; [None] when the loop ends without
    returning. *)
Fixpoint find_vm_hole_loop (self : _PeFile) (size : Z)
    (sorted_secs : list _PeSection) : result (option slice) :=
  match sorted_secs with
  | prev :: ((next :: _) as rest) =>
      (va <- getattr_VirtualAddress prev ;;
       vs <- getattr_VirtualSize prev ;;
       start <- _mem_align self (va + vs) ;;
       stop <- getattr_VirtualAddress next ;;
       if size <=? stop - start then
         stop' <- _mem_align self (start + size) ;;
         Ok (Some (mk_slice start stop'))
       else find_vm_hole_loop self size rest)%result
  | _ => Ok None
  end.

Definition _find_vm_hole (self : _PeFile) (secs : list _PeSection) (size : Z)
  : result slice :=
  (keyed <- keyed_by_attr secs ;;
   let sorted_secs := map snd (sorted fst keyed) in
   found <- find_vm_hole_loop self size sorted_secs ;;
   match found with
   | Some sl => Ok sl
   | None =>
       match last sorted_secs with
       | None => Raise IndexError
       | Some last_sec =>
           va <- getattr_VirtualAddress last_sec ;;
           vs <- getattr_VirtualSize last_sec ;;
           start <- _mem_align self (va + vs) ;;
           stop <- _mem_align self (start + size) ;;
           Ok (mk_slice start stop)
       end
   end)%result.

Definition _resize_directory (idx size : Z) : M (nat * slice) :=
  (self <- mget ;;
   k <- mlift (py_index (len (_data_directories self)) idx) ;;
   dd <- mlift (py_getitem (_data_directories self) idx) ;;
   match _get_directory_section self (DataDirectory.VirtualAddress dd)
           (DataDirectory.VirtualAddress dd + DataDirectory.Size dd) with
   | None =>
       mraise (RuntimeError
                 "can't modify a directory that is not associated with a section")
   | Some sec_idx =>
       sec <- mlift (py_getitem (_sections self) (Z.of_nat sec_idx)) ;;
       if size <=? sec_VirtualSize sec then
         _ok <- mmodify (fun self =>
                   set_sections
                     (alter (fun sec => set_hdr (SectionHeader.set_VirtualSize size (hdr sec)) sec)
                        sec_idx (_sections self)) self) ;;
         _ok <- mmodify (fun self =>
                   set_data_directories
                     (alter (DataDirectory.set_Size size) k (_data_directories self)) self) ;;
         mret (sec_idx,
               mk_slice (sec_VirtualAddress sec) (sec_VirtualAddress sec + size))
       else
         let other_secs := delete sec_idx (_sections self) in
         sl <- mlift (_find_vm_hole self other_secs size) ;;
         _ok <- mmodify (fun self =>
                   set_sections
                     (alter (set_attr_VirtualAddress (start sl)) sec_idx (_sections self)) self) ;;
         _ok <- mmodify (fun self =>
                   set_sections
                     (alter (set_attr_VirtualSize (stop sl)) sec_idx (_sections self)) self) ;;
         _ok <- mmodify (fun self =>
                   set_data_directories
                     (alter (DataDirectory.set_VirtualAddress (start sl)) k
                        (_data_directories self)) self) ;;
         _ok <- mmodify (fun self =>
                   set_data_directories
                     (alter (DataDirectory.set_Size size) k (_data_directories self)) self) ;;
         mret (sec_idx, sl)
   end)%M.

Definition resize_directory (idx size : Z) : M slice :=
  (r <- _resize_directory idx size ;;
   mret r.2)%M.

Definition set_directory (idx : Z) (blob : list byte) : M unit :=
  (r <- _resize_directory idx (len blob) ;;
   mmodify (fun self =>
     set_sections (alter (set_data (Some blob)) r.1 (_sections self)) self))%M.

(** ** [_PeFile.store] *)

(** The first loop over the sections: file offsets are assigned in
    declaration order. [len(None)] is a [TypeError]; what was assigned
    before an exception stays assigned. *)
Fixpoint store_assign_offsets (alignment section_offset : Z)
    (secs : list _PeSection) : result unit * list _PeSection :=
  match secs with
  | [] => (Ok tt, [])
  | sec :: rest =>
      if sec_PointerToRawData sec =? 0 then
        let '(r, rest') := store_assign_offsets alignment section_offset rest in
        (r, sec :: rest')
      else
        let sec1 := set_hdr (SectionHeader.set_PointerToRawData section_offset (hdr sec)) sec in
        match data sec1 with
        | None => (Raise TypeError, sec1 :: rest)
        | Some d =>
            match _align (len d) alignment with
            | Raise e => (Raise e, sec1 :: rest)
            | Ok size =>
                let sec2 := set_hdr (SectionHeader.set_SizeOfRawData size (hdr sec1)) sec1 in
                let '(r, rest') :=
                  store_assign_offsets alignment (section_offset + size) rest in
                (r, sec2 :: rest')
            end
        end
  end.

Fixpoint pack_all {A} (pack : A -> result (list byte)) (xs : list A)
  : result (list (list byte)) :=
  match xs with
  | [] => Ok []
  | x :: rest =>
      (bs <- pack x ;;
       rest' <- pack_all pack rest ;;
       Ok (bs :: rest'))%result
  end.

(** The last loop over the sections: the data of every section, a section
    without file backing included, then its padding. *)
Fixpoint store_section_data (alignment : Z) (secs : list _PeSection)
  : result (list (list byte)) :=
  match secs with
  | [] => Ok []
  | sec :: rest =>
      match data sec with
      | None => Raise TypeError
      | Some d =>
          (with_pad <- _align (len d) alignment ;;
           let pad := with_pad - len d in
           rest' <- store_section_data alignment rest ;;
           Ok (if pad =? 0 then d :: rest' else d :: PadBlob pad :: rest'))%result
      end
  end.

(** Modelled from the spec: [write_blob(fout, out_blob)] of [blob.py]
    writes the serialized file to the sink; the call stands for the bytes
    written. *)
Definition write_blob (out_blob : list byte) : list byte := out_blob.

Definition store : M (list byte) :=
  (self <- mget ;;
   _ok <- mlift (_check_vm_overlaps self) ;;
   let header_end :=
     len (_dos_stub self) + 4 + FileHeader.size + 2
     + OptionalHeader.size (_opt_header self)
     + len (_data_directories self) * DataDirectory.size
     + len (_sections self) * SectionHeader.size in
   section_offset <- mlift (_file_align self header_end) ;;
   let header_pad := section_offset - header_end in
   _ok <- (fun self =>
             let '(r, secs) :=
               store_assign_offsets (OptionalHeader.FileAlignment (_opt_header self))
                 section_offset (_sections self) in
             (r, set_sections secs self)) ;;
   _ok <- mmodify (fun self =>
             set_opt_header (OptionalHeader.set_CheckSum 0 (_opt_header self)) self) ;;
   self <- mget ;;
   fh <- mlift (FileHeader.pack (_file_header self)) ;;
   magic <- mlift (pack_uint 2 (OptionalHeader.sig (_opt_header self))) ;;
   oh <- mlift (OptionalHeader.pack (_opt_header self)) ;;
   dds <- mlift (pack_all DataDirectory.pack (_data_directories self)) ;;
   shs <- mlift (pack_all (fun sec => SectionHeader.pack (hdr sec)) (_sections self)) ;;
   body <- mlift (store_section_data (OptionalHeader.FileAlignment (_opt_header self))
                    (_sections self)) ;;
   let new_file :=
     [_dos_stub self; PE_signature; fh; magic; oh] ++ dds ++ shs
     ++ [PadBlob header_pad] ++ body ++ [_trailer self] in
   let out_blob := join_blobs new_file in
   new_checksum <- mlift (pe_checksum [out_blob]) ;;
   packed <- mlift (pack_uint 4 new_checksum) ;;
   let out_blob :=
     py_slice out_blob None (Some (_checksum_offs self)) ++ packed
     ++ py_slice out_blob (Some (_checksum_offs self + 4)) None in
   mret (write_blob out_blob))%M.

(** [header_end] of [store]. *)
Definition header_end (self : _PeFile) : Z :=
  len (_dos_stub self) + 4 + FileHeader.size + 2
  + OptionalHeader.size (_opt_header self)
  + len (_data_directories self) * DataDirectory.size
  + len (_sections self) * SectionHeader.size.

(** What the last loop of [store] appends for a section: its data, then
    the zero fill up to the file alignment. *)
Definition stored_piece (alignment : Z) (sec : _PeSection) (piece : list byte) : Prop :=
  exists d r,
    data sec = Some d /\ _align (len d) alignment = Ok r /\
    piece = d ++ PadBlob (r - len d).

(** A section that differs from another in its raw pointer and raw size
    at most. *)
Definition raw_moved (sec sec' : _PeSection) : Prop :=
  exists ptr size,
    sec' = set_hdr (SectionHeader.set_SizeOfRawData size
                      (SectionHeader.set_PointerToRawData ptr (hdr sec))) sec.

Definition file_backed (sec : _PeSection) : bool :=
  negb (sec_PointerToRawData sec =? 0).

(** The section the parser builds from a header and the file: what
    [make_pe_section] returns when it returns. *)
Definition section_of_header (blob : list byte) (h : SectionHeader.t) : _PeSection :=
  mk_PeSection h
    (if SectionHeader.PointerToRawData h =? 0 then None
     else Some (py_slice blob (Some (SectionHeader.PointerToRawData h))
                  (Some (SectionHeader.PointerToRawData h + SectionHeader.SizeOfRawData h))))
    None None.

(** ** Sequences of calls *)

(** The methods that change a [_PeFile], with their arguments. *)
Inductive method : Type :=
| call_remove_signature
| call_remove_trailer
| call_resize_directory (idx size : Z)
| call_set_directory (idx : Z) (blob : list byte)
| call_store.

(** The object after a call, whether the call returned or raised. *)
Definition after (m : method) (self : _PeFile) : _PeFile :=
  match m with
  | call_remove_signature => (remove_signature self).2
  | call_remove_trailer => (remove_trailer self).2
  | call_resize_directory idx size => (resize_directory idx size self).2
  | call_set_directory idx blob => (set_directory idx blob self).2
  | call_store => (store self).2
  end.

Definition after_all (ms : list method) (self : _PeFile) : _PeFile :=
  fold_left (fun s m => after m s) ms self.

(** What a section keeps through every call: its name and virtual
    address; its virtual size does not grow, and it is never given the
    attributes [VirtualAddress] and [VirtualSize] of its own. *)
Definition section_kept (sec sec' : _PeSection) : Prop :=
  SectionHeader.Name (hdr sec') = SectionHeader.Name (hdr sec) /\
  sec_VirtualAddress sec' = sec_VirtualAddress sec /\
  sec_VirtualSize sec' <= sec_VirtualSize sec /\
  (attr_VirtualAddress sec = None -> attr_VirtualAddress sec' = None) /\
  (attr_VirtualSize sec = None -> attr_VirtualSize sec' = None).

(** What an image keeps through every call. *)
Definition image_kept (self self' : _PeFile) : Prop :=
  _checksum_offs self' = _checksum_offs self /\
  _blob self' = _blob self /\
  _dos_stub self' = _dos_stub self /\
  _file_header self' = _file_header self /\
  _trailer_offset self' = _trailer_offset self /\
  (exists c, _opt_header self' = OptionalHeader.set_CheckSum c (_opt_header self)) /\
  length (_data_directories self') = length (_data_directories self) /\
  Forall2 section_kept (_sections self) (_sections self').

(** ** [_PeFile.get_vm] *)

(** [for sec in self._sections]: the first section whose virtual range
    covers [start, stop) answers; falling off the loop returns [None].
    Subscripting data that is [None] is a [TypeError]. *)
Fixpoint get_vm_from (secs : list _PeSection) (start stop : Z)
  : result (option (list byte)) :=
  match secs with
  | [] => Ok None
  | sec :: rest =>
      if (sec_VirtualAddress sec <=? start)
         && (stop <=? sec_VirtualAddress sec + sec_VirtualSize sec)
      then
        let sec_offs := start - sec_VirtualAddress sec in
        let init_size := Z.min (sec_SizeOfRawData sec - sec_offs) (stop - start) in
        let uninit_size := stop - start - init_size in
        match data sec with
        | None => Raise TypeError
        | Some d =>
            Ok (Some (py_slice d (Some sec_offs) (Some (sec_offs + init_size))
                      ++ PadBlob uninit_size))
        end
      else get_vm_from rest start stop
  end.

Definition get_vm (self : _PeFile) (start stop : Z) : result (option (list byte)) :=
  get_vm_from (_sections self) start stop.

(** Whether the virtual range of [sec] covers [start, stop), as [get_vm]
    asks. *)
Definition vm_covers (sec : _PeSection) (start stop : Z) : Prop :=
  sec_VirtualAddress sec <= start /\
  stop <= sec_VirtualAddress sec + sec_VirtualSize sec.

(** The bytes [offs, offs + n) of a section in memory: the first
    [SizeOfRawData] bytes of its data, then zeros. *)
Definition vm_image (sec_data : list byte) (raw_size offs n : Z) : list byte :=
  take (Z.to_nat n)
    (drop (Z.to_nat offs)
       (take (Z.to_nat raw_size) sec_data ++ replicate (Z.to_nat (offs + n)) x00)).

(** The sections with raw data in file order, as [__init__] lists them in
    [present_secs]. *)
Definition present_sections (secs : list _PeSection) : list _PeSection :=
  sorted sec_PointerToRawData
    (List.filter (fun sec => negb (sec_SizeOfRawData sec =? 0)) secs).

(** Sections whose raw data follow one another in the file, from offset
    [a] to offset [b]. *)
Fixpoint raw_chain (secs : list _PeSection) (a b : Z) : Prop :=
  match secs with
  | [] => a = b
  | sec :: rest =>
      sec_PointerToRawData sec = a /\ raw_chain rest (a + sec_SizeOfRawData sec) b
  end.

(** ** The checksum of the specification

    Section 4.2, in its words: the sum of every little-endian 16-bit word,
    folded by replacing it with the sum of its 16-bit limbs until it is at
    most [0xFFFF], plus the total length, truncated to 32 bits. *)

Definition sum_upto (n : nat) (f : nat -> Z) : Z :=
  fold_right Z.add 0 (map f (seq 0 n)).

(** The [i]-th little-endian word of a buffer. *)
Definition word16_at (buf : list byte) (i : nat) : Z :=
  byte_to_Z (nth (2 * i) buf x00) + 256 * byte_to_Z (nth (2 * i + 1) buf x00).

Definition sum_words16 (buf : list byte) : Z :=
  sum_upto (length buf / 2) (word16_at buf).

(** The [i]-th 16-bit limb of [r]. *)
Definition limb16 (r : Z) (i : nat) : Z :=
  (r / 2 ^ (16 * Z.of_nat i)) mod 2 ^ 16.

Definition limb_sum16 (r : Z) : Z :=
  sum_upto (S (Z.to_nat (Z.log2 r / 16))) (limb16 r).

Fixpoint fold16_iter (n : nat) (r : Z) : Z :=
  match n with
  | O => r
  | S n' => if r <=? 0xFFFF then r else fold16_iter n' (limb_sum16 r)
  end.

(** Every fold of a number above [0xFFFF] makes it smaller;
    [S (log2 r)] folds are more than are ever needed. *)
Definition fold16 (r : Z) : Z := fold16_iter (S (Z.to_nat (Z.log2 r))) r.

(** Steps 1 to 4 and the sum of step 5. *)
Definition checksum_untruncated (buf : list byte) : Z :=
  fold16 (sum_words16 buf) + len buf.

(** Step 5: "truncated to 32 bits". *)
Definition checksum_reference (buf : list byte) : Z :=
  checksum_untruncated buf mod 2 ^ 32.

(** ** The virtual-address invariant

    Invariant 4 of the specification: every [VirtualAddress] is a multiple
    of [SectionAlignment], and no address lies in the virtual range of two
    sections. *)

Definition in_vm_range (sec : _PeSection) (addr : Z) : Prop :=
  sec_VirtualAddress sec <= addr < sec_VirtualAddress sec + sec_VirtualSize sec.

Definition vm_aligned (self : _PeFile) : Prop :=
  forall sec, In sec (_sections self) ->
    (OptionalHeader.SectionAlignment (_opt_header self) | sec_VirtualAddress sec).

Definition vm_disjoint (self : _PeFile) : Prop :=
  forall (i j : nat) (a b : _PeSection) (addr : Z),
    i <> j ->
    _sections self !! i = Some a ->
    _sections self !! j = Some b ->
    ~ (in_vm_range a addr /\ in_vm_range b addr).

Definition vm_invariant (self : _PeFile) : Prop :=
  vm_aligned self /\ vm_disjoint self.

(** What a resize may do to the header of a section: the virtual address
    stays and the virtual size does not grow. *)
Definition vm_shrunk (before after : _PeSection) : Prop :=
  sec_VirtualAddress after = sec_VirtualAddress before /\
  sec_VirtualSize after <= sec_VirtualSize before.

(** No address lies in the virtual ranges of both sections. *)
Definition vm_apart (a b : _PeSection) : Prop :=
  forall addr, ~ (in_vm_range a addr /\ in_vm_range b addr).

(** A sequence of [resize_directory] calls, each given as [(idx, size)];
    it stops at the first call that raises. *)
Fixpoint resize_directories (calls : list (Z * Z)) : M (list slice) :=
  match calls with
  | [] => mret []
  | (idx, size) :: rest =>
      (sl <- resize_directory idx size ;;
       sls <- resize_directories rest ;;
       mret (sl :: sls))%M
  end.

(** Whether the directory entry [dd] is exactly the virtual range of
    [sec], as [_get_directory_section] asks. *)
Definition directory_matches (dd : DataDirectory.t) (sec : _PeSection) : Prop :=
  sec_VirtualAddress sec = DataDirectory.VirtualAddress dd /\
  sec_VirtualAddress sec + sec_VirtualSize sec
  = DataDirectory.VirtualAddress dd + DataDirectory.Size dd.

(** ** A sample image

    A 32-bit image with [FileAlignment = 0x200], [SectionAlignment =
    0x1000] and sixteen data directories: [.text] and [.idata] with 0x200
    bytes of raw data each, the import directory covering all of the 0x100
    bytes of [.idata], and an eight-byte signature as the trailer. With
    [bss] there is a third section, [.bss], without file backing. *)

Definition u16 : Z -> list byte := le_encode 2.
Definition u32 : Z -> list byte := le_encode 4.
Definition zeros (n : nat) : list byte := replicate n x00.

Definition sample_section_header (name : list byte)
    (vsize va rawsize rawptr : Z) : list byte :=
  name ++ u32 vsize ++ u32 va ++ u32 rawsize ++ u32 rawptr
  ++ u32 0 ++ u32 0 ++ u16 0 ++ u16 0 ++ u32 0.

Definition sample_headers (bss : bool) : list byte :=
  (* DOS stub, the PE header offset at 0x3c *)
  zeros 0x3c ++ u16 0x40 ++ zeros 2
  ++ PE_signature
  (* file header *)
  ++ u16 0x14c ++ u16 (if bss then 3 else 2) ++ u32 0 ++ u32 0 ++ u32 0
  ++ u16 0xe0 ++ u16 0x102
  (* optional header, 32-bit *)
  ++ u16 0x10b
  ++ [x0e; x00] ++ u32 0x200 ++ u32 0x200 ++ u32 0 ++ u32 0x1000
  ++ u32 0x1000 ++ u32 0x2000
  ++ u32 0x400000 ++ u32 0x1000 ++ u32 0x200
  ++ u16 6 ++ u16 0 ++ u16 0 ++ u16 0 ++ u16 6 ++ u16 0
  ++ u32 0 ++ u32 0x4000 ++ u32 0x200 ++ u32 0
  ++ u16 3 ++ u16 0
  ++ u32 0x100000 ++ u32 0x1000 ++ u32 0x100000 ++ u32 0x1000 ++ u32 0 ++ u32 16
  (* data directories: import at 1, security at 4 *)
  ++ u32 0 ++ u32 0
  ++ u32 0x2000 ++ u32 0x100
  ++ zeros 16
  ++ u32 0x600 ++ u32 8
  ++ zeros (11 * 8)
  (* section headers *)
  ++ sample_section_header [x2e; x74; x65; x78; x74; x00; x00; x00]
       0x100 0x1000 0x200 0x200
  ++ sample_section_header [x2e; x69; x64; x61; x74; x61; x00; x00]
       0x100 0x2000 0x200 0x400
  ++ (if bss
      then sample_section_header [x2e; x62; x73; x73; x00; x00; x00; x00]
             0x100 0x3000 0 0
      else []).

Definition sample_pe (bss : bool) : list byte :=
  let h := sample_headers bss in
  h ++ zeros (0x200 - length h)
  ++ replicate 0x200 xcc ++ replicate 0x200 x11
  ++ [x01; x02; x03; x04; x05; x06; x07; x08].

(** What parsing [sample_pe bss] gives. *)
Definition sample_image (bss : bool) : _PeFile :=
  let hdr name vsize va rawsize rawptr :=
    SectionHeader.mk name vsize va rawsize rawptr 0 0 0 0 0 in
  let nodir := DataDirectory.mk 0 0 in
  mk_PeFile 152 (sample_pe bss) (take 0x40 (sample_pe bss))
    (FileHeader.mk 0x14c (if bss then 3 else 2) 0 0 0 0xe0 0x102)
    (OptionalHeader.mk OptionalHeader.PE32 0x10b 14 0 0x200 0x200 0 0x1000
       0x1000 (Some 0x2000) 0x400000 0x1000 0x200 6 0 0 0 6 0 0 0x4000 0x200
       0 3 0 0x100000 0x1000 0x100000 0x1000 0 16)
    ([nodir; DataDirectory.mk 0x2000 0x100; nodir; nodir; DataDirectory.mk 0x600 8]
     ++ replicate 11 nodir)
    ([ mk_PeSection (hdr [x2e; x74; x65; x78; x74; x00; x00; x00] 0x100 0x1000 0x200 0x200)
         (Some (replicate 0x200 xcc)) None None;
       mk_PeSection (hdr [x2e; x69; x64; x61; x74; x61; x00; x00] 0x100 0x2000 0x200 0x400)
         (Some (replicate 0x200 x11)) None None ]
     ++ (if bss
         then [ mk_PeSection (hdr [x2e; x62; x73; x73; x00; x00; x00; x00] 0x100 0x3000 0 0)
                  None None None ]
         else []))
    0x600 [x01; x02; x03; x04; x05; x06; x07; x08].

(** Four GiB of zero bytes. *)
Definition four_gib_of_zeros : list byte :=
  replicate (2 * Z.to_nat 2147483648) x00.

(** A section as the parser builds it: no attribute beside [hdr] and
    [data], and no data exactly when [PointerToRawData] is zero. *)
Definition as_parsed (sec : _PeSection) : Prop :=
  attr_VirtualAddress sec = None /\ attr_VirtualSize sec = None /\
  (data sec = None <-> sec_PointerToRawData sec = 0).

(** The sample with its trailer cut off, the security entry still
    pointing at it. *)
Definition sample_image_cut : _PeFile := set_trailer [] (sample_image false).

(** The sample with a security entry that ends where the file ends but
    starts eight bytes inside the last section. *)
Definition sample_image_overlong : _PeFile :=
  set_data_directories
    (<[4%nat := DataDirectory.mk 0x5f8 16]> (_data_directories (sample_image false)))
    (sample_image false).

(** The sample under its checksum, and what parsing it gives. *)
Definition sample_pe_summed : list byte :=
  take 152 (sample_pe false) ++ u32 30310 ++ drop 156 (sample_pe false).

Definition sample_image_summed : _PeFile :=
  let self := sample_image false in
  mk_PeFile 152 sample_pe_summed (take 0x40 sample_pe_summed) (_file_header self)
    (OptionalHeader.set_CheckSum 30310 (_opt_header self))
    (_data_directories self) (_sections self) 0x600 (_trailer self).

(** The sample with a security entry of eight bytes that starts inside
    the last section and ends before the end of the file, and what
    parsing it gives. *)
Definition sample_pe_inside : list byte :=
  take 216 (sample_pe false) ++ u32 0x5f0 ++ drop 220 (sample_pe false).

Definition sample_image_inside : _PeFile :=
  let self := sample_image false in
  mk_PeFile 152 sample_pe_inside (take 0x40 sample_pe_inside) (_file_header self)
    (_opt_header self)
    (<[4%nat := DataDirectory.mk 0x5f0 8]> (_data_directories self))
    (_sections self) 0x600 (_trailer self).

(** * Properties *)

(** ** The sample parses *)

Lemma parse_sample_pe (bss : bool) : parse_pe (sample_pe bss) = Ok (sample_image bss).
Proof. destruct bss; vm_compute; reflexivity. Qed.

(** ** Slices and sums *)

Lemma len_nonneg {A} (l : list A) : 0 <= len l.
Proof. unfold len. lia. Qed.

Lemma len_app {A} (l1 l2 : list A) : len (l1 ++ l2) = len l1 + len l2.
Proof. unfold len. rewrite length_app. lia. Qed.

Lemma py_slice_prefix {A} (l : list A) (n : Z) :
  0 <= n -> py_slice l None (Some n) = take (Z.to_nat n) l.
Proof.
  intros Hn. unfold py_slice, py_clamp.
  destruct (n <? 0) eqn:E; [lia|]. rewrite Z.sub_0_r.
  change (Z.to_nat 0) with 0%nat. rewrite drop_0.
  destruct (Z.le_ge_cases n (len l)).
  - rewrite Z.min_l by lia. reflexivity.
  - rewrite Z.min_r by lia. unfold len in *.
    rewrite Nat2Z.id, !take_ge by lia. reflexivity.
Qed.

Lemma py_slice_suffix {A} (l : list A) (n : Z) :
  0 <= n -> py_slice l (Some n) None = drop (Z.to_nat n) l.
Proof.
  intros Hn. unfold py_slice, py_clamp.
  destruct (n <? 0) eqn:E; [lia|]. unfold len.
  rewrite take_ge by (rewrite length_drop; lia).
  destruct (Z.le_ge_cases n (Z.of_nat (length l))).
  - rewrite Z.min_l by lia. reflexivity.
  - rewrite Z.min_r by lia. rewrite !drop_ge by lia. reflexivity.
Qed.

Lemma fold_left_add_acc (xs : list Z) (a : Z) :
  fold_left Z.add xs a = a + sum xs.
Proof.
  unfold sum. revert a. induction xs as [|x xs IH]; intros a; cbn [fold_left].
  - lia.
  - rewrite (IH (a + x)), (IH (0 + x)). lia.
Qed.

Lemma sum_cons (x : Z) (xs : list Z) : sum (x :: xs) = x + sum xs.
Proof. unfold sum at 1. cbn [fold_left]. rewrite fold_left_add_acc. lia. Qed.

Lemma sum_app (xs ys : list Z) : sum (xs ++ ys) = sum xs + sum ys.
Proof.
  induction xs as [|x xs IH]; simpl.
  - reflexivity.
  - rewrite !sum_cons, IH. lia.
Qed.

(** Induction two bytes at a time. *)
Lemma list_pair_ind {A} (P : list A -> Prop) :
  P [] -> (forall x, P [x]) -> (forall x y l, P l -> P (x :: y :: l)) ->
  forall l, P l.
Proof.
  intros H0 H1 H2 l.
  assert (P l /\ forall x, P (x :: l)) as [H _]; [|exact H].
  induction l as [|y l [IH1 IH2]]; split; auto.
Qed.

Lemma words_le_app (a b : list byte) :
  Z.even (len a) = true -> words_le (a ++ b) = words_le a ++ words_le b.
Proof.
  induction a as [| x | x y a IH] using list_pair_ind; intros He.
  - reflexivity.
  - discriminate.
  - change (len (x :: y :: a)) with (Z.of_nat (S (S (length a)))) in He.
    rewrite !Nat2Z.inj_succ, <- Z.add_1_r, <- Z.add_1_r in He.
    replace (Z.of_nat (length a) + 1 + 1) with (len a + 2 * 1) in He by (unfold len; lia).
    rewrite Z.even_add_mul_2 in He.
    simpl. rewrite IH by assumption. reflexivity.
Qed.

(** ** The block loop of [pe_checksum] *)

Lemma even_len_add_4096 (n : Z) : Z.even (4096 + n) = Z.even n.
Proof. rewrite Z.add_comm. change 4096 with (2 * 2048). apply Z.even_add_mul_2. Qed.

(** The loop sums the words of a prefix of even length and leaves fewer
    than 0x1000 bytes. *)
Lemma checksum_blocks_spec (fuel : nat) :
  forall (blob : list byte) (r : Z),
    (length blob <= fuel)%nat ->
    exists pre rest,
      blob = pre ++ rest /\ Z.even (len pre) = true /\ len rest < 0x1000 /\
      checksum_blocks fuel blob r = Ok (r + sum (words_le pre), rest).
Proof.
  induction fuel as [|fuel IH]; intros blob r Hfuel.
  - exists [], blob. destruct blob; [|simpl in Hfuel; lia].
    repeat split; try reflexivity. simpl. f_equal. f_equal. unfold sum; simpl; lia.
  - cbn [checksum_blocks]. destruct (0x1000 <=? len blob) eqn:Hlen.
    + apply Z.leb_le in Hlen.
      rewrite py_slice_prefix, py_slice_suffix by lia.
      set (n := Z.to_nat 4096).
      assert (Hn : Z.of_nat n = 4096) by (subst n; apply Z2Nat.id; lia).
      assert (Htake : len (take n blob) = 4096)
        by (unfold len in *; rewrite length_take; lia).
      unfold struct_unpack_H. rewrite Htake.
      change (4096 =? 2 * 2048) with true. cbn [rbind].
      destruct (IH (drop n blob) (r + sum (words_le (take n blob))))
        as (pre & rest & Heq & Hev & Hlt & Hrun).
      { rewrite length_drop. unfold len in Hlen. lia. }
      exists (take n blob ++ pre), rest. repeat split.
      * rewrite <- app_assoc, <- Heq, take_drop. reflexivity.
      * rewrite len_app, Htake, even_len_add_4096. exact Hev.
      * exact Hlt.
      * rewrite Hrun, words_le_app, sum_app.
        -- f_equal. f_equal. lia.
        -- rewrite Htake. reflexivity.
    + apply Z.leb_gt in Hlen. exists [], blob. repeat split; try reflexivity; try assumption.
      f_equal. f_equal. unfold sum; simpl; lia.
Qed.

(** ** Limbs and folding *)

Lemma sum_upto_shift (n : nat) (f : nat -> Z) :
  sum_upto (S n) f = f 0%nat + sum_upto n (fun i => f (S i)).
Proof.
  unfold sum_upto. cbn [seq map fold_right]. rewrite <- seq_shift, map_map. reflexivity.
Qed.

Lemma sum_upto_ext (n : nat) (f g : nat -> Z) :
  (forall i, f i = g i) -> sum_upto n f = sum_upto n g.
Proof.
  intros H. unfold sum_upto. f_equal. apply map_ext. intros; apply H.
Qed.

Lemma limb16_0 (r : Z) : limb16 r 0 = r mod 2 ^ 16.
Proof. unfold limb16. change (2 ^ (16 * Z.of_nat 0)) with 1. rewrite Z.div_1_r. reflexivity. Qed.

Lemma limb16_S (r : Z) (i : nat) : limb16 r (S i) = limb16 (r / 2 ^ 16) i.
Proof.
  unfold limb16. f_equal.
  replace (16 * Z.of_nat (S i)) with (16 + 16 * Z.of_nat i) by lia.
  rewrite Z.pow_add_r by lia. rewrite Z.div_div by lia. reflexivity.
Qed.

Lemma sum_upto_limb16_step (n : nat) (r : Z) :
  sum_upto (S n) (limb16 r) = r mod 2 ^ 16 + sum_upto n (limb16 (r / 2 ^ 16)).
Proof.
  rewrite sum_upto_shift, limb16_0. f_equal. apply sum_upto_ext, limb16_S.
Qed.

Lemma sum_upto_limb16_zero (n : nat) : sum_upto n (limb16 0) = 0.
Proof.
  induction n as [|n IH]; [reflexivity|].
  rewrite sum_upto_limb16_step. change (0 / 2 ^ 16) with 0. rewrite IH. reflexivity.
Qed.

Lemma div_pow16_lt (c : Z) (n : nat) :
  0 <= c < 2 ^ (16 * Z.of_nat (S n)) -> 0 <= c / 2 ^ 16 < 2 ^ (16 * Z.of_nat n).
Proof.
  intros [H0 H1]. split; [apply Z.div_pos; lia|].
  apply Z.div_lt_upper_bound; [lia|].
  rewrite <- Z.pow_add_r by lia.
  replace (16 + 16 * Z.of_nat n) with (16 * Z.of_nat (S n)) by lia. exact H1.
Qed.

(** Limbs beyond the size of the number are zero. *)
Lemma sum_upto_limb16_enough (m : nat) :
  forall (n : nat) (c : Z),
    0 <= c < 2 ^ (16 * Z.of_nat m) -> (m <= n)%nat ->
    sum_upto n (limb16 c) = sum_upto m (limb16 c).
Proof.
  induction m as [|m IH]; intros n c Hc Hle.
  - change (2 ^ (16 * Z.of_nat 0)) with 1 in Hc.
    replace c with 0 by lia. rewrite !sum_upto_limb16_zero. reflexivity.
  - destruct n as [|n]; [lia|].
    rewrite !sum_upto_limb16_step. f_equal.
    apply IH; [apply div_pow16_lt; exact Hc | lia].
Qed.

Lemma limb_loop_spec (fuel : nat) :
  forall (c acc : Z),
    0 <= c < 2 ^ (16 * Z.of_nat fuel) ->
    limb_loop fuel c acc = acc + sum_upto fuel (limb16 c).
Proof.
  induction fuel as [|fuel IH]; intros c acc Hc.
  - cbn [limb_loop]. unfold sum_upto. simpl. lia.
  - cbn [limb_loop]. destruct (c =? 0) eqn:E.
    + apply Z.eqb_eq in E. subst c. rewrite sum_upto_limb16_zero. lia.
    + rewrite Z.shiftr_div_pow2 by lia.
      rewrite IH by (apply div_pow16_lt; exact Hc).
      rewrite sum_upto_limb16_step.
      change 0xffff with (Z.ones 16). rewrite Z.land_ones by lia. lia.
Qed.

Lemma lt_pow2_S_log2 (r : Z) : 0 <= r -> r < 2 ^ (Z.log2 r + 1).
Proof.
  intros H. destruct (Z.eq_dec r 0) as [->|Hne]; [reflexivity|].
  rewrite Z.add_1_r. apply Z.log2_spec. lia.
Qed.

(** The inner loop of the code computes the sum of the limbs. *)
Lemma limb_loop_limb_sum16 (r : Z) :
  0 <= r -> limb_loop (S (Z.to_nat (Z.log2 r))) r 0 = limb_sum16 r.
Proof.
  intros H. pose proof (Z.log2_nonneg r) as Hl.
  pose proof (lt_pow2_S_log2 r H) as Hlt.
  rewrite limb_loop_spec.
  - rewrite Z.add_0_l. unfold limb_sum16. apply sum_upto_limb16_enough.
    + split; [exact H|]. eapply Z.lt_le_trans; [exact Hlt|].
      apply Z.pow_le_mono_r; [lia|].
      rewrite Nat2Z.inj_succ, Z2Nat.id by (apply Z.div_pos; lia).
      pose proof (Z.mul_succ_div_gt (Z.log2 r) 16 ltac:(lia)). lia.
    + apply -> Nat.succ_le_mono. apply Z2Nat.inj_le; [apply Z.div_pos; lia | lia |].
      apply Z.div_le_upper_bound; lia.
  - split; [exact H|]. eapply Z.lt_le_trans; [exact Hlt|].
    apply Z.pow_le_mono_r; [lia|]. lia.
Qed.

Lemma sum_upto_limb16_bounds (n : nat) :
  forall c, 0 <= c -> 0 <= sum_upto n (limb16 c) <= c.
Proof.
  induction n as [|n IH]; intros c Hc.
  - unfold sum_upto; simpl; lia.
  - rewrite sum_upto_limb16_step.
    assert (Hq : 0 <= c / 2 ^ 16) by (apply Z.div_pos; lia).
    specialize (IH _ Hq).
    pose proof (Z.mod_pos_bound c (2 ^ 16) ltac:(lia)).
    pose proof (Z.div_mod c (2 ^ 16) ltac:(lia)). lia.
Qed.

Lemma limb_sum16_nonneg (r : Z) : 0 <= r -> 0 <= limb_sum16 r.
Proof. intros H. apply sum_upto_limb16_bounds. exact H. Qed.

(** One fold leaves at most the low limb plus the rest of the number. *)
Lemma limb_sum16_le (r : Z) : 0 <= r -> limb_sum16 r <= 0xFFFF + r / 2 ^ 16.
Proof.
  intros H. unfold limb_sum16. rewrite sum_upto_limb16_step.
  assert (Hq : 0 <= r / 2 ^ 16) by (apply Z.div_pos; lia).
  pose proof (sum_upto_limb16_bounds (Z.to_nat (Z.log2 r / 16)) _ Hq).
  pose proof (Z.mod_pos_bound r (2 ^ 16) ltac:(lia)). lia.
Qed.

(** The outer loop of the code and the fold of the reference agree. *)
Lemma fold_loop_fold16_iter (fuel : nat) :
  forall r, 0 <= r -> fold_loop fuel r = fold16_iter fuel r.
Proof.
  induction fuel as [|fuel IH]; intros r Hr; [reflexivity|].
  cbn [fold_loop fold16_iter].
  destruct (0xffff <? r) eqn:E.
  - apply Z.ltb_lt in E. destruct (r <=? 0xFFFF) eqn:E'; [apply Z.leb_le in E'; lia|].
    rewrite limb_loop_limb_sum16 by exact Hr.
    apply IH, limb_sum16_nonneg, Hr.
  - apply Z.ltb_ge in E. destruct (r <=? 0xFFFF) eqn:E'; [reflexivity|].
    apply Z.leb_gt in E'. lia.
Qed.

Lemma fold16_iter_stable (n : nat) :
  forall (m : nat) (r : Z),
    fold16_iter n r <= 0xFFFF -> (n <= m)%nat -> fold16_iter m r = fold16_iter n r.
Proof.
  induction n as [|n IH]; intros m r Hdone Hle.
  - cbn [fold16_iter] in *. destruct m; [reflexivity|].
    cbn [fold16_iter]. destruct (r <=? 0xFFFF) eqn:E; [reflexivity|].
    apply Z.leb_gt in E. lia.
  - destruct m as [|m]; [lia|]. cbn [fold16_iter] in *.
    destruct (r <=? 0xFFFF); [reflexivity|]. apply IH; [exact Hdone | lia].
Qed.

(** [S n] folds bring any number below [2^(16+n)] down to [0xFFFF]. *)
Lemma fold16_iter_settles (n : nat) :
  forall r, 0 <= r < 2 ^ (16 + Z.of_nat n) -> fold16_iter (S n) r <= 0xFFFF.
Proof.
  induction n as [|n IH]; intros r [H0 H1].
  - cbn [fold16_iter]. destruct (r <=? 0xFFFF) eqn:E; [apply Z.leb_le; exact E|].
    apply Z.leb_gt in E. change (2 ^ (16 + Z.of_nat 0)) with 65536 in H1. lia.
  - cbn [fold16_iter]. destruct (r <=? 0xFFFF) eqn:E; [apply Z.leb_le; exact E|].
    apply Z.leb_gt in E. fold (fold16_iter (S n)).
    pose proof (limb_sum16_le r H0) as Hle.
    pose proof (limb_sum16_nonneg r H0) as Hge.
    assert (Hq : r / 2 ^ 16 < 2 ^ (1 + Z.of_nat n)).
    { apply Z.div_lt_upper_bound; [lia|]. rewrite <- Z.pow_add_r by lia.
      replace (16 + (1 + Z.of_nat n)) with (16 + Z.of_nat (S n)) by lia. exact H1. }
    destruct n as [|n].
    + change (2 ^ (1 + Z.of_nat 0)) with 2 in Hq.
      cbn [fold16_iter]. destruct (limb_sum16 r <=? 0xFFFF) eqn:E2; [apply Z.leb_le; exact E2|].
      apply Z.leb_gt in E2.
      replace (limb_sum16 r) with 65536 by lia. vm_compute. discriminate.
    + apply IH. split; [exact Hge|].
      rewrite Z.pow_add_r in Hq |- * by lia.
      rewrite Nat2Z.inj_succ, Z.pow_succ_r in Hq |- * by lia.
      assert (0 < 2 ^ Z.of_nat n) by (apply Z.pow_pos_nonneg; lia).
      change (2 ^ 16) with 65536. change (2 ^ 1) with 2 in Hq. lia.
Qed.

Lemma fold16_le (r : Z) : 0 <= r -> fold16 r <= 0xFFFF.
Proof.
  intros H. unfold fold16. apply fold16_iter_settles.
  pose proof (Z.log2_nonneg r). rewrite Z2Nat.id by lia.
  split; [exact H|]. eapply Z.lt_le_trans; [apply lt_pow2_S_log2; exact H|].
  apply Z.pow_le_mono_r; lia.
Qed.

Lemma fold16_small (r : Z) : r <= 0xFFFF -> fold16 r = r.
Proof.
  intros H. unfold fold16. cbn [fold16_iter].
  destruct (r <=? 0xFFFF) eqn:E; [reflexivity|]. apply Z.leb_gt in E. lia.
Qed.

(** [fold16] is the fold of the specification: it replaces a number above
    [0xFFFF] with the sum of its limbs and goes on. *)
Lemma fold16_step (r : Z) : 0xFFFF < r -> fold16 r = fold16 (limb_sum16 r).
Proof.
  intros H. assert (H0 : 0 <= r) by lia.
  pose proof (limb_sum16_nonneg r H0) as Hge.
  pose proof (fold16_le _ Hge) as Hdone.
  unfold fold16 at 1. cbn [fold16_iter].
  destruct (r <=? 0xFFFF) eqn:E; [apply Z.leb_le in E; lia|].
  destruct (Nat.le_ge_cases (S (Z.to_nat (Z.log2 (limb_sum16 r)))) (Z.to_nat (Z.log2 r)))
    as [Hle|Hle].
  - apply fold16_iter_stable; assumption.
  - symmetry. apply fold16_iter_stable; [|exact Hle].
    assert (Hs : fold16_iter (S (Z.to_nat (Z.log2 r))) r <= 0xFFFF).
    { apply (fold16_le r H0). }
    cbn [fold16_iter] in Hs. rewrite E in Hs. exact Hs.
Qed.

(** ** Words *)

Lemma byte_to_Z_bounds (b : byte) : 0 <= byte_to_Z b < 256.
Proof.
  unfold byte_to_Z. pose proof (Byte.to_N_bounded b). lia.
Qed.

Lemma sum_words_le_nonneg (buf : list byte) : 0 <= sum (words_le buf).
Proof.
  induction buf as [| x | x y l IH] using list_pair_ind.
  - reflexivity.
  - reflexivity.
  - cbn [words_le le_decode]. rewrite sum_cons.
    pose proof (byte_to_Z_bounds x). pose proof (byte_to_Z_bounds y). lia.
Qed.

(** The words the code unpacks are the words of the reference. *)
Lemma sum_words_le (buf : list byte) : sum (words_le buf) = sum_words16 buf.
Proof.
  induction buf as [| x | x y l IH] using list_pair_ind.
  - reflexivity.
  - reflexivity.
  - cbn [words_le le_decode]. rewrite sum_cons, IH. unfold sum_words16.
    change (length (x :: y :: l)) with (1 * 2 + length l)%nat.
    rewrite Nat.div_add_l by lia. change (1 + length l / 2)%nat with (S (length l / 2)).
    rewrite sum_upto_shift. f_equal.
    + unfold word16_at. cbn [nth Nat.mul Nat.add]. lia.
    + apply sum_upto_ext. intros i. unfold word16_at.
      replace (2 * S i)%nat with (S (S (2 * i))) by lia.
      replace (S (S (2 * i)) + 1)%nat with (S (S (2 * i + 1))) by lia.
      reflexivity.
Qed.

(** ** What [pe_checksum] computes *)

Lemma pe_checksum_spec (blobs : list (list byte)) :
  pe_checksum blobs =
  if Z.even (len (join_blobs blobs))
  then Ok (checksum_untruncated (join_blobs blobs))
  else Raise StructError.
Proof.
  unfold pe_checksum. set (blob := join_blobs blobs).
  destruct (checksum_blocks_spec (length blob) blob 0 (Nat.le_refl _))
    as (pre & rest & Heq & Hev & Hlt & Hrun).
  rewrite Hrun. cbn [rbind]. unfold struct_unpack_H.
  assert (Hpar : Z.even (len blob) = Z.even (len rest)).
  { rewrite Heq, len_app, Z.even_add, Hev. destruct (Z.even (len rest)); reflexivity. }
  rewrite Hpar. pose proof (len_nonneg rest) as Hr0.
  pose proof (Zdiv2_odd_eqn (len rest)) as Hdiv. rewrite <- Z.negb_even in Hdiv.
  rewrite Z.div2_div in Hdiv.
  destruct (Z.even (len rest)) eqn:Hevr; cbn [negb] in Hdiv.
  - replace (len rest =? 2 * (len rest / 2)) with true by (symmetry; apply Z.eqb_eq; lia).
    cbn [rbind]. f_equal. unfold checksum_untruncated. f_equal.
    rewrite <- sum_words_le. fold blob.
    assert (Hsum : 0 + sum (words_le pre) + sum (words_le rest) = sum (words_le blob)).
    { rewrite Heq, words_le_app, sum_app by exact Hev. lia. }
    rewrite Hsum. rewrite fold_loop_fold16_iter by apply sum_words_le_nonneg.
    reflexivity.
  - replace (len rest =? 2 * (len rest / 2)) with false by (symmetry; apply Z.eqb_neq; lia).
    reflexivity.
Qed.

Lemma join_blobs_single (buf : list byte) : join_blobs [buf] = buf.
Proof. unfold join_blobs. simpl. apply app_nil_r. Qed.

Lemma checksum_untruncated_bounds (buf : list byte) :
  len buf <= checksum_untruncated buf <= 0xFFFF + len buf.
Proof.
  unfold checksum_untruncated. rewrite <- sum_words_le.
  pose proof (sum_words_le_nonneg buf) as H0.
  pose proof (fold16_le _ H0) as H1.
  assert (0 <= fold16 (sum (words_le buf))); [|lia].
  destruct (Z.le_gt_cases (sum (words_le buf)) 0xFFFF) as [Hs|Hs].
  - rewrite fold16_small by exact Hs. exact H0.
  - unfold fold16. rewrite <- fold_loop_fold16_iter by exact H0.
    clear H1. generalize (S (Z.to_nat (Z.log2 (sum (words_le buf))))).
    revert H0. generalize (sum (words_le buf)). clear.
    intros r Hr n. revert r Hr. induction n as [|n IH]; intros r Hr; cbn [fold_loop].
    + exact Hr.
    + destruct (0xffff <? r); [|exact Hr]. apply IH.
      rewrite limb_loop_limb_sum16 by exact Hr. apply limb_sum16_nonneg, Hr.
Qed.

Lemma pe_checksum_ok_iff_even (buf : list byte) :
  is_ok (pe_checksum [buf]) = Z.even (len buf).
Proof.
  rewrite pe_checksum_spec, join_blobs_single.
  destruct (Z.even (len buf)); reflexivity.
Qed.

(** A buffer of [2*k] zero bytes: no word adds to the sum. *)
Lemma sum_words_le_zeros (k : nat) : sum (words_le (replicate (2 * k) x00)) = 0.
Proof.
  induction k as [|k IH]; [reflexivity|].
  replace (2 * S k)%nat with (S (S (2 * k))) by lia.
  cbn [replicate words_le]. rewrite sum_cons, IH. reflexivity.
Qed.

Lemma checksum_untruncated_zeros (k : nat) :
  checksum_untruncated (replicate (2 * k) x00) = 2 * Z.of_nat k.
Proof.
  unfold checksum_untruncated. rewrite <- sum_words_le, sum_words_le_zeros.
  unfold len. rewrite length_replicate, Nat2Z.inj_mul. reflexivity.
Qed.

Lemma pe_checksum_zeros (k : nat) :
  pe_checksum [replicate (2 * k) x00] = Ok (2 * Z.of_nat k).
Proof.
  rewrite pe_checksum_spec, join_blobs_single, checksum_untruncated_zeros.
  unfold len. rewrite length_replicate, Nat2Z.inj_mul.
  change (Z.of_nat 2) with 2. rewrite Z.even_mul. reflexivity.
Qed.

(** C8, the claim as stated fails: on an even-length buffer of 2^32 zero
    bytes the words sum to 0, so the code returns the length, 2^32, while
    the reference, truncated to 32 bits, is 0. *)
Lemma pe_checksum_not_truncated :
  Z.even (len four_gib_of_zeros) = true /\
  pe_checksum [four_gib_of_zeros] = Ok 4294967296 /\
  checksum_reference four_gib_of_zeros = 0 /\
  pe_checksum [four_gib_of_zeros] <> Ok (checksum_reference four_gib_of_zeros).
Proof.
  assert (Hk : 2 * Z.of_nat (Z.to_nat 2147483648) = 4294967296)
    by (rewrite Z2Nat.id by lia; reflexivity).
  assert (Hrun : pe_checksum [four_gib_of_zeros] = Ok 4294967296).
  { unfold four_gib_of_zeros. rewrite pe_checksum_zeros, Hk. reflexivity. }
  assert (Href : checksum_reference four_gib_of_zeros = 0).
  { unfold checksum_reference, four_gib_of_zeros.
    rewrite checksum_untruncated_zeros, Hk. reflexivity. }
  split; [|split; [exact Hrun|split; [exact Href|]]].
  - unfold four_gib_of_zeros, len. rewrite length_replicate, Nat2Z.inj_mul.
    change (Z.of_nat 2) with 2. rewrite Z.even_mul. reflexivity.
  - rewrite Hrun, Href. discriminate.
Qed.

(** C8 (amended): on every even-length buffer [pe_checksum] returns the
    folded sum of the little-endian 16-bit words plus the total length,
    as an unbounded integer. That is the 32-bit truncation of the
    reference exactly when the sum is below 2^32, as it is for every
    buffer shorter than 2^32 - 0xFFFF bytes. *)
Theorem pe_checksum_even_length (buf : list byte) :
  Z.even (len buf) = true ->
  pe_checksum [buf] = Ok (checksum_untruncated buf) /\
  (pe_checksum [buf] = Ok (checksum_reference buf) <-> checksum_untruncated buf < 2 ^ 32) /\
  (len buf < 2 ^ 32 - 0xFFFF -> pe_checksum [buf] = Ok (checksum_reference buf)).
Proof.
  intros Hev.
  assert (Hrun : pe_checksum [buf] = Ok (checksum_untruncated buf))
    by (rewrite pe_checksum_spec, join_blobs_single, Hev; reflexivity).
  pose proof (checksum_untruncated_bounds buf) as Hb.
  pose proof (len_nonneg buf) as Hl.
  assert (Hiff : pe_checksum [buf] = Ok (checksum_reference buf)
                 <-> checksum_untruncated buf < 2 ^ 32).
  { rewrite Hrun. unfold checksum_reference. split.
    - intros H. injection H as H. rewrite H.
      apply Z.mod_pos_bound. lia.
    - intros H. rewrite Z.mod_small by lia. reflexivity. }
  repeat split; try apply Hiff; try exact Hrun.
  intros Hlen. apply Hiff. lia.
Qed.

Lemma pe_checksum_even_length_witness :
  Z.even (len [x34; x12; xff; xff; x02; x00]) = true /\
  pe_checksum [[x34; x12; xff; xff; x02; x00]] = Ok (0x1236 + 6).
Proof.
  split; [reflexivity|].
  destruct (pe_checksum_even_length [x34; x12; xff; xff; x02; x00] eq_refl) as [H _].
  rewrite H. reflexivity.
Defined.

(** C10: on a buffer of odd length [pe_checksum] raises, [struct.error]
    from unpacking the last block: the odd byte is neither dropped nor
    summed, and only even lengths give a result. *)
Theorem pe_checksum_odd_length (buf : list byte) :
  Z.odd (len buf) = true ->
  pe_checksum [buf] = Raise StructError /\
  (forall buf', is_ok (pe_checksum [buf']) = true <-> Z.even (len buf') = true).
Proof.
  intros Hodd. split.
  - rewrite pe_checksum_spec, join_blobs_single.
    rewrite <- Z.negb_odd, Hodd. reflexivity.
  - intros buf'. rewrite pe_checksum_ok_iff_even. reflexivity.
Qed.

Lemma pe_checksum_odd_length_witness :
  Z.odd (len [x34; x12; xff]) = true /\
  pe_checksum [[x34; x12; xff]] = Raise StructError.
Proof.
  split; [reflexivity|].
  apply (pe_checksum_odd_length [x34; x12; xff] eq_refl).
Defined.

(** ** Indexing *)

Lemma py_index_len (n : Z) : 0 <= n -> py_index n n = Raise IndexError.
Proof.
  intros H. unfold py_index.
  replace (n <? n) with false by (symmetry; apply Z.ltb_irrefl).
  rewrite andb_false_r.
  destruct (n <? 0) eqn:E; [apply Z.ltb_lt in E; lia|].
  rewrite andb_false_r. reflexivity.
Qed.

Lemma py_index_in_range (n i : Z) :
  0 <= i < n -> py_index n i = Ok (Z.to_nat i).
Proof.
  intros [H0 H1]. unfold py_index.
  apply Z.leb_le in H0. apply Z.ltb_lt in H1. rewrite H0, H1. reflexivity.
Qed.

Lemma py_getitem_in_range {A} (l : list A) (i : Z) (x : A) :
  0 <= i -> l !! Z.to_nat i = Some x -> py_getitem l i = Ok x.
Proof.
  intros H0 Hx. unfold py_getitem.
  rewrite py_index_in_range.
  - cbn [rbind]. rewrite Hx. reflexivity.
  - apply lookup_lt_Some in Hx. unfold len. lia.
Qed.

Lemma py_getitem_index {A} (l : list A) (i : Z) (k : nat) (x : A) :
  py_index (len l) i = Ok k -> l !! k = Some x -> py_getitem l i = Ok x.
Proof.
  intros Hk Hx. unfold py_getitem. rewrite Hk. cbn [rbind]. rewrite Hx. reflexivity.
Qed.

(** ** [has_directory] and [find_directory] *)

(** C5, the claim as stated fails at [idx = len(self._data_directories)]:
    the guard [len(...) < idx] lets that index through, and the subscript
    raises [IndexError], in [has_directory] and in [find_directory]
    alike. *)
Theorem has_directory_at_length (self : _PeFile) :
  has_directory (len (_data_directories self)) self = Raise IndexError /\
  find_directory (len (_data_directories self)) self = Raise IndexError.
Proof.
  unfold has_directory, find_directory, py_getitem.
  rewrite Z.ltb_irrefl, py_index_len by apply len_nonneg.
  split; reflexivity.
Qed.

(** On the sample image, with its sixteen directories. *)
Lemma sample_has_directory_16 :
  has_directory 16 (sample_image true) = Raise IndexError /\
  find_directory 16 (sample_image true) = Raise IndexError.
Proof. split; reflexivity. Qed.

(** Beyond that index the two do report the directory absent. *)
Lemma has_directory_beyond (self : _PeFile) (idx : Z) :
  len (_data_directories self) < idx ->
  has_directory idx self = Ok false /\ find_directory idx self = Ok None.
Proof.
  intros H. apply Z.ltb_lt in H. unfold has_directory, find_directory.
  rewrite H. split; reflexivity.
Qed.

(** An entry whose virtual address is zero is absent. *)
Lemma has_directory_zero_address (self : _PeFile) (idx : Z) (dd : DataDirectory.t) :
  0 <= idx ->
  _data_directories self !! Z.to_nat idx = Some dd ->
  DataDirectory.VirtualAddress dd = 0 ->
  has_directory idx self = Ok false /\ find_directory idx self = Ok None.
Proof.
  intros H0 Hdd Hva. unfold has_directory, find_directory.
  pose proof (lookup_lt_Some _ _ _ Hdd) as Hlt.
  replace (len (_data_directories self) <? idx) with false
    by (symmetry; apply Z.ltb_ge; unfold len; lia).
  rewrite (py_getitem_in_range _ _ _ H0 Hdd). cbn [rbind].
  rewrite Hva. split; reflexivity.
Qed.

(** ** Growing a directory *)

(** C2, the code at the failing input: on the sample image the import
    directory is exactly the range of [.idata]; growing it from 0x100 to
    0x150 bytes raises [AttributeError], because [_find_vm_hole] reads
    [sec.VirtualAddress] of a [_PeSection], and nothing is reassigned. *)
Theorem resize_directory_grow_sample :
  _get_directory_section (sample_image true) 0x2000 (0x2000 + 0x100) = Some 1%nat /\
  resize_directory IMAGE_DIRECTORY_ENTRY_IMPORT 0x150 (sample_image true)
  = (Raise AttributeError, sample_image true).
Proof. split; reflexivity. Qed.

(** The hole search on sections that were never assigned the attributes
    it reads: an [AttributeError], or an [IndexError] when there is no
    other section. *)
Lemma find_vm_hole_fresh (self : _PeFile) (secs : list _PeSection) (size : Z) :
  Forall (fun sec => attr_VirtualAddress sec = None) secs ->
  _find_vm_hole self secs size
  = Raise (match secs with [] => IndexError | _ => AttributeError end).
Proof.
  intros H. unfold _find_vm_hole. destruct H as [|sec secs Hsec _].
  - reflexivity.
  - cbn [keyed_by_attr]. unfold getattr_VirtualAddress. rewrite Hsec. reflexivity.
Qed.

(** Growing never succeeds on sections as the parser builds them, and
    leaves the image as it was. *)
Lemma resize_directory_grow_raises (self : _PeFile) (idx size : Z)
    (k sec_idx : nat) (dd : DataDirectory.t) (sec : _PeSection) :
  Forall (fun sec => attr_VirtualAddress sec = None) (_sections self) ->
  py_index (len (_data_directories self)) idx = Ok k ->
  _data_directories self !! k = Some dd ->
  _get_directory_section self (DataDirectory.VirtualAddress dd)
    (DataDirectory.VirtualAddress dd + DataDirectory.Size dd) = Some sec_idx ->
  _sections self !! sec_idx = Some sec ->
  sec_VirtualSize sec < size ->
  exists e, resize_directory idx size self = (Raise e, self)
            /\ (e = AttributeError \/ e = IndexError).
Proof.
  intros Hfresh Hk Hdd Hsec Hlook Hgrow.
  unfold resize_directory, _resize_directory, mbind, mget, mlift, mraise.
  rewrite Hk, (py_getitem_index _ _ _ _ Hk Hdd), Hsec.
  rewrite (py_getitem_in_range _ (Z.of_nat sec_idx) sec)
    by (rewrite ?Nat2Z.id; first [lia | exact Hlook]).
  replace (size <=? sec_VirtualSize sec) with false by (symmetry; apply Z.leb_gt; lia).
  rewrite find_vm_hole_fresh.
  - eexists. split; [reflexivity|]. destruct (delete sec_idx (_sections self)); auto.
  - apply Forall_delete. exact Hfresh.
Qed.

(** ** [store] on a section without file backing *)

(** C1, the code at the failing input: the sample with a [.bss] section
    parses, and [store] on the image just parsed raises [TypeError]
    instead of giving the file back. *)
Theorem store_sample_bss :
  parse_pe (sample_pe true) = Ok (sample_image true) /\
  In (mk_PeSection
        (SectionHeader.mk [x2e; x62; x73; x73; x00; x00; x00; x00]
           0x100 0x3000 0 0 0 0 0 0 0)
        None None None)
     (_sections (sample_image true)) /\
  (store (sample_image true)).1 = Raise TypeError.
Proof.
  split; [apply parse_sample_pe|]. split; [|vm_compute; reflexivity].
  simpl. auto.
Qed.

(** Without the [.bss] section the same file is stored, its sections,
    trailer and directories as they were, under a checksum that parses. *)
Lemma store_sample_no_bss :
  exists out self,
    store (sample_image false) = (Ok out, self) /\
    len out = len (sample_pe false) /\
    exists self', parse_pe out = Ok self' /\
      map data (_sections self') = map data (_sections (sample_image false)) /\
      _trailer self' = _trailer (sample_image false) /\
      _data_directories self' = _data_directories (sample_image false) /\
      OptionalHeader.CheckSum (_opt_header self') = 30310.
Proof.
  assert (Hr : is_ok (store (sample_image false)).1 = true) by (vm_compute; reflexivity).
  destruct (store (sample_image false)) as [r self] eqn:E.
  destruct r as [out|e]; [|discriminate].
  exists out, self. split; [reflexivity|].
  assert (Hout : out = match (store (sample_image false)).1 with Ok o => o | Raise _ => [] end)
    by (rewrite E; reflexivity).
  split; [rewrite Hout; vm_compute; reflexivity|].
  destruct (parse_pe out) as [self'|e] eqn:E'.
  - exists self'. split; [reflexivity|].
    assert (Hs : self' = match parse_pe out with Ok s => s | Raise _ => sample_image false end)
      by (rewrite E'; reflexivity).
    rewrite Hs, Hout. vm_compute. repeat split; reflexivity.
  - exfalso. assert (is_ok (parse_pe out) = true) by (rewrite Hout; vm_compute; reflexivity).
    rewrite E' in H. discriminate.
Qed.

(** ** [remove_signature] *)

Lemma py_index_security (n : Z) :
  IMAGE_DIRECTORY_ENTRY_SECURITY < n ->
  py_index n IMAGE_DIRECTORY_ENTRY_SECURITY = Ok 4%nat.
Proof.
  intros H. unfold IMAGE_DIRECTORY_ENTRY_SECURITY in *.
  rewrite py_index_in_range by lia. reflexivity.
Qed.

(** What [remove_signature] does when there is a security entry. *)
Lemma remove_signature_entry (self : _PeFile) (dd : DataDirectory.t) :
  _data_directories self !! 4%nat = Some dd ->
  remove_signature self =
  if DataDirectory.Size dd =? 0 then (Ok tt, self)
  else if negb (DataDirectory.VirtualAddress dd + DataDirectory.Size dd
                =? _trailer_offset self + len (_trailer self))
  then (Raise (RuntimeError "signature is not at the end of the file"), self)
  else if DataDirectory.VirtualAddress dd <? _trailer_offset self
  then (Raise (RuntimeError "signature is not contained in the pe trailer"), self)
  else
    (Ok tt,
     set_data_directories
       (alter (DataDirectory.set_Size 0) 4%nat
          (alter (DataDirectory.set_VirtualAddress 0) 4%nat (_data_directories self)))
       (set_trailer
          (py_slice (_trailer self) None (Some (- DataDirectory.Size dd))) self)).
Proof.
  intros Hdd. pose proof (lookup_lt_Some _ _ _ Hdd) as Hlt.
  assert (Hlen : IMAGE_DIRECTORY_ENTRY_SECURITY < len (_data_directories self))
    by (unfold IMAGE_DIRECTORY_ENTRY_SECURITY, len; lia).
  unfold remove_signature, mbind, mget, mlift, mret, mraise, mmodify.
  replace (len (_data_directories self) <? IMAGE_DIRECTORY_ENTRY_SECURITY) with false
    by (symmetry; apply Z.ltb_ge; lia).
  rewrite (py_index_security _ Hlen).
  rewrite (py_getitem_index _ _ _ _ (py_index_security _ Hlen) Hdd).
  destruct (DataDirectory.Size dd =? 0); [reflexivity|].
  destruct (negb _); [reflexivity|].
  destruct (DataDirectory.VirtualAddress dd <? _trailer_offset self); reflexivity.
Qed.

(** C6, the claim as stated fails: on a parsed image whose security
    entry, of eight bytes, starts before the trailer and ends before the
    end of the file, [remove_signature] raises "signature is not at the
    end of the file", not the message the claim gives for an entry that
    starts before the trailer: the end of the entry is checked first. *)
Lemma remove_signature_start_before_trailer :
  parse_pe sample_pe_inside = Ok sample_image_inside /\
  _data_directories sample_image_inside !! 4%nat = Some (DataDirectory.mk 0x5f0 8) /\
  DataDirectory.Size (DataDirectory.mk 0x5f0 8) <> 0 /\
  DataDirectory.VirtualAddress (DataDirectory.mk 0x5f0 8)
  < _trailer_offset sample_image_inside /\
  remove_signature sample_image_inside
  = (Raise (RuntimeError "signature is not at the end of the file"), sample_image_inside) /\
  remove_signature sample_image_inside
  <> (Raise (RuntimeError "signature is not contained in the pe trailer"),
      sample_image_inside).
Proof.
  assert (Hrun : remove_signature sample_image_inside
                 = (Raise (RuntimeError "signature is not at the end of the file"),
                    sample_image_inside)).
  { rewrite (remove_signature_entry sample_image_inside (DataDirectory.mk 0x5f0 8) eq_refl).
    reflexivity. }
  split; [vm_compute; reflexivity|]. split; [reflexivity|].
  split; [cbn; lia|]. split; [cbn; lia|]. split; [exact Hrun|].
  rewrite Hrun. intros H. discriminate H.
Qed.

(** C6 (amended): with a security entry of nonzero size, [remove_signature]
    raises "signature is not at the end of the file" when the entry does
    not end where the file ends, and "signature is not contained in the
    pe trailer" when the entry ends where the file ends and starts before
    the trailer; either way the image, its trailer and directory entries
    included, is left as it was. *)
Theorem remove_signature_rejects (self : _PeFile) (dd : DataDirectory.t) :
  _data_directories self !! 4%nat = Some dd ->
  DataDirectory.Size dd <> 0 ->
  (DataDirectory.VirtualAddress dd + DataDirectory.Size dd
   <> _trailer_offset self + len (_trailer self) ->
   remove_signature self
   = (Raise (RuntimeError "signature is not at the end of the file"), self)) /\
  (DataDirectory.VirtualAddress dd + DataDirectory.Size dd
   = _trailer_offset self + len (_trailer self) ->
   DataDirectory.VirtualAddress dd < _trailer_offset self ->
   remove_signature self
   = (Raise (RuntimeError "signature is not contained in the pe trailer"), self)).
Proof.
  intros Hdd Hsize. rewrite (remove_signature_entry _ _ Hdd).
  apply Z.eqb_neq in Hsize. rewrite Hsize. split.
  - intros Hend. apply Z.eqb_neq in Hend. rewrite Hend. reflexivity.
  - intros Hend Hstart. apply Z.eqb_eq in Hend. apply Z.ltb_lt in Hstart.
    rewrite Hend, Hstart. reflexivity.
Qed.

(** ** Shrinking a directory *)

Lemma get_directory_section_from_first (secs : list _PeSection) :
  forall (base sec_idx : nat) (sec : _PeSection) (start stop : Z),
    secs !! sec_idx = Some sec ->
    sec_VirtualAddress sec = start ->
    sec_VirtualAddress sec + sec_VirtualSize sec = stop ->
    (forall j sec', (j < sec_idx)%nat -> secs !! j = Some sec' ->
       ~ (sec_VirtualAddress sec' = start /\
          sec_VirtualAddress sec' + sec_VirtualSize sec' = stop)) ->
    get_directory_section_from base secs start stop = Some (base + sec_idx)%nat.
Proof.
  induction secs as [|s secs IH]; intros base sec_idx sec start stop Hlook Hva Hend Hfirst.
  - discriminate.
  - cbn [get_directory_section_from]. destruct sec_idx as [|sec_idx].
    + injection Hlook as ->. subst start stop. rewrite Z.eqb_refl, Z.leb_refl, Z.eqb_refl.
      cbn [andb]. f_equal. lia.
    + destruct ((sec_VirtualAddress s =? start)
                && (stop <=? sec_VirtualAddress s + sec_VirtualSize s)
                && (sec_VirtualAddress s + sec_VirtualSize s =? stop)) eqn:E.
      * exfalso. apply andb_prop in E as [E E2]. apply andb_prop in E as [E1 _].
        apply Z.eqb_eq in E1, E2.
        apply (Hfirst 0%nat s); [lia | reflexivity | split; assumption].
      * replace (base + S sec_idx)%nat with (S base + sec_idx)%nat by lia.
        apply (IH _ _ sec); try assumption.
        intros j sec' Hj Hl. apply (Hfirst (S j)); [lia | exact Hl].
Qed.

(** The shrinking branch of [_resize_directory]. *)
Lemma resize_directory_shrink_run (self : _PeFile) (idx size : Z)
    (k sec_idx : nat) (dd : DataDirectory.t) (sec : _PeSection) :
  py_index (len (_data_directories self)) idx = Ok k ->
  _data_directories self !! k = Some dd ->
  _get_directory_section self (DataDirectory.VirtualAddress dd)
    (DataDirectory.VirtualAddress dd + DataDirectory.Size dd) = Some sec_idx ->
  _sections self !! sec_idx = Some sec ->
  size <= sec_VirtualSize sec ->
  resize_directory idx size self =
  (Ok (mk_slice (sec_VirtualAddress sec) (sec_VirtualAddress sec + size)),
   set_data_directories
     (alter (DataDirectory.set_Size size) k (_data_directories self))
     (set_sections
        (alter (fun sec => set_hdr (SectionHeader.set_VirtualSize size (hdr sec)) sec)
           sec_idx (_sections self))
        self)).
Proof.
  intros Hk Hdd Hsec Hlook Hle.
  unfold resize_directory, _resize_directory, mbind, mget, mlift, mraise, mmodify, mret.
  rewrite Hk, (py_getitem_index _ _ _ _ Hk Hdd), Hsec.
  rewrite (py_getitem_in_range _ (Z.of_nat sec_idx) sec)
    by (rewrite ?Nat2Z.id; first [lia | exact Hlook]).
  replace (size <=? sec_VirtualSize sec) with true by (symmetry; apply Z.leb_le; lia).
  reflexivity.
Qed.

(** C4: when the directory is exactly the virtual range of a section (the
    first such section, [sec_idx]) and the new size is at most that
    section's virtual size, [resize_directory] succeeds, the section keeps
    its [VirtualAddress] and the directory its address, and the virtual
    size of the section and the size of the directory both become the new
    size. *)
Theorem resize_directory_shrink (self : _PeFile) (idx size : Z)
    (k sec_idx : nat) (dd : DataDirectory.t) (sec : _PeSection) :
  py_index (len (_data_directories self)) idx = Ok k ->
  _data_directories self !! k = Some dd ->
  _sections self !! sec_idx = Some sec ->
  directory_matches dd sec ->
  (forall j sec', (j < sec_idx)%nat -> _sections self !! j = Some sec' ->
     ~ directory_matches dd sec') ->
  size <= sec_VirtualSize sec ->
  exists self' sec' dd',
    resize_directory idx size self
    = (Ok (mk_slice (sec_VirtualAddress sec) (sec_VirtualAddress sec + size)), self') /\
    _sections self' !! sec_idx = Some sec' /\
    sec_VirtualAddress sec' = sec_VirtualAddress sec /\
    sec_VirtualSize sec' = size /\
    _data_directories self' !! k = Some dd' /\
    DataDirectory.VirtualAddress dd' = DataDirectory.VirtualAddress dd /\
    DataDirectory.Size dd' = size.
Proof.
  intros Hk Hdd Hlook [Hva Hend] Hfirst Hle.
  assert (Hsec : _get_directory_section self (DataDirectory.VirtualAddress dd)
                   (DataDirectory.VirtualAddress dd + DataDirectory.Size dd)
                 = Some sec_idx).
  { unfold _get_directory_section.
    rewrite (get_directory_section_from_first _ 0 sec_idx sec); auto. }
  rewrite (resize_directory_shrink_run _ _ _ _ _ _ _ Hk Hdd Hsec Hlook Hle).
  eexists _, _, _. split; [reflexivity|]. cbn.
  rewrite list_lookup_alter_eq, Hlook. split; [reflexivity|].
  rewrite list_lookup_alter_eq, Hdd. repeat split; reflexivity.
Qed.

(** ** What the parser establishes *)

Ltac invert_run H :=
  repeat
    match type of H with
    | rbind ?r _ = Ok _ =>
        let E := fresh "E" in destruct r eqn:E; cbn [rbind] in H; [|discriminate H]
    | (if ?c then _ else _) = Ok _ =>
        let E := fresh "E" in destruct c eqn:E; try discriminate H
    | match ?x with _ => _ end = Ok _ =>
        let E := fresh "E" in destruct x eqn:E; try discriminate H
    end.

Lemma init_inv (blob : list byte) (self : _PeFile) :
  __init__ blob = Ok self ->
  _check_vm_overlaps self = Ok tt /\
  _blob self = blob /\
  OptionalHeader.FileAlignment (_opt_header self) <> 0 /\
  exists n fin fin',
    parse_sections blob (_opt_header self) n 0 fin = Ok (_sections self, fin').
Proof.
  intros H. unfold __init__ in H. invert_run H.
  injection H as <-. cbn.
  repeat match goal with u : unit |- _ => destruct u end.
  split; [assumption|]. split; [reflexivity|].
  split; [apply Z.eqb_neq; assumption|].
  match goal with
  | E : parse_sections _ _ ?n _ ?fin = Ok ?p |- _ =>
      exists n, fin, p.2; rewrite E; destruct p; reflexivity
  end.
Qed.

Lemma parse_sections_as_parsed (blob : list byte) (opt : OptionalHeader.t) (n : nat) :
  forall (sec_idx : Z) (fin fin' : stream) (secs : list _PeSection),
    parse_sections blob opt n sec_idx fin = Ok (secs, fin') ->
    Forall as_parsed secs.
Proof.
  induction n as [|n IH]; intros sec_idx fin fin' secs H; cbn [parse_sections] in H.
  - injection H as <- _. constructor.
  - invert_run H. injection H as <- _. constructor.
    + match goal with E : make_pe_section _ _ _ _ = Ok _ |- _ =>
        unfold make_pe_section in E; invert_run E; injection E as <- end.
      unfold as_parsed, sec_PointerToRawData. cbn.
      split; [reflexivity|]. split; [reflexivity|].
      destruct (SectionHeader.PointerToRawData _ =? 0) eqn:E0.
      * apply Z.eqb_eq in E0. split; intros _; [exact E0 | reflexivity].
      * apply Z.eqb_neq in E0. split; intros H'; [discriminate H' | contradiction].
    + match goal with
      | E : parse_sections _ _ n _ _ = Ok ?p |- _ => destruct p; eapply IH; exact E
      end.
Qed.

Lemma init_as_parsed (blob : list byte) (self : _PeFile) :
  __init__ blob = Ok self -> Forall as_parsed (_sections self).
Proof.
  intros H. destruct (init_inv _ _ H) as (_ & _ & _ & n & fin & fin' & Hsecs).
  eapply parse_sections_as_parsed, Hsecs.
Qed.

(** On every parsed image, then, a directory cannot grow: the call raises
    and nothing is reassigned. *)
Lemma resize_directory_grow_parsed (blob : list byte) (self : _PeFile)
    (idx size : Z) (k sec_idx : nat) (dd : DataDirectory.t) (sec : _PeSection) :
  parse_pe blob = Ok self ->
  py_index (len (_data_directories self)) idx = Ok k ->
  _data_directories self !! k = Some dd ->
  _get_directory_section self (DataDirectory.VirtualAddress dd)
    (DataDirectory.VirtualAddress dd + DataDirectory.Size dd) = Some sec_idx ->
  _sections self !! sec_idx = Some sec ->
  sec_VirtualSize sec < size ->
  exists e, resize_directory idx size self = (Raise e, self)
            /\ (e = AttributeError \/ e = IndexError).
Proof.
  intros Hparse. apply resize_directory_grow_raises.
  eapply Forall_impl; [apply (init_as_parsed _ _ Hparse)|].
  intros x (H & _). exact H.
Qed.

(** ** [store] and sections without file backing *)

Lemma store_assign_offsets_data (alignment : Z) (secs : list _PeSection) :
  forall section_offset,
    map data (store_assign_offsets alignment section_offset secs).2 = map data secs.
Proof.
  induction secs as [|sec secs IH]; intros section_offset; cbn [store_assign_offsets].
  - reflexivity.
  - destruct (sec_PointerToRawData sec =? 0).
    + specialize (IH section_offset).
      destruct (store_assign_offsets alignment section_offset secs). cbn in *.
      rewrite IH. reflexivity.
    + cbn [set_hdr data]. destruct (data sec) eqn:Ed.
      * destruct (_align (len l) alignment) as [size|e].
        -- specialize (IH (section_offset + size)).
           destruct (store_assign_offsets alignment (section_offset + size) secs).
           cbn in *. rewrite IH, Ed. reflexivity.
        -- cbn. rewrite Ed. reflexivity.
      * cbn. rewrite Ed. reflexivity.
Qed.

(** The last loop of [store] raises on data that is [None]. *)
Lemma store_section_data_absent (alignment : Z) (secs : list _PeSection) :
  In None (map data secs) -> exists e, store_section_data alignment secs = Raise e.
Proof.
  induction secs as [|sec secs IH]; intros Hin; [destruct Hin|].
  cbn [store_section_data]. destruct (data sec) as [d|] eqn:Ed; [|eauto].
  destruct Hin as [Hin|Hin]; [cbn in Hin; congruence|].
  destruct (IH Hin) as [e He]. rewrite He.
  destruct (_align (len d) alignment); cbn [rbind]; eauto.
Qed.

Lemma store_absent_data (self : _PeFile) :
  In None (map data (_sections self)) ->
  exists e self', store self = (Raise e, self').
Proof.
  intros Hin. unfold store, mbind, mlift, mget, mmodify, mret.
  destruct (_check_vm_overlaps self); [|eauto].
  destruct (_file_align self _) as [section_offset|]; [|eauto].
  pose proof (store_assign_offsets_data
                (OptionalHeader.FileAlignment (_opt_header self))
                (_sections self) section_offset) as Hdata.
  destruct (store_assign_offsets _ _ _) as [r secs]. cbn [snd] in Hdata.
  destruct r; [|eauto]. cbv beta iota zeta.
  destruct (FileHeader.pack _); [|eauto]. cbv beta iota zeta.
  destruct (pack_uint 2 _); [|eauto]. cbv beta iota zeta.
  destruct (OptionalHeader.pack _); [|eauto]. cbv beta iota zeta.
  destruct (pack_all DataDirectory.pack _); [|eauto]. cbv beta iota zeta.
  destruct (pack_all _ _); [|eauto]. cbv beta iota zeta.
  unfold set_opt_header, set_sections; cbn [_sections _opt_header].
  change (OptionalHeader.FileAlignment (OptionalHeader.set_CheckSum 0 (_opt_header self)))
    with (OptionalHeader.FileAlignment (_opt_header self)).
  rewrite <- Hdata in Hin.
  destruct (store_section_data_absent
              (OptionalHeader.FileAlignment (_opt_header self)) secs Hin) as [e He].
  rewrite He. eauto.
Qed.

(** C9: when a parsed image has a section whose [PointerToRawData] is
    zero, that section's data is [None] and [store] raises instead of
    giving a buffer: the last loop of the serializer takes [len(sec.data)]
    of every section. *)
Theorem store_fails_without_file_backing (blob : list byte) (self : _PeFile)
    (sec : _PeSection) :
  parse_pe blob = Ok self ->
  In sec (_sections self) ->
  sec_PointerToRawData sec = 0 ->
  data sec = None /\
  (exists e, store_section_data (OptionalHeader.FileAlignment (_opt_header self))
               (_sections self) = Raise e) /\
  exists e self', store self = (Raise e, self').
Proof.
  intros Hparse Hin Hptr.
  pose proof (init_as_parsed _ _ Hparse) as Hfresh.
  rewrite Forall_forall in Hfresh.
  assert (Hdata : data sec = None).
  { apply (Hfresh sec); [apply list_elem_of_In; exact Hin | exact Hptr]. }
  assert (Hnone : In None (map data (_sections self))).
  { rewrite <- Hdata. apply in_map. exact Hin. }
  split; [exact Hdata|]. split.
  - apply store_section_data_absent, Hnone.
  - apply store_absent_data, Hnone.
Qed.

Lemma store_fails_without_file_backing_witness :
  exists sec,
    In sec (_sections (sample_image true)) /\
    sec_PointerToRawData sec = 0 /\
    data sec = None /\
    exists e self', store (sample_image true) = (Raise e, self').
Proof.
  eexists (mk_PeSection _ None None None).
  assert (Hin : In (mk_PeSection
                      (SectionHeader.mk [x2e; x62; x73; x73; x00; x00; x00; x00]
                         0x100 0x3000 0 0 0 0 0 0 0) None None None)
                   (_sections (sample_image true))) by (simpl; auto).
  split; [exact Hin|]. split; [reflexivity|].
  destruct (store_fails_without_file_backing (sample_pe true) (sample_image true) _
              (parse_sample_pe true) Hin eq_refl) as (Hd & _ & Hs).
  split; [exact Hd | exact Hs].
Defined.

Lemma remove_signature_rejects_witness :
  remove_signature sample_image_cut
  = (Raise (RuntimeError "signature is not at the end of the file"), sample_image_cut) /\
  remove_signature sample_image_overlong
  = (Raise (RuntimeError "signature is not contained in the pe trailer"),
     sample_image_overlong).
Proof.
  split.
  - refine (proj1 (remove_signature_rejects sample_image_cut
                     (DataDirectory.mk 0x600 8) eq_refl _) _);
      vm_compute; lia.
  - refine (proj2 (remove_signature_rejects sample_image_overlong
                     (DataDirectory.mk 0x5f8 16) eq_refl _) _ _).
    + vm_compute. lia.
    + vm_compute. reflexivity.
    + vm_compute. reflexivity.
Defined.

Lemma resize_directory_shrink_witness :
  exists self' sec' dd',
    resize_directory IMAGE_DIRECTORY_ENTRY_IMPORT 0x50 (sample_image true)
    = (Ok (mk_slice 0x2000 0x2050), self') /\
    _sections self' !! 1%nat = Some sec' /\
    sec_VirtualAddress sec' = 0x2000 /\
    sec_VirtualSize sec' = 0x50 /\
    _data_directories self' !! 1%nat = Some dd' /\
    DataDirectory.VirtualAddress dd' = 0x2000 /\
    DataDirectory.Size dd' = 0x50.
Proof.
  apply (resize_directory_shrink (sample_image true) IMAGE_DIRECTORY_ENTRY_IMPORT 0x50
           1%nat 1%nat (DataDirectory.mk 0x2000 0x100)
           (mk_PeSection
              (SectionHeader.mk [x2e; x69; x64; x61; x74; x61; x00; x00]
                 0x100 0x2000 0x200 0x400 0 0 0 0 0)
              (Some (replicate 0x200 x11)) None None)).
  - reflexivity.
  - reflexivity.
  - reflexivity.
  - split; reflexivity.
  - intros j sec' Hj Hsec'. destruct j as [|j]; [|lia].
    injection Hsec' as <-. vm_compute. intros [H _]. discriminate H.
  - vm_compute. discriminate.
Defined.

(** C7: after a [remove_signature] that returned, a second call returns
    too and changes nothing, the trailer and the directory entries
    included; a security entry, when there is one, has size zero by
    then. *)
Theorem remove_signature_twice (self self' : _PeFile) :
  remove_signature self = (Ok tt, self') ->
  remove_signature self' = (Ok tt, self') /\
  (forall dd, _data_directories self' !! 4%nat = Some dd -> DataDirectory.Size dd = 0).
Proof.
  intros H.
  destruct (_data_directories self !! 4%nat) as [dd|] eqn:Hdd.
  - rewrite (remove_signature_entry _ _ Hdd) in H.
    destruct (DataDirectory.Size dd =? 0) eqn:Hsize.
    + injection H as <-. rewrite (remove_signature_entry _ _ Hdd), Hsize.
      split; [reflexivity|]. intros dd' Hdd'. rewrite Hdd in Hdd'.
      injection Hdd' as <-. apply Z.eqb_eq. exact Hsize.
    + destruct (negb _); [discriminate H|].
      destruct (DataDirectory.VirtualAddress dd <? _trailer_offset self);
        [discriminate H|].
      injection H as <-.
      assert (Hdd' : _data_directories
                       (set_data_directories
                          (alter (DataDirectory.set_Size 0) 4%nat
                             (alter (DataDirectory.set_VirtualAddress 0) 4%nat
                                (_data_directories self)))
                          (set_trailer
                             (py_slice (_trailer self) None
                                (Some (- DataDirectory.Size dd))) self)) !! 4%nat
                     = Some (DataDirectory.mk 0 0)).
      { cbn. rewrite !list_lookup_alter_eq, Hdd. reflexivity. }
      rewrite (remove_signature_entry _ _ Hdd'). split; [reflexivity|].
      intros dd' H'. rewrite Hdd' in H'. injection H' as <-. reflexivity.
  - apply lookup_ge_None in Hdd.
    assert (Hsame : remove_signature self = (Ok tt, self) \/
                    exists e, remove_signature self = (Raise e, self)).
    { unfold remove_signature, mbind, mget, mlift, mret.
      destruct (len (_data_directories self) <? IMAGE_DIRECTORY_ENTRY_SECURITY) eqn:E;
        [left; reflexivity|].
      apply Z.ltb_ge in E. unfold IMAGE_DIRECTORY_ENTRY_SECURITY in *.
      assert (Hlen : len (_data_directories self) = 4) by (unfold len in *; lia).
      rewrite Hlen. right. eexists. reflexivity. }
    destruct Hsame as [Hsame|[e Hsame]]; rewrite Hsame in H; [|discriminate H].
    injection H as <-. split; [exact Hsame|].
    intros dd Hdd'. apply lookup_lt_Some in Hdd'. lia.
Qed.

Lemma remove_signature_twice_witness :
  remove_signature (sample_image true)
  = (Ok tt, (remove_signature (sample_image true)).2) /\
  _trailer (remove_signature (sample_image true)).2 = [] /\
  remove_signature (remove_signature (sample_image true)).2
  = (Ok tt, (remove_signature (sample_image true)).2).
Proof.
  assert (H : remove_signature (sample_image true)
              = (Ok tt, (remove_signature (sample_image true)).2))
    by (vm_compute; reflexivity).
  split; [exact H|]. split; [vm_compute; reflexivity|].
  apply (remove_signature_twice _ _ H).
Defined.

(** ** Sorting *)

Section Sorted.
Context {A : Type} (key : A -> Z).

Lemma insert_sorted_perm (x : A) (l : list A) :
  Permutation (insert_sorted key x l) (x :: l).
Proof.
  induction l as [|y l IH]; cbn [insert_sorted]; [reflexivity|].
  destruct (key x <=? key y); [reflexivity|].
  rewrite IH. apply perm_swap.
Qed.

Lemma sorted_perm (l : list A) : Permutation (sorted key l) l.
Proof.
  induction l as [|x l IH]; cbn [sorted]; [reflexivity|].
  rewrite insert_sorted_perm, IH. reflexivity.
Qed.

Lemma insert_sorted_ordered (x : A) (l : list A) :
  StronglySorted (fun a b => key a <= key b) l ->
  StronglySorted (fun a b => key a <= key b) (insert_sorted key x l).
Proof.
  induction l as [|y l IH]; intros Hs; cbn [insert_sorted].
  - repeat constructor.
  - apply StronglySorted_inv in Hs as [Hs Hy].
    destruct (key x <=? key y) eqn:E.
    + apply Z.leb_le in E. constructor; [constructor; assumption|].
      constructor; [exact E|].
      eapply Forall_impl; [exact Hy|]. intros z Hz. cbn in *. lia.
    + apply Z.leb_gt in E. constructor; [apply IH; exact Hs|].
      rewrite Forall_forall. intros z Hz.
      apply list_elem_of_In in Hz.
      apply (Permutation_in _ (insert_sorted_perm x l)) in Hz as [<-|Hz]; [lia|].
      rewrite Forall_forall in Hy. apply Hy, list_elem_of_In, Hz.
Qed.

Lemma sorted_ordered (l : list A) :
  StronglySorted (fun a b => key a <= key b) (sorted key l).
Proof.
  induction l as [|x l IH]; cbn [sorted]; [constructor|].
  apply insert_sorted_ordered, IH.
Qed.

(** Sorting two lists whose elements agree on the key, position by
    position, moves the same positions. *)
Lemma insert_sorted_Forall2 (R : A -> A -> Prop) (x x' : A) (l l' : list A) :
  (forall a b, R a b -> key b = key a) ->
  R x x' -> Forall2 R l l' ->
  Forall2 R (insert_sorted key x l) (insert_sorted key x' l').
Proof.
  intros Hkey Hx Hl. induction Hl as [|y y' l l' Hy Hl IH]; cbn [insert_sorted].
  - repeat constructor. exact Hx.
  - rewrite (Hkey _ _ Hx), (Hkey _ _ Hy).
    destruct (key x <=? key y); repeat constructor; assumption.
Qed.

Lemma sorted_Forall2 (R : A -> A -> Prop) (l l' : list A) :
  (forall a b, R a b -> key b = key a) ->
  Forall2 R l l' -> Forall2 R (sorted key l) (sorted key l').
Proof.
  intros Hkey Hl. induction Hl as [|x x' l l' Hx Hl IH]; cbn [sorted].
  - constructor.
  - apply insert_sorted_Forall2; assumption.
Qed.
End Sorted.

(** ** Pairs of a list *)

Lemma ForallOrdPairs_perm {A} (R : A -> A -> Prop) (l l' : list A) :
  (forall a b, R a b -> R b a) ->
  Permutation l l' -> ForallOrdPairs R l -> ForallOrdPairs R l'.
Proof.
  intros Hsym Hp. induction Hp as [| x l l' Hp IH | x y l | l1 l2 l3 _ IH1 _ IH2]; intros H.
  - exact H.
  - inversion H as [|? ? Hx Hl]; subst. constructor; [|apply IH; exact Hl].
    rewrite List.Forall_forall in *. intros z Hz. apply Hx.
    apply (Permutation_in _ (Permutation_sym Hp)). exact Hz.
  - inversion H as [|? ? Hy Hl]; subst. inversion Hl as [|? ? Hx Hl']; subst.
    inversion Hy as [|? ? Hyx Hy']; subst.
    constructor; [constructor; [apply Hsym; exact Hyx | exact Hx]|].
    constructor; assumption.
  - apply IH2, IH1, H.
Qed.

Lemma ForallOrdPairs_lookup {A} (R : A -> A -> Prop) (l : list A) :
  ForallOrdPairs R l ->
  forall (i j : nat) (a b : A),
    (i < j)%nat -> l !! i = Some a -> l !! j = Some b -> R a b.
Proof.
  induction 1 as [|x l Hx Hl IH]; intros i j a b Hij Ha Hb; [discriminate|].
  destruct j as [|j]; [lia|]. cbn in Hb. destruct i as [|i].
  - injection Ha as <-. rewrite List.Forall_forall in Hx. apply Hx.
    apply list_elem_of_In. eapply list_elem_of_lookup_2. exact Hb.
  - cbn in Ha. apply (IH i j); [lia | assumption | assumption].
Qed.

(** ** Resizing and the virtual-address check *)

Lemma py_getitem_nat {A} (l : list A) (i : nat) (x : A) :
  py_getitem l (Z.of_nat i) = Ok x -> l !! i = Some x.
Proof.
  unfold py_getitem, py_index. intros H.
  replace (0 <=? Z.of_nat i) with true in H by (symmetry; apply Z.leb_le; lia).
  replace (Z.of_nat i <? 0) with false in H by (symmetry; apply Z.ltb_ge; lia).
  rewrite andb_false_r, andb_true_l in H.
  destruct (Z.of_nat i <? len l); [|discriminate H].
  cbn [rbind] in H. rewrite Nat2Z.id in H.
  destruct (l !! i); [injection H as ->; reflexivity | discriminate H].
Qed.

Lemma vm_shrunk_refl (sec : _PeSection) : vm_shrunk sec sec.
Proof. split; [reflexivity | lia]. Qed.

Lemma Forall2_vm_shrunk_refl (secs : list _PeSection) : Forall2 vm_shrunk secs secs.
Proof. apply Forall_Forall2_diag, Forall_true, vm_shrunk_refl. Qed.

(** The check reads the headers only, and passes again when virtual
    sizes have not grown. *)
Lemma check_vm_overlaps_loop_shrunk (alignment : Z) (secs secs' : list _PeSection) :
  Forall2 vm_shrunk secs secs' ->
  forall prev prev',
    option_Forall2 vm_shrunk prev prev' ->
    check_vm_overlaps_loop alignment prev secs = Ok tt ->
    check_vm_overlaps_loop alignment prev' secs' = Ok tt.
Proof.
  induction 1 as [|sec sec' secs secs' [Hva Hvs] _ IH]; intros prev prev' Hprev Hrun.
  - reflexivity.
  - cbn [check_vm_overlaps_loop] in *.
    destruct (alignment =? 0); [discriminate Hrun|].
    rewrite Hva. destruct (negb _); [discriminate Hrun|].
    assert (Hover : match prev' with
                    | Some p => sec_VirtualAddress sec <? sec_VirtualAddress p + sec_VirtualSize p
                    | None => false
                    end = false).
    { destruct Hprev as [p p' [Hpa Hps]|]; [|reflexivity].
      destruct (sec_VirtualAddress sec <? sec_VirtualAddress p + sec_VirtualSize p) eqn:E;
        [discriminate Hrun|].
      apply Z.ltb_ge in E. apply Z.ltb_ge. lia. }
    rewrite Hover.
    destruct (match prev with Some _ => _ | None => _ end); [discriminate Hrun|].
    apply (IH (Some sec) (Some sec')); [|exact Hrun].
    constructor. split; assumption.
Qed.

Lemma check_vm_overlaps_shrunk (self self' : _PeFile) :
  Forall2 vm_shrunk (_sections self) (_sections self') ->
  _opt_header self' = _opt_header self ->
  _check_vm_overlaps self = Ok tt -> _check_vm_overlaps self' = Ok tt.
Proof.
  intros Hsecs Hopt. unfold _check_vm_overlaps. rewrite Hopt.
  apply check_vm_overlaps_loop_shrunk; [|constructor].
  apply sorted_Forall2; [|exact Hsecs]. intros a b [Hva _]. exact Hva.
Qed.

(** Whatever [_resize_directory] does, and whether it returns or raises,
    no header gets another virtual address or a larger virtual size. *)
Lemma resize_directory_shrinks (idx size : Z) (self : _PeFile) :
  Forall2 vm_shrunk (_sections self) (_sections (_resize_directory idx size self).2) /\
  _opt_header (_resize_directory idx size self).2 = _opt_header self.
Proof.
  pose proof (Forall2_vm_shrunk_refl (_sections self)) as Hrefl.
  unfold _resize_directory, mbind, mget, mlift, mraise, mmodify, mret.
  destruct (py_index _ idx) as [k|]; [|split; [exact Hrefl | reflexivity]].
  destruct (py_getitem (_data_directories self) idx) as [dd|];
    [|split; [exact Hrefl | reflexivity]].
  destruct (_get_directory_section self _ _) as [sec_idx|];
    [|split; [exact Hrefl | reflexivity]].
  destruct (py_getitem (_sections self) (Z.of_nat sec_idx)) as [sec|] eqn:Hsec;
    [|split; [exact Hrefl | reflexivity]].
  apply py_getitem_nat in Hsec.
  destruct (size <=? sec_VirtualSize sec) eqn:Hle.
  - apply Z.leb_le in Hle. cbn. split; [|reflexivity].
    apply Forall2_alter_r; [exact Hrefl|].
    intros x y Hx Hy _. rewrite Hsec in Hy. injection Hy as <-.
    rewrite Hsec in Hx. injection Hx as <-.
    split; [reflexivity | exact Hle].
  - destruct (_find_vm_hole self _ size) as [sl|]; [|split; [exact Hrefl | reflexivity]].
    cbn. split; [|reflexivity].
    apply Forall2_alter_r; [apply Forall2_alter_r; [exact Hrefl|]|];
      intros x y _ _ Hxy; exact Hxy.
Qed.

Lemma resize_directory_keeps_check (idx size : Z) (self : _PeFile) :
  _check_vm_overlaps self = Ok tt ->
  _check_vm_overlaps (resize_directory idx size self).2 = Ok tt.
Proof.
  intros H. destruct (resize_directory_shrinks idx size self) as [Hsecs Hopt].
  assert (Hsame : (resize_directory idx size self).2 = (_resize_directory idx size self).2).
  { unfold resize_directory, mbind, mret.
    destruct (_resize_directory idx size self) as [[r|e] s]; reflexivity. }
  rewrite Hsame. eapply check_vm_overlaps_shrunk; eassumption.
Qed.

Lemma resize_directories_keep_check (calls : list (Z * Z)) :
  forall self,
    _check_vm_overlaps self = Ok tt ->
    _check_vm_overlaps (resize_directories calls self).2 = Ok tt.
Proof.
  induction calls as [|[idx size] calls IH]; intros self H; [exact H|].
  cbn [resize_directories]. unfold mbind, mret.
  pose proof (resize_directory_keeps_check idx size self H) as Hstep.
  destruct (resize_directory idx size self) as [[sl|e] s]; cbn [snd] in *; [|exact Hstep].
  specialize (IH s Hstep).
  destruct (resize_directories calls s) as [[sls|e] s']; exact IH.
Qed.

(** ** What the virtual-address check establishes *)

Lemma check_vm_overlaps_loop_aligned (alignment : Z) (secs : list _PeSection) :
  forall prev,
    check_vm_overlaps_loop alignment prev secs = Ok tt ->
    Forall (fun sec => (alignment | sec_VirtualAddress sec)) secs.
Proof.
  induction secs as [|sec secs IH]; intros prev Hrun; [constructor|].
  cbn [check_vm_overlaps_loop] in Hrun.
  destruct (alignment =? 0) eqn:Ea; [discriminate Hrun|].
  destruct (sec_VirtualAddress sec mod alignment =? 0) eqn:Em;
    cbn [negb] in Hrun; [|discriminate Hrun].
  destruct (match prev with Some _ => _ | None => _ end); [discriminate Hrun|].
  apply Z.eqb_neq in Ea. apply Z.eqb_eq in Em.
  constructor; [apply Z.mod_divide; assumption | eapply IH; exact Hrun].
Qed.

Lemma vm_apart_sym (a b : _PeSection) : vm_apart a b -> vm_apart b a.
Proof. intros H addr [Hb Ha]. apply (H addr). split; assumption. Qed.

Lemma vm_apart_before (a b : _PeSection) :
  sec_VirtualAddress a + sec_VirtualSize a <= sec_VirtualAddress b -> vm_apart a b.
Proof. intros H addr [[_ Ha] [Hb _]]. lia. Qed.

(** After [prev], every section of a sorted list starts where [prev] ends
    or later, although only the next one is compared with it. *)
Lemma check_vm_overlaps_loop_after (alignment : Z) (p : _PeSection)
    (secs : list _PeSection) :
  StronglySorted (fun a b => sec_VirtualAddress a <= sec_VirtualAddress b) secs ->
  check_vm_overlaps_loop alignment (Some p) secs = Ok tt ->
  Forall (fun b => sec_VirtualAddress p + sec_VirtualSize p <= sec_VirtualAddress b) secs.
Proof.
  intros Hs Hrun. destruct secs as [|sec secs]; [constructor|].
  cbn [check_vm_overlaps_loop] in Hrun.
  destruct (alignment =? 0); [discriminate Hrun|].
  destruct (negb _); [discriminate Hrun|].
  destruct (sec_VirtualAddress sec <? sec_VirtualAddress p + sec_VirtualSize p) eqn:E;
    [discriminate Hrun|].
  apply Z.ltb_ge in E. apply StronglySorted_inv in Hs as [_ Hsec].
  constructor; [exact E|].
  eapply Forall_impl; [exact Hsec|]. intros b Hb. cbn in Hb. lia.
Qed.

Lemma check_vm_overlaps_loop_apart (alignment : Z) (secs : list _PeSection) :
  forall prev,
    StronglySorted (fun a b => sec_VirtualAddress a <= sec_VirtualAddress b) secs ->
    check_vm_overlaps_loop alignment prev secs = Ok tt ->
    ForallOrdPairs vm_apart secs.
Proof.
  induction secs as [|sec secs IH]; intros prev Hs Hrun; [constructor|].
  cbn [check_vm_overlaps_loop] in Hrun.
  destruct (alignment =? 0) eqn:Ea; [discriminate Hrun|].
  destruct (negb _) eqn:Em; [discriminate Hrun|].
  destruct (match prev with Some _ => _ | None => _ end); [discriminate Hrun|].
  pose proof (StronglySorted_inv Hs) as [Hs' _].
  constructor; [|eapply IH; eassumption].
  eapply Forall_impl; [apply (check_vm_overlaps_loop_after _ _ _ Hs' Hrun)|].
  intros b Hb. apply vm_apart_before. exact Hb.
Qed.

Lemma check_vm_invariant (self : _PeFile) :
  _check_vm_overlaps self = Ok tt -> vm_invariant self.
Proof.
  unfold _check_vm_overlaps. intros Hrun. split.
  - intros sec Hin.
    pose proof (check_vm_overlaps_loop_aligned _ _ _ Hrun) as Hal.
    rewrite Forall_forall in Hal. apply Hal, list_elem_of_In.
    apply (Permutation_in _ (Permutation_sym (sorted_perm sec_VirtualAddress _))).
    exact Hin.
  - assert (Hpairs : ForallOrdPairs vm_apart (_sections self)).
    { apply (ForallOrdPairs_perm vm_apart _ _ vm_apart_sym
               (sorted_perm sec_VirtualAddress (_sections self))).
      eapply check_vm_overlaps_loop_apart; [apply sorted_ordered | exact Hrun]. }
    intros i j a b addr Hij Ha Hb.
    destruct (Nat.lt_total i j) as [Hlt|[Heq|Hgt]]; [| contradiction |].
    + exact (ForallOrdPairs_lookup _ _ Hpairs i j a b Hlt Ha Hb addr).
    + apply vm_apart_sym.
      exact (ForallOrdPairs_lookup _ _ Hpairs j i b a Hgt Hb Ha).
Qed.

(** C3: after any sequence of [resize_directory] calls that all returned
    on a parsed image, the check that [store] starts with passes, every
    [VirtualAddress] is a multiple of [SectionAlignment], and no address
    lies in the virtual ranges of two sections. *)
Theorem resize_directories_keep_vm_invariant (blob : list byte)
    (calls : list (Z * Z)) (self self' : _PeFile) (ranges : list slice) :
  parse_pe blob = Ok self ->
  resize_directories calls self = (Ok ranges, self') ->
  _check_vm_overlaps self' = Ok tt /\ vm_invariant self'.
Proof.
  intros Hparse Hrun.
  destruct (init_inv _ _ Hparse) as (Hcheck & _).
  pose proof (resize_directories_keep_check calls self Hcheck) as H.
  rewrite Hrun in H. cbn [snd] in H.
  split; [exact H | apply check_vm_invariant, H].
Qed.

Lemma resize_directories_keep_vm_invariant_witness :
  exists self' ranges,
    resize_directories [(1, 0x50); (1, 0x20)] (sample_image true) = (Ok ranges, self') /\
    ranges = [mk_slice 0x2000 0x2050; mk_slice 0x2000 0x2020] /\
    _check_vm_overlaps self' = Ok tt /\ vm_invariant self'.
Proof.
  exists (resize_directories [(1, 0x50); (1, 0x20)] (sample_image true)).2.
  exists [mk_slice 0x2000 0x2050; mk_slice 0x2000 0x2020].
  assert (Hrun : resize_directories [(1, 0x50); (1, 0x20)] (sample_image true)
                 = (Ok [mk_slice 0x2000 0x2050; mk_slice 0x2000 0x2020],
                    (resize_directories [(1, 0x50); (1, 0x20)] (sample_image true)).2))
    by (vm_compute; reflexivity).
  split; [exact Hrun|]. split; [reflexivity|].
  exact (resize_directories_keep_vm_invariant (sample_pe true) _ _ _ _
           (parse_sample_pe true) Hrun).
Defined.

(** * Further properties *)

(** ** [_align] *)

(** With a positive alignment, [_align] gives the least multiple of the
    alignment that is not below the offset; a multiple is left as it is. *)
Theorem align_least_multiple (offs alignment : Z) :
  0 < alignment ->
  exists r,
    _align offs alignment = Ok r /\
    (alignment | r) /\ offs <= r < offs + alignment /\
    (forall m, (alignment | m) -> offs <= m -> r <= m) /\
    ((alignment | offs) -> r = offs).
Proof.
  intros Hpos. unfold _align.
  replace (alignment =? 0) with false by (symmetry; apply Z.eqb_neq; lia).
  set (q := (offs + alignment - 1) / alignment).
  exists (q * alignment). split; [reflexivity|].
  pose proof (Z.div_mod (offs + alignment - 1) alignment ltac:(lia)) as Hdm.
  pose proof (Z.mod_pos_bound (offs + alignment - 1) alignment Hpos) as Hmod.
  fold q in Hdm.
  assert (Hb : offs <= q * alignment < offs + alignment) by lia.
  split; [exists q; reflexivity|]. split; [exact Hb|]. split.
  - intros m [k ->] Hm.
    assert (q <= k); [|nia].
    apply Z.lt_succ_r. apply (Z.mul_lt_mono_pos_r alignment); [exact Hpos|]. lia.
  - intros [k ->].
    assert (Hqk : q = k); [|rewrite Hqk; reflexivity].
    assert (q < k + 1) by (apply (Z.mul_lt_mono_pos_r alignment); [exact Hpos|]; lia).
    assert (k - 1 < q) by (apply (Z.mul_lt_mono_pos_r alignment); [exact Hpos|]; lia).
    lia.
Qed.

Lemma align_least_multiple_witness :
  exists r,
    _align 0x1b0 0x200 = Ok r /\
    (0x200 | r) /\ 0x1b0 <= r < 0x1b0 + 0x200 /\
    (forall m, (0x200 | m) -> 0x1b0 <= m -> r <= m) /\
    ((0x200 | 0x1b0) -> r = 0x1b0).
Proof. apply (align_least_multiple 0x1b0 0x200). lia. Defined.

(** ** The fold of [pe_checksum] in closed form *)

Lemma mod_65535_limb (c : Z) :
  0 <= c -> (c mod 2 ^ 16 + c / 2 ^ 16) mod 65535 = c mod 65535.
Proof.
  intros Hc. rewrite (Z.div_mod c (2 ^ 16)) at 3 by lia.
  change (2 ^ 16) with (1 + 1 * 65535).
  replace ((1 + 1 * 65535) * (c / (1 + 1 * 65535)) + c mod (1 + 1 * 65535))
    with (c mod (1 + 1 * 65535) + c / (1 + 1 * 65535) + (c / (1 + 1 * 65535)) * 65535) by lia.
  rewrite Z.mod_add by lia. reflexivity.
Qed.

Lemma sum_upto_limb16_mod (n : nat) :
  forall c, 0 <= c < 2 ^ (16 * Z.of_nat n) ->
    sum_upto n (limb16 c) mod 65535 = c mod 65535.
Proof.
  induction n as [|n IH]; intros c Hc.
  - change (2 ^ (16 * Z.of_nat 0)) with 1 in Hc. replace c with 0 by lia. reflexivity.
  - rewrite sum_upto_limb16_step.
    rewrite <- (mod_65535_limb c) by lia.
    rewrite Z.add_mod, (IH (c / 2 ^ 16)) by (try apply div_pow16_lt; try exact Hc; lia).
    rewrite <- Z.add_mod by lia. reflexivity.
Qed.

Lemma sum_upto_limb16_pos (n : nat) :
  forall c, 0 < c < 2 ^ (16 * Z.of_nat n) -> 0 < sum_upto n (limb16 c).
Proof.
  induction n as [|n IH]; intros c Hc.
  - change (2 ^ (16 * Z.of_nat 0)) with 1 in Hc. lia.
  - rewrite sum_upto_limb16_step.
    pose proof (Z.mod_pos_bound c (2 ^ 16) ltac:(lia)) as Hm.
    pose proof (Z.div_mod c (2 ^ 16) ltac:(lia)) as Hdm.
    assert (Hq : 0 <= c / 2 ^ 16 < 2 ^ (16 * Z.of_nat n)) by (apply div_pow16_lt; lia).
    destruct (Z.eq_dec (c / 2 ^ 16) 0) as [E|E].
    + rewrite E, sum_upto_limb16_zero. lia.
    + specialize (IH (c / 2 ^ 16) ltac:(lia)). lia.
Qed.

Lemma limb_sum16_enough (r : Z) :
  0 <= r -> 0 <= r < 2 ^ (16 * Z.of_nat (S (Z.to_nat (Z.log2 r / 16)))).
Proof.
  intros H. pose proof (Z.log2_nonneg r) as Hl. split; [exact H|].
  eapply Z.lt_le_trans; [apply lt_pow2_S_log2; exact H|].
  apply Z.pow_le_mono_r; [lia|].
  rewrite Nat2Z.inj_succ, Z2Nat.id by (apply Z.div_pos; lia).
  pose proof (Z.mul_succ_div_gt (Z.log2 r) 16 ltac:(lia)). lia.
Qed.

Lemma limb_sum16_mod (r : Z) : 0 <= r -> limb_sum16 r mod 65535 = r mod 65535.
Proof. intros H. apply sum_upto_limb16_mod, limb_sum16_enough, H. Qed.

Lemma limb_sum16_pos (r : Z) : 0 < r -> 0 < limb_sum16 r.
Proof.
  intros H. apply sum_upto_limb16_pos.
  pose proof (limb_sum16_enough r ltac:(lia)). lia.
Qed.

Lemma fold16_iter_mod (n : nat) :
  forall r, 0 <= r ->
    fold16_iter n r mod 65535 = r mod 65535 /\ (0 < r -> 0 < fold16_iter n r).
Proof.
  induction n as [|n IH]; intros r Hr; cbn [fold16_iter]; [split; [reflexivity | auto]|].
  destruct (r <=? 0xFFFF); [split; [reflexivity | auto]|].
  destruct (IH (limb_sum16 r) (limb_sum16_nonneg r Hr)) as [Hm Hp].
  split; [rewrite Hm; apply limb_sum16_mod, Hr|].
  intros H. apply Hp, limb_sum16_pos, H.
Qed.

(** The fold is the remainder modulo 0xFFFF, taken in [1, 0xFFFF] for a
    sum that is not zero. *)
Lemma fold16_closed (r : Z) :
  0 <= r -> fold16 r = if r =? 0 then 0 else (r - 1) mod 65535 + 1.
Proof.
  intros Hr. destruct (r =? 0) eqn:E.
  - apply Z.eqb_eq in E. subst. reflexivity.
  - apply Z.eqb_neq in E.
    pose proof (fold16_le r Hr) as Hle.
    destruct (fold16_iter_mod (S (Z.to_nat (Z.log2 r))) r Hr) as [Hm Hp].
    fold (fold16 r) in Hm, Hp. specialize (Hp ltac:(lia)).
    set (f := fold16 r) in *.
    assert (Hf : (f - 1) mod 65535 = (r - 1) mod 65535).
    { rewrite <- (Zminus_mod_idemp_l f), Hm, Zminus_mod_idemp_l. reflexivity. }
    rewrite <- Hf. rewrite Z.mod_small by lia. lia.
Qed.

(** On an even-length buffer [pe_checksum] is the length plus the sum of
    the little-endian words reduced modulo 0xFFFF into [1, 0xFFFF] (0 only
    for a sum of 0), so it lies between the length and the length plus
    0xFFFF. *)
Theorem pe_checksum_closed_form (buf : list byte) :
  Z.even (len buf) = true ->
  pe_checksum [buf]
  = Ok (len buf + (if sum (words_le buf) =? 0 then 0
                   else (sum (words_le buf) - 1) mod 65535 + 1)) /\
  (forall v, pe_checksum [buf] = Ok v -> len buf <= v <= len buf + 0xFFFF).
Proof.
  intros Hev. rewrite pe_checksum_spec, join_blobs_single, Hev.
  pose proof (checksum_untruncated_bounds buf) as Hb.
  unfold checksum_untruncated in *. rewrite <- sum_words_le in *.
  rewrite fold16_closed in * by apply sum_words_le_nonneg. split.
  - f_equal. lia.
  - intros v Hv. injection Hv as <-. lia.
Qed.

Lemma pe_checksum_closed_form_witness :
  pe_checksum [[x34; x12; xff; xff; x02; x00]] = Ok (6 + 0x1236).
Proof.
  destruct (pe_checksum_closed_form [x34; x12; xff; xff; x02; x00] eq_refl) as [H _].
  rewrite H. reflexivity.
Defined.

(** ** Signature and trailer *)

(** The statement of the theorem that follows, as a lemma for the proofs
    further down. *)
Lemma has_signature_cases (self : _PeFile) :
  has_signature self
  = Ok (match _data_directories self !! 4%nat with
        | Some dd => negb (DataDirectory.VirtualAddress dd =? 0)
        | None => false
        end) /\
  (forall b, has_directory IMAGE_DIRECTORY_ENTRY_SECURITY self = Ok b ->
             has_signature self = Ok b).
Proof.
  assert (H : has_signature self
              = Ok (match _data_directories self !! 4%nat with
                    | Some dd => negb (DataDirectory.VirtualAddress dd =? 0)
                    | None => false
                    end)).
  { unfold has_signature, IMAGE_DIRECTORY_ENTRY_SECURITY.
    destruct (_data_directories self !! 4%nat) as [dd|] eqn:Hdd.
    - pose proof (lookup_lt_Some _ _ _ Hdd) as Hlt.
      replace (4 <? len (_data_directories self)) with true
        by (symmetry; apply Z.ltb_lt; unfold len; lia).
      rewrite (py_getitem_in_range _ 4 dd) by (try lia; exact Hdd). reflexivity.
    - apply lookup_ge_None in Hdd.
      replace (4 <? len (_data_directories self)) with false
        by (symmetry; apply Z.ltb_ge; unfold len; lia).
      reflexivity. }
  split; [exact H|]. intros b Hb. rewrite H.
  unfold has_directory, IMAGE_DIRECTORY_ENTRY_SECURITY in Hb.
  destruct (_data_directories self !! 4%nat) as [dd|] eqn:Hdd.
  - pose proof (lookup_lt_Some _ _ _ Hdd) as Hlt.
    replace (len (_data_directories self) <? 4) with false in Hb
      by (symmetry; apply Z.ltb_ge; unfold len; lia).
    rewrite (py_getitem_in_range _ 4 dd) in Hb by (try lia; exact Hdd). exact Hb.
  - apply lookup_ge_None in Hdd.
    destruct (len (_data_directories self) <? 4) eqn:E; [exact Hb|].
    apply Z.ltb_ge in E. unfold py_getitem in Hb.
    replace (len (_data_directories self)) with 4 in Hb by (unfold len in *; lia).
    rewrite py_index_len in Hb by lia. discriminate Hb.
Qed.

(** [has_signature] never raises: its guard [len(...) > 4] is the right
    one, and it looks at the address of the entry only. *)
Theorem has_signature_total (self : _PeFile) :
  has_signature self
  = Ok (match _data_directories self !! 4%nat with
        | Some dd => negb (DataDirectory.VirtualAddress dd =? 0)
        | None => false
        end) /\
  (forall b, has_directory IMAGE_DIRECTORY_ENTRY_SECURITY self = Ok b ->
             has_signature self = Ok b).
Proof.
  assert (H : has_signature self
              = Ok (match _data_directories self !! 4%nat with
                    | Some dd => negb (DataDirectory.VirtualAddress dd =? 0)
                    | None => false
                    end)).
  { unfold has_signature, IMAGE_DIRECTORY_ENTRY_SECURITY.
    destruct (_data_directories self !! 4%nat) as [dd|] eqn:Hdd.
    - pose proof (lookup_lt_Some _ _ _ Hdd) as Hlt.
      replace (4 <? len (_data_directories self)) with true
        by (symmetry; apply Z.ltb_lt; unfold len; lia).
      rewrite (py_getitem_in_range _ 4 dd) by (try lia; exact Hdd). reflexivity.
    - apply lookup_ge_None in Hdd.
      replace (4 <? len (_data_directories self)) with false
        by (symmetry; apply Z.ltb_ge; unfold len; lia).
      reflexivity. }
  split; [exact H|]. intros b Hb. rewrite H.
  unfold has_directory, IMAGE_DIRECTORY_ENTRY_SECURITY in Hb.
  destruct (_data_directories self !! 4%nat) as [dd|] eqn:Hdd.
  - pose proof (lookup_lt_Some _ _ _ Hdd) as Hlt.
    replace (len (_data_directories self) <? 4) with false in Hb
      by (symmetry; apply Z.ltb_ge; unfold len; lia).
    rewrite (py_getitem_in_range _ 4 dd) in Hb by (try lia; exact Hdd). exact Hb.
  - apply lookup_ge_None in Hdd.
    destruct (len (_data_directories self) <? 4) eqn:E; [exact Hb|].
    apply Z.ltb_ge in E. unfold py_getitem in Hb.
    replace (len (_data_directories self)) with 4 in Hb by (unfold len in *; lia).
    rewrite py_index_len in Hb by lia. discriminate Hb.
Qed.

(** Without a security entry [remove_signature] changes nothing: it
    returns, or raises [IndexError] when there are exactly four entries. *)
Lemma remove_signature_no_entry (self : _PeFile) :
  _data_directories self !! 4%nat = None ->
  remove_signature self = (Ok tt, self) \/
  (len (_data_directories self) = 4 /\ remove_signature self = (Raise IndexError, self)).
Proof.
  intros Hdd. apply lookup_ge_None in Hdd.
  unfold remove_signature, mbind, mget, mlift, mret.
  destruct (len (_data_directories self) <? IMAGE_DIRECTORY_ENTRY_SECURITY) eqn:E;
    [left; reflexivity|].
  apply Z.ltb_ge in E. unfold IMAGE_DIRECTORY_ENTRY_SECURITY in *.
  assert (Hlen : len (_data_directories self) = 4) by (unfold len in *; lia).
  rewrite Hlen. right. split; reflexivity.
Qed.

(** A [remove_signature] that raises leaves the image as it was. *)
Lemma remove_signature_raise_unchanged (self self' : _PeFile) (e : exn) :
  remove_signature self = (Raise e, self') -> self' = self.
Proof.
  destruct (_data_directories self !! 4%nat) as [dd|] eqn:Hdd.
  - rewrite (remove_signature_entry _ _ Hdd).
    destruct (DataDirectory.Size dd =? 0); [discriminate|].
    destruct (negb _); [congruence|].
    destruct (DataDirectory.VirtualAddress dd <? _trailer_offset self); congruence.
  - destruct (remove_signature_no_entry _ Hdd) as [H|[_ H]]; rewrite H; congruence.
Qed.

(** A [remove_signature] that returns leaves sections and headers alone. *)
Lemma remove_signature_frame (self self' : _PeFile) :
  remove_signature self = (Ok tt, self') ->
  _sections self' = _sections self /\ _opt_header self' = _opt_header self /\
  _trailer_offset self' = _trailer_offset self /\
  length (_data_directories self') = length (_data_directories self).
Proof.
  destruct (_data_directories self !! 4%nat) as [dd|] eqn:Hdd.
  - rewrite (remove_signature_entry _ _ Hdd).
    destruct (DataDirectory.Size dd =? 0); [intros H; injection H as <-; auto|].
    destruct (negb _); [discriminate|].
    destruct (DataDirectory.VirtualAddress dd <? _trailer_offset self); [discriminate|].
    intros H; injection H as <-. cbn. rewrite !length_alter. auto.
  - destruct (remove_signature_no_entry _ Hdd) as [H|[_ H]]; rewrite H;
      [intros H'; injection H' as <-; auto | discriminate].
Qed.



(** [remove_trailer] raises exactly when [remove_signature] does, and
    then nothing has changed, the trailer included; otherwise the trailer
    is empty afterwards and the sections and headers are as they were. *)
Theorem remove_trailer_outcome (self : _PeFile) :
  (exists e, remove_signature self = (Raise e, self) /\
             remove_trailer self = (Raise e, self)) \/
  (exists self1 self',
      remove_signature self = (Ok tt, self1) /\
      remove_trailer self = (Ok tt, self') /\
      _trailer self' = [] /\ has_trailer self' = false /\
      _data_directories self' = _data_directories self1 /\
      _sections self' = _sections self /\
      _opt_header self' = _opt_header self).
Proof.
  unfold remove_trailer, mbind, mmodify.
  destruct (remove_signature self) as [[[]|e] self1] eqn:Hrs.
  - right. exists self1, (set_trailer [] self1).
    destruct (remove_signature_frame _ _ Hrs) as (Hs & Ho & _).
    repeat split; try reflexivity; assumption.
  - left. exists e. rewrite (remove_signature_raise_unchanged _ _ _ Hrs). auto.
Qed.

(** [has_signature] looks at the address of the security entry and
    [remove_signature] at its size: an entry with an address and size
    zero survives [remove_trailer], which still empties the trailer. *)
Theorem remove_trailer_keeps_empty_signature (self : _PeFile) (dd : DataDirectory.t) :
  _data_directories self !! 4%nat = Some dd ->
  DataDirectory.Size dd = 0 ->
  DataDirectory.VirtualAddress dd <> 0 ->
  has_signature self = Ok true /\
  remove_trailer self = (Ok tt, set_trailer [] self) /\
  has_signature (set_trailer [] self) = Ok true /\
  has_trailer (set_trailer [] self) = false.
Proof.
  intros Hdd Hsize Hva.
  assert (Hsig : forall tr, has_signature (set_trailer tr self) = Ok true).
  { intros tr. destruct (has_signature_cases (set_trailer tr self)) as [H _].
    rewrite H. cbn. rewrite Hdd. apply Z.eqb_neq in Hva. rewrite Hva. reflexivity. }
  split.
  - destruct (has_signature_cases self) as [H _]. rewrite H, Hdd.
    apply Z.eqb_neq in Hva. rewrite Hva. reflexivity.
  - split; [|split; [apply Hsig | reflexivity]].
    unfold remove_trailer, mbind, mmodify.
    rewrite (remove_signature_entry _ _ Hdd), Hsize. reflexivity.
Qed.

Lemma remove_trailer_keeps_empty_signature_witness :
  let self :=
    set_data_directories
      (<[4%nat := DataDirectory.mk 0x600 0]> (_data_directories (sample_image false)))
      (sample_image false) in
  has_signature self = Ok true /\
  remove_trailer self = (Ok tt, set_trailer [] self) /\
  has_signature (set_trailer [] self) = Ok true /\
  has_trailer (set_trailer [] self) = false.
Proof.
  intros self.
  apply (remove_trailer_keeps_empty_signature self (DataDirectory.mk 0x600 0)).
  - reflexivity.
  - reflexivity.
  - vm_compute. discriminate.
Defined.

(** ** Directory lookups *)

(** The statement of the theorem that follows, as a lemma for the proofs
    further down. *)
Lemma find_directory_cases (self : _PeFile) (idx : Z) (k : nat)
    (dd : DataDirectory.t) :
  py_index (len (_data_directories self)) idx = Ok k ->
  _data_directories self !! k = Some dd ->
  has_directory idx self = Ok (negb (DataDirectory.VirtualAddress dd =? 0)) /\
  find_directory idx self
  = Ok (if DataDirectory.VirtualAddress dd =? 0 then None
        else Some (mk_slice (DataDirectory.VirtualAddress dd)
                     (DataDirectory.VirtualAddress dd + DataDirectory.Size dd))) /\
  (k = Z.to_nat (if idx <? 0 then len (_data_directories self) + idx else idx)).
Proof.
  intros Hk Hdd. unfold has_directory, find_directory.
  assert (Hidx : idx < len (_data_directories self) /\
                 k = Z.to_nat (if idx <? 0 then len (_data_directories self) + idx else idx)).
  { unfold py_index in Hk.
    destruct ((0 <=? idx) && (idx <? len (_data_directories self))) eqn:E.
    - apply andb_prop in E as [E0 E1]. apply Z.leb_le in E0. apply Z.ltb_lt in E1.
      injection Hk as <-.
      replace (idx <? 0) with false by (symmetry; apply Z.ltb_ge; lia). auto.
    - destruct ((- len (_data_directories self) <=? idx) && (idx <? 0)) eqn:E';
        [|discriminate].
      apply andb_prop in E' as [_ E1]. rewrite E1. apply Z.ltb_lt in E1.
      injection Hk as <-. pose proof (len_nonneg (_data_directories self)). split; [lia|auto]. }
  destruct Hidx as [Hlt Hkeq].
  replace (len (_data_directories self) <? idx) with false
    by (symmetry; apply Z.ltb_ge; lia).
  rewrite (py_getitem_index _ _ _ _ Hk Hdd). cbn [rbind].
  split; [reflexivity|]. split; [|exact Hkeq].
  destruct (DataDirectory.VirtualAddress dd =? 0); reflexivity.
Qed.

(** For an index that Python accepts, [has_directory] and
    [find_directory] agree: the directory is present exactly when its
    address is not zero, and then the range found is
    [VirtualAddress, VirtualAddress + Size). A negative index counts from
    the end. *)
Theorem find_directory_has_directory (self : _PeFile) (idx : Z) (k : nat)
    (dd : DataDirectory.t) :
  py_index (len (_data_directories self)) idx = Ok k ->
  _data_directories self !! k = Some dd ->
  has_directory idx self = Ok (negb (DataDirectory.VirtualAddress dd =? 0)) /\
  find_directory idx self
  = Ok (if DataDirectory.VirtualAddress dd =? 0 then None
        else Some (mk_slice (DataDirectory.VirtualAddress dd)
                     (DataDirectory.VirtualAddress dd + DataDirectory.Size dd))) /\
  (k = Z.to_nat (if idx <? 0 then len (_data_directories self) + idx else idx)).
Proof.
  intros Hk Hdd. unfold has_directory, find_directory.
  assert (Hidx : idx < len (_data_directories self) /\
                 k = Z.to_nat (if idx <? 0 then len (_data_directories self) + idx else idx)).
  { unfold py_index in Hk.
    destruct ((0 <=? idx) && (idx <? len (_data_directories self))) eqn:E.
    - apply andb_prop in E as [E0 E1]. apply Z.leb_le in E0. apply Z.ltb_lt in E1.
      injection Hk as <-.
      replace (idx <? 0) with false by (symmetry; apply Z.ltb_ge; lia). auto.
    - destruct ((- len (_data_directories self) <=? idx) && (idx <? 0)) eqn:E';
        [|discriminate].
      apply andb_prop in E' as [_ E1]. rewrite E1. apply Z.ltb_lt in E1.
      injection Hk as <-. pose proof (len_nonneg (_data_directories self)). split; [lia|auto]. }
  destruct Hidx as [Hlt Hkeq].
  replace (len (_data_directories self) <? idx) with false
    by (symmetry; apply Z.ltb_ge; lia).
  rewrite (py_getitem_index _ _ _ _ Hk Hdd). cbn [rbind].
  split; [reflexivity|]. split; [|exact Hkeq].
  destruct (DataDirectory.VirtualAddress dd =? 0); reflexivity.
Qed.

Lemma find_directory_has_directory_witness :
  has_directory (-12) (sample_image true) = Ok true /\
  find_directory (-12) (sample_image true) = Ok (Some (mk_slice 0x600 0x608)).
Proof.
  destruct (find_directory_has_directory (sample_image true) (-12) 4%nat
              (DataDirectory.mk 0x600 8) eq_refl eq_refl) as (H1 & H2 & _).
  split; [exact H1 | exact H2].
Defined.

(** ** Directories without a section *)

Lemma get_directory_section_from_none (secs : list _PeSection) :
  forall (base : nat) (start stop : Z),
    (forall sec, In sec secs ->
       ~ (sec_VirtualAddress sec = start /\
          sec_VirtualAddress sec + sec_VirtualSize sec = stop)) ->
    get_directory_section_from base secs start stop = None.
Proof.
  induction secs as [|s secs IH]; intros base start stop Hno; [reflexivity|].
  cbn [get_directory_section_from].
  destruct ((sec_VirtualAddress s =? start)
            && (stop <=? sec_VirtualAddress s + sec_VirtualSize s)
            && (sec_VirtualAddress s + sec_VirtualSize s =? stop)) eqn:E.
  - exfalso. apply andb_prop in E as [E E2]. apply andb_prop in E as [E1 _].
    apply Z.eqb_eq in E1, E2. apply (Hno s); [left; reflexivity | split; assumption].
  - apply IH. intros sec Hin. apply Hno. right. exact Hin.
Qed.

(** A directory that is not exactly the virtual range of a section is
    neither resized nor replaced: [resize_directory] and [set_directory]
    raise and the image, the section data included, stays as it was. An
    index that Python rejects raises [IndexError] in the same way. *)
Theorem resize_directory_unassociated (self : _PeFile) (idx size : Z)
    (blob : list byte) :
  (forall k dd,
     py_index (len (_data_directories self)) idx = Ok k ->
     _data_directories self !! k = Some dd ->
     forall sec, In sec (_sections self) -> ~ directory_matches dd sec) ->
  exists e,
    resize_directory idx size self = (Raise e, self) /\
    set_directory idx blob self = (Raise e, self) /\
    (e = IndexError \/
     e = RuntimeError "can't modify a directory that is not associated with a section").
Proof.
  intros Hno.
  unfold set_directory, resize_directory, _resize_directory,
    mbind, mget, mlift, mraise, mret.
  unfold py_getitem.
  destruct (py_index (len (_data_directories self)) idx) as [k|e] eqn:Hk.
  - cbn [rbind]. destruct (_data_directories self !! k) as [dd|] eqn:Hdd.
    + unfold _get_directory_section.
      rewrite get_directory_section_from_none.
      * eexists. split; [reflexivity|]. split; [reflexivity|]. right. reflexivity.
      * intros sec Hin. apply (Hno k dd eq_refl Hdd sec Hin).
    + eexists. split; [reflexivity|]. split; [reflexivity|]. left. reflexivity.
  - exists e. split; [reflexivity|]. split; [reflexivity|].
    left. unfold py_index in Hk.
    destruct ((0 <=? idx) && (idx <? len (_data_directories self))); [discriminate|].
    destruct ((- len (_data_directories self) <=? idx) && (idx <? 0)); [discriminate|].
    injection Hk as <-. reflexivity.
Qed.

Lemma resize_directory_unassociated_witness :
  resize_directory IMAGE_DIRECTORY_ENTRY_SECURITY 4 (sample_image true)
  = (Raise (RuntimeError "can't modify a directory that is not associated with a section"),
     sample_image true) /\
  resize_directory 16 4 (sample_image true) = (Raise IndexError, sample_image true).
Proof.
  split.
  - destruct (resize_directory_unassociated (sample_image true)
                IMAGE_DIRECTORY_ENTRY_SECURITY 4 []) as (e & H & _ & He).
    + intros k dd Hk Hdd sec Hin.
      vm_compute in Hk. injection Hk as <-. vm_compute in Hdd. injection Hdd as <-.
      intros [Hva _]. simpl in Hin.
      destruct Hin as [<-|[<-|[<-|[]]]]; vm_compute in Hva; discriminate Hva.
    + rewrite H. destruct He as [->| ->]; [|reflexivity].
      vm_compute in H. discriminate H.
  - destruct (resize_directory_unassociated (sample_image true) 16 4 []) as (e & H & _ & He).
    + intros k dd Hk. vm_compute in Hk. discriminate Hk.
    + rewrite H. destruct He as [->| ->]; [reflexivity|].
      vm_compute in H. discriminate H.
Defined.

(** Whenever [resize_directory] or [set_directory] raises, the image is
    as it was before the call. *)
Theorem resize_directory_raise_unchanged (self : _PeFile) (idx size : Z)
    (blob : list byte) :
  (forall e self', resize_directory idx size self = (Raise e, self') -> self' = self) /\
  (forall e self', set_directory idx blob self = (Raise e, self') -> self' = self).
Proof.
  assert (H : forall size e self',
             _resize_directory idx size self = (Raise e, self') -> self' = self).
  { clear size. intros size e self'.
    unfold _resize_directory, mbind, mget, mlift, mraise, mmodify, mret.
    destruct (py_index _ idx) as [k|]; [|congruence].
    destruct (py_getitem (_data_directories self) idx) as [dd|]; [|congruence].
    destruct (_get_directory_section self _ _) as [sec_idx|]; [|congruence].
    destruct (py_getitem (_sections self) (Z.of_nat sec_idx)) as [sec|]; [|congruence].
    destruct (size <=? sec_VirtualSize sec); [discriminate|].
    destruct (_find_vm_hole self _ size) as [sl|]; [discriminate | congruence]. }
  split; intros e self'.
  - unfold resize_directory, mbind, mret.
    destruct (_resize_directory idx size self) as [[r|e'] s] eqn:E; [discriminate|].
    intros H'. injection H' as <- <-. eapply H, E.
  - unfold set_directory, mbind, mmodify.
    destruct (_resize_directory idx (len blob) self) as [[r|e'] s] eqn:E; [discriminate|].
    intros H'. injection H' as <- <-. eapply H, E.
Qed.

(** ** [get_vm] *)

Lemma get_vm_from_first (secs : list _PeSection) :
  forall (i : nat) (sec : _PeSection) (start stop : Z),
    secs !! i = Some sec ->
    vm_covers sec start stop ->
    (forall j sec', (j < i)%nat -> secs !! j = Some sec' -> ~ vm_covers sec' start stop) ->
    get_vm_from secs start stop =
    match data sec with
    | None => Raise TypeError
    | Some d =>
        let sec_offs := start - sec_VirtualAddress sec in
        let init_size := Z.min (sec_SizeOfRawData sec - sec_offs) (stop - start) in
        Ok (Some (py_slice d (Some sec_offs) (Some (sec_offs + init_size))
                  ++ PadBlob (stop - start - init_size)))
    end.
Proof.
  induction secs as [|s secs IH]; intros i sec start stop Hi Hcov Hfirst; [discriminate|].
  cbn [get_vm_from]. destruct i as [|i].
  - injection Hi as ->. destruct Hcov as [H1 H2].
    apply Z.leb_le in H1, H2. rewrite H1, H2. reflexivity.
  - destruct ((sec_VirtualAddress s <=? start)
              && (stop <=? sec_VirtualAddress s + sec_VirtualSize s)) eqn:E.
    + exfalso. apply andb_prop in E as [E1 E2]. apply Z.leb_le in E1, E2.
      apply (Hfirst 0%nat s); [lia | reflexivity | split; assumption].
    + apply (IH i); [exact Hi | exact Hcov|].
      intros j sec' Hj Hl. apply (Hfirst (S j)); [lia | exact Hl].
Qed.

Lemma py_slice_nonneg {A} (l : list A) (a b : Z) :
  0 <= a -> 0 <= b ->
  py_slice l (Some a) (Some b) = take (Z.to_nat b - Z.to_nat a) (drop (Z.to_nat a) l).
Proof.
  intros Ha Hb. unfold py_slice, py_clamp.
  replace (a <? 0) with false by (symmetry; apply Z.ltb_ge; lia).
  replace (b <? 0) with false by (symmetry; apply Z.ltb_ge; lia).
  unfold len. apply list_eq. intros i.
  destruct (Z.le_gt_cases a (Z.of_nat (length l))) as [Hal|Hal].
  - rewrite (Z.min_l a) by lia.
    destruct (Z.le_gt_cases b (Z.of_nat (length l))) as [Hbl|Hbl].
    + rewrite Z.min_l by lia. f_equal. f_equal. lia.
    + rewrite Z.min_r by lia.
      rewrite !take_ge by (rewrite length_drop; lia). reflexivity.
  - rewrite (Z.min_r a) by lia. rewrite !drop_ge by lia. rewrite !take_nil. reflexivity.
Qed.

(** The statement of the theorem that follows, as a lemma for the proofs
    further down. *)
Lemma get_vm_run (self : _PeFile) (i : nat) (sec : _PeSection)
    (d : list byte) (start stop : Z) :
  _sections self !! i = Some sec ->
  vm_covers sec start stop ->
  (forall j sec', (j < i)%nat -> _sections self !! j = Some sec' ->
     ~ vm_covers sec' start stop) ->
  data sec = Some d ->
  start <= stop ->
  start - sec_VirtualAddress sec <= sec_SizeOfRawData sec ->
  Z.min (sec_SizeOfRawData sec) (stop - sec_VirtualAddress sec) <= len d ->
  exists bytes,
    get_vm self start stop = Ok (Some bytes) /\
    len bytes = stop - start /\
    bytes = vm_image d (sec_SizeOfRawData sec) (start - sec_VirtualAddress sec)
              (stop - start).
Proof.
  intros Hi Hcov Hfirst Hd Hle Hoffs Hraw.
  unfold get_vm. rewrite (get_vm_from_first _ i sec) by assumption.
  rewrite Hd. cbv zeta. destruct Hcov as [Hva _].
  replace (stop - sec_VirtualAddress sec)
    with (start - sec_VirtualAddress sec + (stop - start)) in Hraw by lia.
  set (o := start - sec_VirtualAddress sec) in *.
  set (S := sec_SizeOfRawData sec) in *.
  set (n := stop - start) in *.
  assert (Ho : 0 <= o) by (subst o; lia). assert (Hn : 0 <= n) by (subst n; lia).
  eexists. split; [reflexivity|].
  rewrite py_slice_nonneg by lia. unfold PadBlob, vm_image, len in *.
  assert (Hdrop : drop (Z.to_nat o) (take (Z.to_nat S) d ++ replicate (Z.to_nat (o + n)) x00)
                  = drop (Z.to_nat o) (take (Z.to_nat S) d)
                    ++ replicate (Z.to_nat (o + n)) x00).
  { rewrite drop_app_le by (rewrite length_take; lia). reflexivity. }
  rewrite Hdrop.
  destruct (Z.le_gt_cases n (S - o)) as [Hin|Hin].
  - rewrite (Z.min_r (S - o) n) by lia.
    replace (n - n) with 0 by lia. change (Z.to_nat 0) with 0%nat.
    cbn [replicate]. rewrite app_nil_r.
    replace (Z.to_nat (o + n) - Z.to_nat o)%nat with (Z.to_nat n) by lia. split.
    + rewrite length_take, length_drop. lia.
    + rewrite take_app_le by (rewrite length_drop, length_take; lia).
      rewrite !take_drop_commute, take_take. f_equal. f_equal. lia.
  - rewrite (Z.min_l (S - o) n) by lia.
    replace (o + (S - o)) with S by lia. split.
    + rewrite length_app, length_take, length_drop, length_replicate. lia.
    + rewrite take_app_ge by (rewrite length_drop, length_take; lia).
      rewrite length_drop, length_take, take_replicate.
      rewrite take_drop_commute. f_equal.
      * f_equal. f_equal. lia.
      * f_equal. lia.
Qed.

(** For a range that starts inside the raw data of the first section
    covering it, [get_vm] returns exactly [stop - start] bytes: the raw
    data of the section from offset [start - VirtualAddress], zero-filled
    past [SizeOfRawData]. The data has to reach as far as is read. *)
Theorem get_vm_image (self : _PeFile) (i : nat) (sec : _PeSection)
    (d : list byte) (start stop : Z) :
  _sections self !! i = Some sec ->
  vm_covers sec start stop ->
  (forall j sec', (j < i)%nat -> _sections self !! j = Some sec' ->
     ~ vm_covers sec' start stop) ->
  data sec = Some d ->
  start <= stop ->
  start - sec_VirtualAddress sec <= sec_SizeOfRawData sec ->
  Z.min (sec_SizeOfRawData sec) (stop - sec_VirtualAddress sec) <= len d ->
  exists bytes,
    get_vm self start stop = Ok (Some bytes) /\
    len bytes = stop - start /\
    bytes = vm_image d (sec_SizeOfRawData sec) (start - sec_VirtualAddress sec)
              (stop - start).
Proof.
  intros Hi Hcov Hfirst Hd Hle Hoffs Hraw.
  unfold get_vm. rewrite (get_vm_from_first _ i sec) by assumption.
  rewrite Hd. cbv zeta. destruct Hcov as [Hva _].
  replace (stop - sec_VirtualAddress sec)
    with (start - sec_VirtualAddress sec + (stop - start)) in Hraw by lia.
  set (o := start - sec_VirtualAddress sec) in *.
  set (S := sec_SizeOfRawData sec) in *.
  set (n := stop - start) in *.
  assert (Ho : 0 <= o) by (subst o; lia). assert (Hn : 0 <= n) by (subst n; lia).
  eexists. split; [reflexivity|].
  rewrite py_slice_nonneg by lia. unfold PadBlob, vm_image, len in *.
  assert (Hdrop : drop (Z.to_nat o) (take (Z.to_nat S) d ++ replicate (Z.to_nat (o + n)) x00)
                  = drop (Z.to_nat o) (take (Z.to_nat S) d)
                    ++ replicate (Z.to_nat (o + n)) x00).
  { rewrite drop_app_le by (rewrite length_take; lia). reflexivity. }
  rewrite Hdrop.
  destruct (Z.le_gt_cases n (S - o)) as [Hin|Hin].
  - rewrite (Z.min_r (S - o) n) by lia.
    replace (n - n) with 0 by lia. change (Z.to_nat 0) with 0%nat.
    cbn [replicate]. rewrite app_nil_r.
    replace (Z.to_nat (o + n) - Z.to_nat o)%nat with (Z.to_nat n) by lia. split.
    + rewrite length_take, length_drop. lia.
    + rewrite take_app_le by (rewrite length_drop, length_take; lia).
      rewrite !take_drop_commute, take_take. f_equal. f_equal. lia.
  - rewrite (Z.min_l (S - o) n) by lia.
    replace (o + (S - o)) with S by lia. split.
    + rewrite length_app, length_take, length_drop, length_replicate. lia.
    + rewrite take_app_ge by (rewrite length_drop, length_take; lia).
      rewrite length_drop, length_take, take_replicate.
      rewrite take_drop_commute. f_equal.
      * f_equal. f_equal. lia.
      * f_equal. lia.
Qed.

Lemma get_vm_image_witness :
  exists bytes,
    get_vm (sample_image true) 0x20f8 0x2100 = Ok (Some bytes) /\
    len bytes = 8 /\
    bytes = replicate 8 x11.
Proof.
  destruct (get_vm_image (sample_image true) 1%nat
              (mk_PeSection
                 (SectionHeader.mk [x2e; x69; x64; x61; x74; x61; x00; x00]
                    0x100 0x2000 0x200 0x400 0 0 0 0 0)
                 (Some (replicate 0x200 x11)) None None)
              (replicate 0x200 x11) 0x20f8 0x2100) as (bytes & H & Hl & Hb).
  - reflexivity.
  - split; vm_compute; discriminate.
  - intros j sec' Hj Hsec'. destruct j as [|j]; [|lia].
    injection Hsec' as <-. intros [_ H]. vm_compute in H. apply H. reflexivity.
  - reflexivity.
  - vm_compute. discriminate.
  - vm_compute. discriminate.
  - vm_compute. discriminate.
  - exists bytes. split; [exact H|]. split; [exact Hl|].
    rewrite Hb. vm_compute. reflexivity.
Defined.

(** When the range starts past the raw data of the section covering it,
    [init_size] is negative and [get_vm] returns too many zero bytes: the
    bytes asked for and as many more as the start lies past
    [SizeOfRawData]. *)
Theorem get_vm_past_raw_data (self : _PeFile) (i : nat) (sec : _PeSection)
    (d : list byte) (start stop : Z) :
  _sections self !! i = Some sec ->
  vm_covers sec start stop ->
  (forall j sec', (j < i)%nat -> _sections self !! j = Some sec' ->
     ~ vm_covers sec' start stop) ->
  data sec = Some d ->
  start <= stop ->
  0 <= sec_SizeOfRawData sec < start - sec_VirtualAddress sec ->
  get_vm self start stop
  = Ok (Some (replicate
                (Z.to_nat (stop - start
                           + (start - sec_VirtualAddress sec - sec_SizeOfRawData sec)))
                x00)).
Proof.
  intros Hi Hcov Hfirst Hd Hle [Hraw Hoffs].
  unfold get_vm. rewrite (get_vm_from_first _ i sec) by assumption.
  rewrite Hd. cbv zeta.
  set (o := start - sec_VirtualAddress sec) in *.
  set (S := sec_SizeOfRawData sec) in *.
  rewrite (Z.min_l (S - o)) by lia.
  rewrite py_slice_nonneg by lia.
  replace (Z.to_nat (o + (S - o)) - Z.to_nat o)%nat with 0%nat by lia.
  rewrite take_0. cbn [app]. unfold PadBlob. f_equal. f_equal. f_equal. lia.
Qed.

Lemma get_vm_past_raw_data_witness :
  get_vm
    (set_sections
       [mk_PeSection (SectionHeader.mk [] 0x1000 0x1000 0x200 0x200 0 0 0 0 0)
          (Some (replicate 0x200 xcc)) None None]
       (sample_image false))
    0x1300 0x1310
  = Ok (Some (replicate 0x110 x00)).
Proof.
  apply (get_vm_past_raw_data _ 0%nat
           (mk_PeSection (SectionHeader.mk [] 0x1000 0x1000 0x200 0x200 0 0 0 0 0)
              (Some (replicate 0x200 xcc)) None None)
           (replicate 0x200 xcc) 0x1300 0x1310).
  - reflexivity.
  - split; vm_compute; discriminate.
  - intros j sec' Hj. lia.
  - reflexivity.
  - vm_compute. discriminate.
  - split; vm_compute; [discriminate | reflexivity].
Defined.

(** [get_vm] returns [None] when no section covers the range, and raises
    [TypeError] when the first section covering it has no file backing:
    the memory of such a section is not read as zeros. *)
Theorem get_vm_without_data (self : _PeFile) (start stop : Z) :
  ((forall sec, In sec (_sections self) -> ~ vm_covers sec start stop) ->
   get_vm self start stop = Ok None) /\
  (forall i sec,
     _sections self !! i = Some sec ->
     vm_covers sec start stop ->
     (forall j sec', (j < i)%nat -> _sections self !! j = Some sec' ->
        ~ vm_covers sec' start stop) ->
     data sec = None ->
     get_vm self start stop = Raise TypeError).
Proof.
  split.
  - unfold get_vm. induction (_sections self) as [|s secs IH]; intros Hno; [reflexivity|].
    cbn [get_vm_from].
    destruct ((sec_VirtualAddress s <=? start)
              && (stop <=? sec_VirtualAddress s + sec_VirtualSize s)) eqn:E.
    + exfalso. apply andb_prop in E as [E1 E2]. apply Z.leb_le in E1, E2.
      apply (Hno s); [left; reflexivity | split; assumption].
    + apply IH. intros sec Hin. apply Hno. right. exact Hin.
  - intros i sec Hi Hcov Hfirst Hd. unfold get_vm.
    rewrite (get_vm_from_first _ i sec) by assumption. rewrite Hd. reflexivity.
Qed.

(** On a parsed image, reading memory of a section whose
    [PointerToRawData] is zero raises. *)
Lemma get_vm_without_data_witness :
  get_vm (sample_image true) 0x3000 0x3010 = Raise TypeError /\
  get_vm (sample_image true) 0x5000 0x5010 = Ok None.
Proof.
  destruct (get_vm_without_data (sample_image true) 0x3000 0x3010) as [_ H1].
  destruct (get_vm_without_data (sample_image true) 0x5000 0x5010) as [H2 _].
  split.
  - apply (H1 2%nat (mk_PeSection
                       (SectionHeader.mk [x2e; x62; x73; x73; x00; x00; x00; x00]
                          0x100 0x3000 0 0 0 0 0 0 0) None None None)).
    + reflexivity.
    + split; vm_compute; discriminate.
    + intros j sec' Hj Hsec' [Hc1 Hc2].
      destruct j as [|[|j]]; [| |lia]; injection Hsec' as <-;
        vm_compute in Hc2; apply Hc2; reflexivity.
    + reflexivity.
  - apply H2. intros sec Hin [Hc1 Hc2]. simpl in Hin.
    destruct Hin as [<-|[<-|[<-|[]]]]; vm_compute in Hc2; apply Hc2; reflexivity.
Defined.

(** ** [set_directory] *)

(** The statement of the theorem that follows, as a lemma for the proofs
    further down. *)
Lemma set_directory_run (self : _PeFile) (idx : Z) (blob : list byte)
    (k sec_idx : nat) (dd : DataDirectory.t) (sec : _PeSection) :
  py_index (len (_data_directories self)) idx = Ok k ->
  _data_directories self !! k = Some dd ->
  _sections self !! sec_idx = Some sec ->
  directory_matches dd sec ->
  (forall j sec', (j < sec_idx)%nat -> _sections self !! j = Some sec' ->
     ~ directory_matches dd sec') ->
  len blob <= sec_VirtualSize sec ->
  exists self',
    set_directory idx blob self = (Ok tt, self') /\
    _sections self'
    = <[sec_idx :=
          mk_PeSection (SectionHeader.set_VirtualSize (len blob) (hdr sec))
            (Some blob) (attr_VirtualAddress sec) (attr_VirtualSize sec)]>
        (_sections self) /\
    _data_directories self'
    = <[k := DataDirectory.mk (DataDirectory.VirtualAddress dd) (len blob)]>
        (_data_directories self) /\
    _trailer self' = _trailer self /\ _opt_header self' = _opt_header self.
Proof.
  intros Hk Hdd Hlook [Hva Hend] Hfirst Hle.
  assert (Hsec : _get_directory_section self (DataDirectory.VirtualAddress dd)
                   (DataDirectory.VirtualAddress dd + DataDirectory.Size dd)
                 = Some sec_idx).
  { unfold _get_directory_section.
    rewrite (get_directory_section_from_first _ 0 sec_idx sec); auto. }
  pose proof (resize_directory_shrink_run _ _ _ _ _ _ _ Hk Hdd Hsec Hlook Hle) as Hrun.
  unfold set_directory, mbind, mmodify.
  unfold resize_directory, mbind, mret in Hrun.
  destruct (_resize_directory idx (len blob) self) as [[r|e] s] eqn:E;
    [|discriminate Hrun].
  assert (Hr : r.1 = sec_idx).
  { revert E. unfold _resize_directory, mbind, mget, mlift, mraise, mmodify, mret.
    rewrite Hk, (py_getitem_index _ _ _ _ Hk Hdd), Hsec.
    rewrite (py_getitem_in_range _ (Z.of_nat sec_idx) sec)
      by (rewrite ?Nat2Z.id; first [lia | exact Hlook]).
    replace (len blob <=? sec_VirtualSize sec) with true by (symmetry; apply Z.leb_le; lia).
    intros H. injection H as <- _. reflexivity. }
  injection Hrun as _ ->. rewrite Hr.
  eexists. split; [reflexivity|]. cbn.
  split; [|split; [|split; reflexivity]].
  - apply list_eq. intros i. destruct (decide (i = sec_idx)) as [->|Hne].
    + rewrite !list_lookup_alter_eq, Hlook.
      rewrite list_lookup_insert_eq by (eapply lookup_lt_Some; exact Hlook). reflexivity.
    + rewrite !list_lookup_alter_ne, list_lookup_insert_ne by congruence. reflexivity.
  - apply list_eq. intros i. destruct (decide (i = k)) as [->|Hne].
    + rewrite list_lookup_alter_eq, Hdd.
      rewrite list_lookup_insert_eq by (eapply lookup_lt_Some; exact Hdd). reflexivity.
    + rewrite list_lookup_alter_ne, list_lookup_insert_ne by congruence. reflexivity.
Qed.

(** When the new contents fit the virtual size of the section behind the
    directory, [set_directory] replaces the data of that section and sets
    its virtual size and the size of the directory to the length of the
    contents. The raw pointer and raw size of the section keep their old
    values until [store], and no other section or directory changes. *)
Theorem set_directory_shrink (self : _PeFile) (idx : Z) (blob : list byte)
    (k sec_idx : nat) (dd : DataDirectory.t) (sec : _PeSection) :
  py_index (len (_data_directories self)) idx = Ok k ->
  _data_directories self !! k = Some dd ->
  _sections self !! sec_idx = Some sec ->
  directory_matches dd sec ->
  (forall j sec', (j < sec_idx)%nat -> _sections self !! j = Some sec' ->
     ~ directory_matches dd sec') ->
  len blob <= sec_VirtualSize sec ->
  exists self',
    set_directory idx blob self = (Ok tt, self') /\
    _sections self'
    = <[sec_idx :=
          mk_PeSection (SectionHeader.set_VirtualSize (len blob) (hdr sec))
            (Some blob) (attr_VirtualAddress sec) (attr_VirtualSize sec)]>
        (_sections self) /\
    _data_directories self'
    = <[k := DataDirectory.mk (DataDirectory.VirtualAddress dd) (len blob)]>
        (_data_directories self) /\
    _trailer self' = _trailer self /\ _opt_header self' = _opt_header self.
Proof.
  intros Hk Hdd Hlook [Hva Hend] Hfirst Hle.
  assert (Hsec : _get_directory_section self (DataDirectory.VirtualAddress dd)
                   (DataDirectory.VirtualAddress dd + DataDirectory.Size dd)
                 = Some sec_idx).
  { unfold _get_directory_section.
    rewrite (get_directory_section_from_first _ 0 sec_idx sec); auto. }
  pose proof (resize_directory_shrink_run _ _ _ _ _ _ _ Hk Hdd Hsec Hlook Hle) as Hrun.
  unfold set_directory, mbind, mmodify.
  unfold resize_directory, mbind, mret in Hrun.
  destruct (_resize_directory idx (len blob) self) as [[r|e] s] eqn:E;
    [|discriminate Hrun].
  assert (Hr : r.1 = sec_idx).
  { revert E. unfold _resize_directory, mbind, mget, mlift, mraise, mmodify, mret.
    rewrite Hk, (py_getitem_index _ _ _ _ Hk Hdd), Hsec.
    rewrite (py_getitem_in_range _ (Z.of_nat sec_idx) sec)
      by (rewrite ?Nat2Z.id; first [lia | exact Hlook]).
    replace (len blob <=? sec_VirtualSize sec) with true by (symmetry; apply Z.leb_le; lia).
    intros H. injection H as <- _. reflexivity. }
  injection Hrun as _ ->. rewrite Hr.
  eexists. split; [reflexivity|]. cbn.
  split; [|split; [|split; reflexivity]].
  - apply list_eq. intros i. destruct (decide (i = sec_idx)) as [->|Hne].
    + rewrite !list_lookup_alter_eq, Hlook.
      rewrite list_lookup_insert_eq by (eapply lookup_lt_Some; exact Hlook). reflexivity.
    + rewrite !list_lookup_alter_ne, list_lookup_insert_ne by congruence. reflexivity.
  - apply list_eq. intros i. destruct (decide (i = k)) as [->|Hne].
    + rewrite list_lookup_alter_eq, Hdd.
      rewrite list_lookup_insert_eq by (eapply lookup_lt_Some; exact Hdd). reflexivity.
    + rewrite list_lookup_alter_ne, list_lookup_insert_ne by congruence. reflexivity.
Qed.

Lemma set_directory_shrink_witness :
  exists self',
    set_directory IMAGE_DIRECTORY_ENTRY_IMPORT [x01; x02; x03] (sample_image true)
    = (Ok tt, self') /\
    map data (_sections self')
    = [Some (replicate 0x200 xcc); Some [x01; x02; x03]; None] /\
    map sec_VirtualSize (_sections self') = [0x100; 3; 0x100] /\
    map sec_SizeOfRawData (_sections self') = [0x200; 0x200; 0] /\
    _data_directories self' !! 1%nat = Some (DataDirectory.mk 0x2000 3).
Proof.
  destruct (set_directory_shrink (sample_image true) IMAGE_DIRECTORY_ENTRY_IMPORT
              [x01; x02; x03] 1%nat 1%nat (DataDirectory.mk 0x2000 0x100)
              (mk_PeSection
                 (SectionHeader.mk [x2e; x69; x64; x61; x74; x61; x00; x00]
                    0x100 0x2000 0x200 0x400 0 0 0 0 0)
                 (Some (replicate 0x200 x11)) None None))
    as (self' & Hrun & Hsecs & Hdds & _).
  - reflexivity.
  - reflexivity.
  - reflexivity.
  - split; reflexivity.
  - intros j sec' Hj Hsec'. destruct j as [|j]; [|lia].
    injection Hsec' as <-. vm_compute. intros [H _]. discriminate H.
  - vm_compute. discriminate.
  - exists self'. split; [exact Hrun|]. rewrite Hsecs, Hdds.
    repeat split; reflexivity.
Defined.

(** What [set_directory] has put in place is what [get_vm] then gives
    back: when the section of the directory is the first that matches it,
    no earlier section covers the new range and the new contents are not
    longer than the virtual size and the raw size the section had,
    [get_vm] of the new range returns the contents. [find_directory]
    returns that range when the address of the directory is not zero, and
    [None] when it is zero. *)
Theorem set_directory_get_vm (self : _PeFile) (idx : Z) (blob : list byte)
    (k sec_idx : nat) (dd : DataDirectory.t) (sec : _PeSection) :
  py_index (len (_data_directories self)) idx = Ok k ->
  _data_directories self !! k = Some dd ->
  _sections self !! sec_idx = Some sec ->
  directory_matches dd sec ->
  (forall j sec', (j < sec_idx)%nat -> _sections self !! j = Some sec' ->
     ~ directory_matches dd sec' /\
     ~ vm_covers sec' (DataDirectory.VirtualAddress dd)
         (DataDirectory.VirtualAddress dd + len blob)) ->
  len blob <= sec_VirtualSize sec ->
  len blob <= sec_SizeOfRawData sec ->
  exists self',
    set_directory idx blob self = (Ok tt, self') /\
    get_vm self' (DataDirectory.VirtualAddress dd)
      (DataDirectory.VirtualAddress dd + len blob) = Ok (Some blob) /\
    find_directory idx self'
    = Ok (if DataDirectory.VirtualAddress dd =? 0 then None
          else Some (mk_slice (DataDirectory.VirtualAddress dd)
                       (DataDirectory.VirtualAddress dd + len blob))).
Proof.
  intros Hk Hdd Hlook Hmatch Hfirst Hle Hraw.
  destruct (set_directory_run self idx blob k sec_idx dd sec Hk Hdd Hlook Hmatch)
    as (self' & Hrun & Hsecs & Hdds & _); [|exact Hle|].
  { intros j sec' Hj Hl. apply (Hfirst j sec' Hj Hl). }
  exists self'. split; [exact Hrun|].
  pose proof (len_nonneg blob) as Hlen. destruct Hmatch as [Hva _].
  set (sec' := mk_PeSection (SectionHeader.set_VirtualSize (len blob) (hdr sec))
                 (Some blob) (attr_VirtualAddress sec) (attr_VirtualSize sec)) in *.
  assert (Hlook' : _sections self' !! sec_idx = Some sec').
  { rewrite Hsecs. apply list_lookup_insert_eq. eapply lookup_lt_Some; exact Hlook. }
  split.
  - destruct (get_vm_run self' sec_idx sec' blob (DataDirectory.VirtualAddress dd)
                (DataDirectory.VirtualAddress dd + len blob))
      as (bytes & Hget & _ & Hbytes); try assumption; try reflexivity.
    + split; unfold sec_VirtualAddress, sec_VirtualSize in *; cbn in *; lia.
    + intros j s Hj Hs. rewrite Hsecs, list_lookup_insert_ne in Hs by lia.
      apply (Hfirst j s Hj Hs).
    + lia.
    + unfold sec_VirtualAddress, sec_SizeOfRawData in *. cbn in *. lia.
    + unfold sec_VirtualAddress, sec_SizeOfRawData in *. cbn in *. lia.
    + rewrite Hget, Hbytes. f_equal. f_equal. unfold vm_image.
      replace (DataDirectory.VirtualAddress dd - sec_VirtualAddress sec') with 0
        by (unfold sec_VirtualAddress in *; cbn in *; lia).
      replace (DataDirectory.VirtualAddress dd + len blob - DataDirectory.VirtualAddress dd)
        with (len blob) by lia.
      change (Z.to_nat 0) with 0%nat. rewrite drop_0.
      unfold len in *. rewrite Nat2Z.id.
      change (sec_SizeOfRawData sec') with (sec_SizeOfRawData sec).
      rewrite (take_ge blob) by lia.
      apply take_app_length.
  - assert (Hk' : py_index (len (_data_directories self')) idx = Ok k).
    { rewrite Hdds. unfold len in *. rewrite length_insert. exact Hk. }
    destruct (find_directory_cases self' idx k
                (DataDirectory.mk (DataDirectory.VirtualAddress dd) (len blob)) Hk')
      as (_ & H & _).
    + rewrite Hdds. apply list_lookup_insert_eq. eapply lookup_lt_Some; exact Hdd.
    + exact H.
Qed.

Lemma set_directory_get_vm_witness :
  exists self',
    set_directory IMAGE_DIRECTORY_ENTRY_IMPORT [x01; x02; x03] (sample_image true)
    = (Ok tt, self') /\
    get_vm self' 0x2000 0x2003 = Ok (Some [x01; x02; x03]) /\
    find_directory IMAGE_DIRECTORY_ENTRY_IMPORT self' = Ok (Some (mk_slice 0x2000 0x2003)).
Proof.
  apply (set_directory_get_vm (sample_image true) IMAGE_DIRECTORY_ENTRY_IMPORT
           [x01; x02; x03] 1%nat 1%nat (DataDirectory.mk 0x2000 0x100)
           (mk_PeSection
              (SectionHeader.mk [x2e; x69; x64; x61; x74; x61; x00; x00]
                 0x100 0x2000 0x200 0x400 0 0 0 0 0)
              (Some (replicate 0x200 x11)) None None)).
  - reflexivity.
  - reflexivity.
  - reflexivity.
  - split; reflexivity.
  - intros j sec' Hj Hsec'. destruct j as [|j]; [|lia].
    injection Hsec' as <-. split; vm_compute; intros [H H']; try discriminate H.
    apply H'. reflexivity.
  - vm_compute. discriminate.
  - vm_compute. discriminate.
Defined.

(** ** The codec: reading and packing are inverse *)

Lemma byte_of_to_Z (b : byte) : byte_of_Z (byte_to_Z b) = b.
Proof.
  unfold byte_of_Z, byte_to_Z. pose proof (Byte.to_N_bounded b) as Hb.
  rewrite Z.mod_small by lia. rewrite N2Z.id, Byte.of_to_N. reflexivity.
Qed.

Lemma byte_to_of_Z (z : Z) : byte_to_Z (byte_of_Z z) = z mod 256.
Proof.
  unfold byte_of_Z, byte_to_Z.
  pose proof (Z.mod_pos_bound z 256 ltac:(lia)) as Hm.
  destruct (Byte.of_N (Z.to_N (z mod 256))) as [b|] eqn:E.
  - apply Byte.to_of_N in E. rewrite E. lia.
  - apply Byte.of_N_None_iff in E. lia.
Qed.

Lemma length_le_encode (w : nat) (v : Z) : length (le_encode w v) = w.
Proof. revert v. induction w as [|w IH]; intros v; cbn; [reflexivity | rewrite IH; reflexivity]. Qed.

Lemma le_decode_bounds (bs : list byte) :
  0 <= le_decode bs < 2 ^ (8 * Z.of_nat (length bs)).
Proof.
  induction bs as [|b bs IH]; cbn [le_decode length].
  - change (2 ^ (8 * Z.of_nat 0)) with 1. lia.
  - pose proof (byte_to_Z_bounds b).
    replace (8 * Z.of_nat (S (length bs))) with (8 + 8 * Z.of_nat (length bs)) by lia.
    rewrite Z.pow_add_r by lia. change (2 ^ 8) with 256. lia.
Qed.

Lemma byte_of_Z_mod (z : Z) : byte_of_Z (z mod 256) = byte_of_Z z.
Proof. unfold byte_of_Z. rewrite Z.mod_mod by lia. reflexivity. Qed.

Lemma le_encode_decode (bs : list byte) : le_encode (length bs) (le_decode bs) = bs.
Proof.
  induction bs as [|b bs IH]; cbn [le_decode length le_encode]; [reflexivity|].
  pose proof (byte_to_Z_bounds b) as Hb. f_equal.
  - rewrite <- byte_of_Z_mod.
    rewrite (Z.mul_comm 256), Z.mod_add by lia.
    rewrite byte_of_Z_mod. apply byte_of_to_Z.
  - transitivity (le_encode (length bs) (le_decode bs)); [|exact IH]. f_equal.
    rewrite (Z.mul_comm 256), Z.div_add by lia.
    rewrite Z.div_small by lia. lia.
Qed.

Lemma le_decode_encode (w : nat) :
  forall v, 0 <= v < 2 ^ (8 * Z.of_nat w) -> le_decode (le_encode w v) = v.
Proof.
  induction w as [|w IH]; intros v Hv; cbn [le_encode le_decode].
  - change (2 ^ (8 * Z.of_nat 0)) with 1 in Hv. lia.
  - rewrite byte_to_of_Z. rewrite IH.
    + pose proof (Z.div_mod v 256 ltac:(lia)). lia.
    + replace (8 * Z.of_nat (S w)) with (8 + 8 * Z.of_nat w) in Hv by lia.
      rewrite Z.pow_add_r in Hv by lia. change (2 ^ 8) with 256 in Hv.
      split; [apply Z.div_pos; lia|]. apply Z.div_lt_upper_bound; lia.
Qed.

Lemma pack_uint_ok (w : nat) (v : Z) :
  0 <= v < 2 ^ (8 * Z.of_nat w) -> pack_uint w v = Ok (le_encode w v).
Proof.
  intros [H0 H1]. unfold pack_uint.
  apply Z.leb_le in H0. apply Z.ltb_lt in H1. rewrite H0, H1. reflexivity.
Qed.

Lemma pack_uint_inv (w : nat) (v : Z) (bs : list byte) :
  pack_uint w v = Ok bs -> bs = le_encode w v /\ 0 <= v < 2 ^ (8 * Z.of_nat w).
Proof.
  unfold pack_uint. destruct ((0 <=? v) && (v <? 2 ^ (8 * Z.of_nat w))) eqn:E;
    [|discriminate].
  apply andb_prop in E as [E0 E1]. apply Z.leb_le in E0. apply Z.ltb_lt in E1.
  intros H. injection H as <-. auto.
Qed.

(** What was read packs back to the bytes that were read. *)
Lemma read_uint_pack (f : Fmt.t) (fin fin' : stream) (v : Z) :
  read_uint f fin = Ok (v, fin') ->
  pack_uint (Fmt.width f) v = Ok (take (Fmt.width f) fin) /\
  fin = take (Fmt.width f) fin ++ fin' /\
  length (take (Fmt.width f) fin) = Fmt.width f.
Proof.
  unfold read_uint, fin_read.
  destruct (length (take (Fmt.width f) fin) =? Fmt.width f)%nat eqn:E; [|discriminate].
  apply Nat.eqb_eq in E. intros H. injection H as <- <-.
  split; [|split; [symmetry; apply take_drop | exact E]].
  pose proof (le_decode_bounds (take (Fmt.width f) fin)) as Hb.
  pose proof (le_encode_decode (take (Fmt.width f) fin)) as Hed.
  rewrite E in Hb, Hed. rewrite pack_uint_ok by exact Hb. rewrite Hed. reflexivity.
Qed.

Lemma read_fields_pack (l : layout) :
  forall (fin fin' : stream) (vs : list Z),
    read_fields l fin = Ok (vs, fin') ->
    exists bs,
      pack_fields l vs = Ok bs /\ fin = bs ++ fin' /\ len bs = layout_size l /\
      length vs = length l.
Proof.
  induction l as [|[f name] l IH]; intros fin fin' vs H; cbn [read_fields] in H.
  - injection H as <- <-. exists []. repeat split; reflexivity.
  - destruct (read_uint f fin) as [[v fin1]|] eqn:E1; [|discriminate]. cbn in H.
    destruct (read_fields l fin1) as [[vs' fin2]|] eqn:E2; [|discriminate]. cbn in H.
    injection H as <- <-.
    destruct (read_uint_pack _ _ _ _ E1) as (Hp & Hfin & Hlen).
    destruct (IH _ _ _ E2) as (bs & Hbs & Hfin1 & Hl & Hvs).
    exists (take (Fmt.width f) fin ++ bs). cbn [pack_fields].
    rewrite Hp. cbn [rbind]. rewrite Hbs. cbn [rbind].
    repeat split.
    + rewrite <- app_assoc, <- Hfin1. exact Hfin.
    + rewrite len_app. cbn [layout_size fold_right fst]. fold (layout_size l).
      rewrite Hl. unfold len. rewrite Hlen. reflexivity.
    + cbn. rewrite Hvs. reflexivity.
Qed.

Lemma read_uint_app (f : Fmt.t) (v : Z) (bs rest : list byte) :
  pack_uint (Fmt.width f) v = Ok bs -> read_uint f (bs ++ rest) = Ok (v, rest).
Proof.
  intros H. apply pack_uint_inv in H as [-> Hv].
  unfold read_uint, fin_read.
  rewrite take_app_length' by (rewrite length_le_encode; reflexivity).
  rewrite drop_app_length' by (rewrite length_le_encode; reflexivity).
  rewrite length_le_encode, Nat.eqb_refl, le_decode_encode by exact Hv. reflexivity.
Qed.

(** What was packed reads back as the values that were packed. *)
Lemma pack_fields_read (l : layout) :
  forall (vs : list Z) (bs rest : list byte),
    pack_fields l vs = Ok bs -> read_fields l (bs ++ rest) = Ok (vs, rest).
Proof.
  induction l as [|[f name] l IH]; intros vs bs rest H.
  - destruct vs; [|discriminate]. injection H as <-. reflexivity.
  - destruct vs as [|v vs]; [discriminate|]. cbn [pack_fields] in H.
    destruct (pack_uint (Fmt.width f) v) as [b1|] eqn:E1; [|discriminate]. cbn in H.
    destruct (pack_fields l vs) as [b2|] eqn:E2; [|discriminate]. cbn in H.
    injection H as <-. cbn [read_fields]. rewrite <- app_assoc.
    rewrite (read_uint_app _ _ _ _ E1). cbn [rbind snd fst].
    rewrite (IH _ _ _ E2). reflexivity.
Qed.

Lemma pack_fields_len (l : layout) :
  forall (vs : list Z) (bs : list byte),
    pack_fields l vs = Ok bs -> len bs = layout_size l.
Proof.
  intros vs bs H. pose proof (pack_fields_read l vs bs [] H) as Hr.
  destruct (read_fields_pack _ _ _ _ Hr) as (bs' & Hbs' & Happ & Hl & _).
  rewrite !app_nil_r in Happ. subst bs'. exact Hl.
Qed.

(** Whether every value fits the field it is packed into. *)
Lemma pack_fields_fit (l : layout) :
  forall (vs : list Z) (bs : list byte),
    pack_fields l vs = Ok bs ->
    Forall2 (fun f v => 0 <= v < 2 ^ (8 * Z.of_nat (Fmt.width f.1))) l vs.
Proof.
  induction l as [|[f name] l IH]; intros vs bs H.
  - destruct vs; [constructor | discriminate].
  - destruct vs as [|v vs]; [discriminate|]. cbn [pack_fields] in H.
    destruct (pack_uint (Fmt.width f) v) as [b1|] eqn:E1; [|discriminate]. cbn in H.
    destruct (pack_fields l vs) as [b2|] eqn:E2; [|discriminate].
    constructor; [apply (pack_uint_inv _ _ _ E1) | eapply IH; exact E2].
Qed.

Lemma pack_fields_ok (l : layout) :
  forall (vs : list Z),
    Forall2 (fun f v => 0 <= v < 2 ^ (8 * Z.of_nat (Fmt.width f.1))) l vs ->
    exists bs, pack_fields l vs = Ok bs.
Proof.
  induction l as [|[f name] l IH]; intros vs H; inversion H as [|? v ? vs' Hv Hvs]; subst.
  - exists []. reflexivity.
  - destruct (IH _ Hvs) as [bs Hbs]. cbn [pack_fields]. cbn [fst] in Hv.
    rewrite (pack_uint_ok _ _ Hv). cbn [rbind]. rewrite Hbs. cbn [rbind]. eauto.
Qed.

Ltac split_values vs :=
  repeat (let v := fresh "v" in destruct vs as [|v vs]; try discriminate).

Lemma FileHeader_parse_pack (fin fin' : stream) (h : FileHeader.t) :
  FileHeader.parse fin = Ok (h, fin') ->
  exists bs, FileHeader.pack h = Ok bs /\ fin = bs ++ fin' /\ len bs = FileHeader.size.
Proof.
  unfold FileHeader.parse. intros H.
  destruct (read_fields _IMAGE_FILE_HEADER fin) as [[vs fin1]|] eqn:E; [|discriminate].
  cbn [rbind fst snd] in H.
  destruct (read_fields_pack _ _ _ _ E) as (bs & Hbs & Hfin & Hl & _).
  split_values vs. injection H as <- <-. exists bs. auto.
Qed.

Lemma FileHeader_pack_parse (h : FileHeader.t) (bs rest : list byte) :
  FileHeader.pack h = Ok bs -> FileHeader.parse (bs ++ rest) = Ok (h, rest).
Proof.
  unfold FileHeader.pack, FileHeader.parse. intros H.
  rewrite (pack_fields_read _ _ _ rest H). destruct h. reflexivity.
Qed.

Lemma DataDirectory_parse_pack (fin fin' : stream) (dd : DataDirectory.t) :
  DataDirectory.parse fin = Ok (dd, fin') ->
  exists bs, DataDirectory.pack dd = Ok bs /\ fin = bs ++ fin' /\ len bs = DataDirectory.size.
Proof.
  unfold DataDirectory.parse. intros H.
  destruct (read_fields _IMAGE_DATA_DIRECTORY fin) as [[vs fin1]|] eqn:E; [|discriminate].
  cbn [rbind fst snd] in H.
  destruct (read_fields_pack _ _ _ _ E) as (bs & Hbs & Hfin & Hl & _).
  split_values vs. injection H as <- <-. exists bs. auto.
Qed.

Lemma DataDirectory_pack_parse (dd : DataDirectory.t) (bs rest : list byte) :
  DataDirectory.pack dd = Ok bs -> DataDirectory.parse (bs ++ rest) = Ok (dd, rest).
Proof.
  unfold DataDirectory.pack, DataDirectory.parse. intros H.
  rewrite (pack_fields_read _ _ _ rest H). destruct dd. reflexivity.
Qed.

Lemma DataDirectory_pack_len (dd : DataDirectory.t) (bs : list byte) :
  DataDirectory.pack dd = Ok bs -> len bs = DataDirectory.size.
Proof. apply pack_fields_len. Qed.

Lemma SectionHeader_parse_pack (fin fin' : stream) (h : SectionHeader.t) :
  SectionHeader.parse fin = Ok (h, fin') ->
  exists bs,
    SectionHeader.pack h = Ok bs /\ fin = bs ++ fin' /\ len bs = SectionHeader.size /\
    length (SectionHeader.Name h) = 8%nat.
Proof.
  unfold SectionHeader.parse, fin_read. intros H.
  destruct (length (take 8 fin) =? 8)%nat eqn:En; [|discriminate].
  apply Nat.eqb_eq in En.
  destruct (read_fields _IMAGE_SECTION_HEADER_tail (drop 8 fin)) as [[vs fin1]|] eqn:E;
    [|discriminate].
  cbn [rbind fst snd] in H.
  destruct (read_fields_pack _ _ _ _ E) as (bs & Hbs & Hfin & Hl & _).
  split_values vs. injection H as <- <-.
  exists (take 8 fin ++ bs). unfold SectionHeader.pack. cbn -[pack_fields take app].
  rewrite Hbs. cbn [rbind].
  rewrite take_app_length' by (symmetry; exact En).
  repeat split.
  - rewrite <- app_assoc, <- Hfin. symmetry. apply take_drop.
  - rewrite len_app, Hl. unfold len. rewrite En. reflexivity.
  - exact En.
Qed.

Lemma SectionHeader_pack_parse (h : SectionHeader.t) (bs rest : list byte) :
  length (SectionHeader.Name h) = 8%nat ->
  SectionHeader.pack h = Ok bs -> SectionHeader.parse (bs ++ rest) = Ok (h, rest).
Proof.
  unfold SectionHeader.pack, SectionHeader.parse, fin_read. intros Hn H.
  destruct (pack_fields _ _) as [tail|] eqn:E; [|discriminate].
  cbn [rbind] in H. injection H as <-.
  rewrite (take_app_length' (SectionHeader.Name h) _ 8) by (symmetry; exact Hn).
  rewrite <- app_assoc.
  rewrite (take_app_length' (SectionHeader.Name h) _ 8) by (symmetry; exact Hn).
  rewrite (drop_app_length' (SectionHeader.Name h) _ 8) by (symmetry; exact Hn).
  rewrite Hn. cbn [Nat.eqb].
  rewrite (pack_fields_read _ _ _ rest E). destruct h. reflexivity.
Qed.

Lemma SectionHeader_pack_len (h : SectionHeader.t) (bs : list byte) :
  SectionHeader.pack h = Ok bs -> len bs = SectionHeader.size.
Proof.
  unfold SectionHeader.pack. intros H.
  destruct (pack_fields _ _) as [tail|] eqn:E; [|discriminate].
  cbn [rbind] in H. injection H as <-.
  rewrite len_app, (pack_fields_len _ _ _ E). unfold len.
  rewrite length_take, length_app. cbn [length replicate].
  unfold SectionHeader.size, _IMAGE_SECTION_HEADER_size. lia.
Qed.

Lemma OptionalHeader_parse_pack (fin fin' : stream) (h : OptionalHeader.t) (sig : Z) :
  OptionalHeader.parse32 sig fin = Ok (h, fin') \/
  OptionalHeader.parse64 sig fin = Ok (h, fin') ->
  exists bs,
    OptionalHeader.pack h = Ok bs /\ fin = bs ++ fin' /\ len bs = OptionalHeader.size h /\
    OptionalHeader.sig h = sig /\
    (OptionalHeader.BaseOfData h = None <-> OptionalHeader.struct h = OptionalHeader.PE32Plus).
Proof.
  intros [H|H].
  - unfold OptionalHeader.parse32 in H.
    destruct (read_fields _IMAGE_OPTIONAL_HEADER32 fin) as [[vs fin1]|] eqn:E; [|discriminate].
    cbn [rbind fst snd] in H.
    destruct (read_fields_pack _ _ _ _ E) as (bs & Hbs & Hfin & Hl & _).
    split_values vs. injection H as <- <-. exists bs.
    unfold OptionalHeader.pack, OptionalHeader.size. cbn -[pack_fields layout_size].
    repeat split; try assumption; try discriminate.
  - unfold OptionalHeader.parse64 in H.
    destruct (read_fields _IMAGE_OPTIONAL_HEADER64 fin) as [[vs fin1]|] eqn:E; [|discriminate].
    cbn [rbind fst snd] in H.
    destruct (read_fields_pack _ _ _ _ E) as (bs & Hbs & Hfin & Hl & _).
    split_values vs. injection H as <- <-. exists bs.
    unfold OptionalHeader.pack, OptionalHeader.size. cbn -[pack_fields layout_size].
    repeat split; try assumption; try discriminate.
Qed.

(** ** What the parser establishes, in full *)

Lemma bytes_eqb_eq (a b : list byte) : bytes_eqb a b = true -> a = b.
Proof.
  revert b. induction a as [|x a IH]; intros [|y b] H; try discriminate; [reflexivity|].
  cbn in H. apply andb_prop in H as [Hx Ha].
  apply Byte.byte_dec_bl in Hx. subst. f_equal. apply IH, Ha.
Qed.

Lemma bytes_eqb_refl (a : list byte) : bytes_eqb a a = true.
Proof.
  induction a as [|x a IH]; [reflexivity|]. cbn.
  rewrite Byte.byte_dec_lb by reflexivity. exact IH.
Qed.

Lemma init_facts (blob : list byte) (self : _PeFile) :
  __init__ blob = Ok self ->
  exists pe_offs fin_hdr fin_opt fin_dds fin_end last_sec,
    blob_load_H blob 0x3c = Ok pe_offs /\
    take 4 (blob_seek blob pe_offs) = PE_signature /\
    FileHeader.parse (drop 4 (blob_seek blob pe_offs)) = Ok (_file_header self, fin_hdr) /\
    length (take 2 fin_hdr) = 2%nat /\
    (let opt_sig := le_decode (take 2 fin_hdr) in
     (opt_sig = IMAGE_NT_OPTIONAL_HDR32_MAGIC /\
      OptionalHeader.parse32 opt_sig (drop 2 fin_hdr) = Ok (_opt_header self, fin_opt)) \/
     (opt_sig = IMAGE_NT_OPTIONAL_HDR64_MAGIC /\
      OptionalHeader.parse64 opt_sig (drop 2 fin_hdr) = Ok (_opt_header self, fin_opt))) /\
    _checksum_offs self = pe_offs + 4 + FileHeader.size + 4 * 16 /\
    (OptionalHeader.CheckSum (_opt_header self) <> 0 ->
     pe_checksum [ py_slice blob None (Some (_checksum_offs self));
                   [x00; x00; x00; x00];
                   py_slice blob (Some (_checksum_offs self + 4)) None ]
     = Ok (OptionalHeader.CheckSum (_opt_header self))) /\
    OptionalHeader.FileAlignment (_opt_header self) <> 0 /\
    parse_data_directories
      (Z.to_nat (OptionalHeader.NumberOfRvaAndSizes (_opt_header self))) fin_opt
    = Ok (_data_directories self, fin_dds) /\
    parse_sections blob (_opt_header self)
      (Z.to_nat (FileHeader.NumberOfSections (_file_header self))) 0 fin_dds
    = Ok (_sections self, fin_end) /\
    last (present_sections (_sections self)) = Some last_sec /\
    check_holes (present_sections (_sections self)) = Ok tt /\
    _trailer_offset self = sec_PointerToRawData last_sec + sec_SizeOfRawData last_sec /\
    _trailer self = py_slice blob (Some (_trailer_offset self)) None /\
    _dos_stub self = py_slice blob None (Some pe_offs) /\
    _blob self = blob /\
    _check_vm_overlaps self = Ok tt.
Proof.
  intros H. unfold __init__ in H. invert_run H. injection H as <-.
  repeat match goal with u : unit |- _ => destruct u end.
  match goal with
  | Hl : blob_load_H blob 60 = Ok ?pe,
    Hr : fin_read 4 _ = (?sig, ?s),
    Hs : negb (bytes_eqb ?sig PE_signature) = false,
    Hh : FileHeader.parse ?s = Ok (?fh, ?s0),
    Hm : fin_read 2 ?s0 = (?l0, ?s1),
    Hd : parse_data_directories _ ?s2 = Ok (_, ?s3),
    Hp : parse_sections _ _ _ _ _ = Ok ?a5,
    Hlast : last _ = Some ?p |- _ =>
      exists pe, s0, s2, s3, a5.2, p;
      unfold fin_read in Hr, Hm; injection Hr as <- <-; injection Hm as <- <-;
      apply negb_false_iff, bytes_eqb_eq in Hs
  end.
  cbn [_checksum_offs _blob _dos_stub _file_header _opt_header _data_directories
       _sections _trailer_offset _trailer].
  match goal with
  | Hm : (if (length (take 2 ?s0) =? 2)%nat then _ else _) = Ok ?a1 |- _ =>
      destruct (length (take 2 s0) =? 2)%nat eqn:Elen; [|discriminate Hm];
      apply Nat.eqb_eq in Elen; injection Hm as <-
  end.
  repeat match goal with
  | |- _ /\ _ => split
  end; try assumption; try reflexivity.
  - match goal with
    | Ho : (if ?sig =? IMAGE_NT_OPTIONAL_HDR32_MAGIC then _ else _) = Ok _ |- _ =>
        destruct (sig =? IMAGE_NT_OPTIONAL_HDR32_MAGIC) eqn:E32;
        [left; apply Z.eqb_eq in E32; auto|];
        destruct (sig =? IMAGE_NT_OPTIONAL_HDR64_MAGIC) eqn:E64;
        [right; apply Z.eqb_eq in E64; auto | discriminate Ho]
    end.
  - intros Hne.
    match goal with
    | Hc : (if negb (_ =? 0) then _ else _) = Ok tt |- _ =>
        apply Z.eqb_neq in Hne; rewrite Hne in Hc; cbn [negb] in Hc;
        destruct (pe_checksum _) as [c|] eqn:Ec; [|discriminate Hc];
        cbn [rbind] in Hc;
        match type of Hc with
        | (if negb (?x =? c) then _ else _) = _ =>
            destruct (x =? c) eqn:Ex; [|discriminate Hc];
            apply Z.eqb_eq in Ex; rewrite Ex; reflexivity
        end
    end.
  - apply Z.eqb_neq. assumption.
  - match goal with Hp : parse_sections _ _ _ _ _ = Ok ?a5 |- _ =>
      rewrite Hp; destruct a5; reflexivity end.
Qed.

Ltac invert_fit H :=
  repeat match type of H with
  | Forall2 _ (_ :: _) (_ :: _) =>
      let Hv := fresh "Hfit" in
      let H' := fresh "H" in
      apply Forall2_cons_1 in H as [Hv H']; cbn [fst Fmt.width] in Hv;
      invert_fit H'
  end.

Lemma SectionHeader_fit (h : SectionHeader.t) (bs : list byte) :
  SectionHeader.pack h = Ok bs ->
  0 <= SectionHeader.VirtualSize h < 2 ^ 32 /\
  0 <= SectionHeader.VirtualAddress h < 2 ^ 32 /\
  0 <= SectionHeader.SizeOfRawData h < 2 ^ 32 /\
  0 <= SectionHeader.PointerToRawData h < 2 ^ 32.
Proof.
  unfold SectionHeader.pack. intros H.
  destruct (pack_fields _ _) as [tail|] eqn:E; [|discriminate].
  apply pack_fields_fit in E. unfold _IMAGE_SECTION_HEADER_tail in E.
  invert_fit E. change (2 ^ (8 * Z.of_nat 4)) with (2 ^ 32) in *. auto.
Qed.

Lemma DataDirectory_fit (dd : DataDirectory.t) (bs : list byte) :
  DataDirectory.pack dd = Ok bs ->
  0 <= DataDirectory.VirtualAddress dd < 2 ^ 32 /\ 0 <= DataDirectory.Size dd < 2 ^ 32.
Proof.
  unfold DataDirectory.pack. intros E.
  apply pack_fields_fit in E. unfold _IMAGE_DATA_DIRECTORY in E.
  invert_fit E. change (2 ^ (8 * Z.of_nat 4)) with (2 ^ 32) in *. auto.
Qed.

Lemma OptionalHeader_fit (h : OptionalHeader.t) (bs : list byte) :
  OptionalHeader.pack h = Ok bs ->
  0 <= OptionalHeader.SectionAlignment h < 2 ^ 32 /\
  0 <= OptionalHeader.FileAlignment h < 2 ^ 32 /\
  0 <= OptionalHeader.CheckSum h < 2 ^ 32 /\
  0 <= OptionalHeader.NumberOfRvaAndSizes h < 2 ^ 32.
Proof.
  unfold OptionalHeader.pack. intros E.
  destruct (OptionalHeader.struct h).
  - destruct (OptionalHeader.BaseOfData h); [|discriminate].
    apply pack_fields_fit in E. unfold _IMAGE_OPTIONAL_HEADER32 in E. cbn [app] in E.
    invert_fit E. change (2 ^ (8 * Z.of_nat 4)) with (2 ^ 32) in *. auto.
  - apply pack_fields_fit in E. unfold _IMAGE_OPTIONAL_HEADER64 in E. cbn [app] in E.
    invert_fit E. change (2 ^ (8 * Z.of_nat 4)) with (2 ^ 32) in *. auto.
Qed.

Lemma FileHeader_fit (h : FileHeader.t) (bs : list byte) :
  FileHeader.pack h = Ok bs -> 0 <= FileHeader.NumberOfSections h < 2 ^ 16.
Proof.
  unfold FileHeader.pack. intros E.
  apply pack_fields_fit in E. unfold _IMAGE_FILE_HEADER in E.
  invert_fit E. change (2 ^ (8 * Z.of_nat 2)) with (2 ^ 16) in *. auto.
Qed.

Lemma parse_data_directories_facts (n : nat) :
  forall (fin fin' : stream) (dds : list DataDirectory.t),
    parse_data_directories n fin = Ok (dds, fin') ->
    length dds = n /\
    exists bss, pack_all DataDirectory.pack dds = Ok bss /\ fin = concat bss ++ fin'.
Proof.
  induction n as [|n IH]; intros fin fin' dds H; cbn [parse_data_directories] in H.
  - injection H as <- <-. split; [reflexivity|]. exists []. split; reflexivity.
  - destruct (DataDirectory.parse fin) as [[dd fin1]|] eqn:E1; [|discriminate].
    cbn [rbind fst snd] in H.
    destruct (parse_data_directories n fin1) as [[dds' fin2]|] eqn:E2; [|discriminate].
    cbn [rbind fst snd] in H. injection H as <- <-.
    destruct (IH _ _ _ E2) as (Hlen & bss & Hbss & Hfin1).
    destruct (DataDirectory_parse_pack _ _ _ E1) as (bs & Hbs & Hfin & _).
    split; [cbn; rewrite Hlen; reflexivity|].
    exists (bs :: bss). cbn [pack_all]. rewrite Hbs. cbn [rbind]. rewrite Hbss.
    cbn [rbind concat]. split; [reflexivity|].
    rewrite <- app_assoc, <- Hfin1. exact Hfin.
Qed.

Lemma parse_sections_facts (blob : list byte) (opt : OptionalHeader.t) (n : nat) :
  forall (sec_idx : Z) (fin fin' : stream) (secs : list _PeSection),
    parse_sections blob opt n sec_idx fin = Ok (secs, fin') ->
    length secs = n /\
    Forall (fun sec =>
              sec_PointerToRawData sec mod OptionalHeader.FileAlignment opt = 0 /\
              sec_SizeOfRawData sec mod OptionalHeader.FileAlignment opt = 0 /\
              0 <= sec_PointerToRawData sec < 2 ^ 32 /\
              0 <= sec_SizeOfRawData sec < 2 ^ 32 /\
              0 <= sec_VirtualAddress sec < 2 ^ 32 /\
              0 <= sec_VirtualSize sec < 2 ^ 32 /\
              length (SectionHeader.Name (hdr sec)) = 8%nat /\
              data sec
              = (if sec_PointerToRawData sec =? 0 then None
                 else Some (py_slice blob (Some (sec_PointerToRawData sec))
                              (Some (sec_PointerToRawData sec + sec_SizeOfRawData sec)))))
      secs /\
    exists bss,
      pack_all (fun sec => SectionHeader.pack (hdr sec)) secs = Ok bss /\
      fin = concat bss ++ fin'.
Proof.
  induction n as [|n IH]; intros sec_idx fin fin' secs H; cbn [parse_sections] in H.
  - injection H as <- <-. split; [reflexivity|]. split; [constructor|].
    exists []. split; reflexivity.
  - destruct (SectionHeader.parse fin) as [[h fin1]|] eqn:E1; [|discriminate].
    cbn [rbind fst snd] in H.
    destruct (make_pe_section blob opt sec_idx h) as [sec|] eqn:E2; [|discriminate].
    cbn [rbind] in H.
    destruct (parse_sections blob opt n (sec_idx + 1) fin1) as [[secs' fin2]|] eqn:E3;
      [|discriminate].
    cbn [rbind fst snd] in H. injection H as <- <-.
    destruct (IH _ _ _ _ E3) as (Hlen & Hall & bss & Hbss & Hfin1).
    destruct (SectionHeader_parse_pack _ _ _ E1) as (bs & Hbs & Hfin & _ & Hname).
    destruct (SectionHeader_fit _ _ Hbs) as (Hvs & Hva & Hsz & Hptr).
    unfold make_pe_section in E2.
    destruct (SectionHeader.PointerToRawData h mod OptionalHeader.FileAlignment opt =? 0)
      eqn:Ea; cbn [negb] in E2; [|discriminate].
    destruct (SectionHeader.SizeOfRawData h mod OptionalHeader.FileAlignment opt =? 0)
      eqn:Eb; cbn [negb] in E2; [|discriminate].
    injection E2 as <-. apply Z.eqb_eq in Ea, Eb.
    split; [cbn; rewrite Hlen; reflexivity|]. split.
    + constructor; [|exact Hall].
      unfold sec_PointerToRawData, sec_SizeOfRawData, sec_VirtualAddress, sec_VirtualSize.
      cbn [hdr data]. repeat split; try assumption; try lia.
    + exists (bs :: bss). cbn [pack_all hdr]. rewrite Hbs. cbn [rbind]. rewrite Hbss.
      cbn [rbind concat]. split; [reflexivity|].
      rewrite <- app_assoc, <- Hfin1. exact Hfin.
Qed.

(** The parser returns only images with a positive [FileAlignment], as
    many directories and sections as the headers count, and every section
    with its raw pointer and raw size multiples of [FileAlignment] and its
    data the slice [PointerToRawData, PointerToRawData + SizeOfRawData)
    of the file, or no data when the pointer is zero. *)
Theorem parse_pe_sections (blob : list byte) (self : _PeFile) :
  parse_pe blob = Ok self ->
  0 < OptionalHeader.FileAlignment (_opt_header self) /\
  len (_data_directories self) = OptionalHeader.NumberOfRvaAndSizes (_opt_header self) /\
  len (_sections self) = FileHeader.NumberOfSections (_file_header self) /\
  forall sec, In sec (_sections self) ->
    (OptionalHeader.FileAlignment (_opt_header self) | sec_PointerToRawData sec) /\
    (OptionalHeader.FileAlignment (_opt_header self) | sec_SizeOfRawData sec) /\
    data sec
    = (if sec_PointerToRawData sec =? 0 then None
       else Some (py_slice blob (Some (sec_PointerToRawData sec))
                    (Some (sec_PointerToRawData sec + sec_SizeOfRawData sec)))).
Proof.
  intros H. destruct (init_facts _ _ H)
    as (pe_offs & fin_hdr & fin_opt & fin_dds & fin_end & last_sec & _ & _ & Hfh & _ &
        Hopt & _ & _ & Hfa & Hdds & Hsecs & _).
  destruct (OptionalHeader_parse_pack _ _ _ _
              (match Hopt with
               | or_introl (conj _ Hp) => or_introl Hp
               | or_intror (conj _ Hp) => or_intror Hp
               end)) as (obs & Hobs & _).
  destruct (OptionalHeader_fit _ _ Hobs) as (_ & Hfar & _ & Hn).
  destruct (FileHeader_parse_pack _ _ _ Hfh) as (fbs & Hfbs & _).
  pose proof (FileHeader_fit _ _ Hfbs) as Hns.
  destruct (parse_data_directories_facts _ _ _ _ Hdds) as (Hlen & _).
  destruct (parse_sections_facts _ _ _ _ _ _ _ Hsecs) as (Hlens & Hall & _).
  split; [lia|]. split; [unfold len; rewrite Hlen; lia|].
  split; [unfold len; rewrite Hlens; lia|].
  intros sec Hin. rewrite Forall_forall in Hall.
  destruct (Hall sec (proj2 (list_elem_of_In _ _) Hin)) as (Ha & Hb & _ & _ & _ & _ & _ & Hd).
  split; [apply Z.mod_divide; assumption|]. split; [apply Z.mod_divide; assumption|].
  exact Hd.
Qed.

Lemma parse_pe_sections_witness :
  0 < OptionalHeader.FileAlignment (_opt_header (sample_image true)) /\
  len (_data_directories (sample_image true)) = 16 /\
  len (_sections (sample_image true)) = 3.
Proof.
  destruct (parse_pe_sections (sample_pe true) (sample_image true) (parse_sample_pe true))
    as (H1 & H2 & H3 & _).
  split; [exact H1|]. split; [exact H2 | exact H3].
Defined.

(** ** The place of a field in a packed record *)

Lemma pack_fields_lookup (l : layout) :
  forall (n : nat) (vs : list Z) (bs : list byte) (f : Fmt.t) (name : string),
    pack_fields l vs = Ok bs -> l !! n = Some (f, name) ->
    exists v P Q,
      vs !! n = Some v /\ bs = P ++ le_encode (Fmt.width f) v ++ Q /\
      len P = layout_size (take n l) /\
      forall c, 0 <= c < 2 ^ (8 * Z.of_nat (Fmt.width f)) ->
                pack_fields l (<[n:=c]> vs) = Ok (P ++ le_encode (Fmt.width f) c ++ Q).
Proof.
  induction l as [|[f0 name0] l IH]; intros n vs bs f name H Hl; [discriminate|].
  destruct vs as [|v vs]; [discriminate|]. cbn [pack_fields] in H.
  destruct (pack_uint (Fmt.width f0) v) as [b1|] eqn:E1; [|discriminate]. cbn [rbind] in H.
  destruct (pack_fields l vs) as [b2|] eqn:E2; [|discriminate]. cbn [rbind] in H.
  injection H as <-. destruct n as [|n].
  - injection Hl as Hf Hname. subst f0 name0. apply pack_uint_inv in E1 as [-> Hv].
    exists v, [], b2. split; [reflexivity|]. split; [reflexivity|]. split; [reflexivity|].
    intros c Hc. change (<[0%nat:=c]> (v :: vs)) with (c :: vs). cbn [pack_fields].
    rewrite (pack_uint_ok _ _ Hc). cbn [rbind].
    rewrite E2. reflexivity.
  - cbn [lookup list_lookup] in Hl.
    destruct (IH n vs b2 f name E2 Hl) as (v' & P & Q & Hv' & -> & HP & Hset).
    exists v', (b1 ++ P), Q. split; [exact Hv'|]. split; [rewrite <- app_assoc; reflexivity|].
    split.
    + rewrite len_app, HP. cbn [take layout_size fold_right fst].
      apply pack_uint_inv in E1 as [-> _]. unfold len. rewrite length_le_encode.
      reflexivity.
    + intros c Hc. change (<[S n:=c]> (v :: vs)) with (v :: <[n:=c]> vs).
      cbn [pack_fields]. rewrite E1. cbn [rbind].
      rewrite (Hset c Hc). cbn [rbind]. rewrite <- app_assoc. reflexivity.
Qed.

(** [CheckSum] is the four bytes at offset 62 of either optional header. *)
Lemma OptionalHeader_pack_checksum (h : OptionalHeader.t) (bs : list byte) :
  OptionalHeader.pack h = Ok bs ->
  exists P Q,
    len P = 62 /\ bs = P ++ le_encode 4 (OptionalHeader.CheckSum h) ++ Q /\
    forall c, 0 <= c < 2 ^ 32 ->
              OptionalHeader.pack (OptionalHeader.set_CheckSum c h)
              = Ok (P ++ le_encode 4 c ++ Q).
Proof.
  unfold OptionalHeader.pack. intros H.
  cbn [OptionalHeader.struct OptionalHeader.BaseOfData OptionalHeader.set_CheckSum].
  destruct (OptionalHeader.struct h).
  - destruct (OptionalHeader.BaseOfData h) as [bod|]; [|discriminate].
    destruct (pack_fields_lookup _ 20 _ _ Fmt.I _ H eq_refl) as (v & P & Q & Hv & Hbs & HP & Hset).
    injection Hv as <-. exists P, Q. split; [exact HP|]. split; [exact Hbs|].
    intros c Hc. exact (Hset c Hc).
  - destruct (pack_fields_lookup _ 19 _ _ Fmt.I _ H eq_refl) as (v & P & Q & Hv & Hbs & HP & Hset).
    injection Hv as <-. exists P, Q. split; [exact HP|]. split; [exact Hbs|].
    intros c Hc. exact (Hset c Hc).
Qed.

(** ** The file behind a parsed image *)

Lemma check_holes_chain (l : list _PeSection) :
  forall first last_sec,
    check_holes l = Ok tt -> head l = Some first -> last l = Some last_sec ->
    raw_chain l (sec_PointerToRawData first)
      (sec_PointerToRawData last_sec + sec_SizeOfRawData last_sec).
Proof.
  induction l as [|a l IH]; intros first last_sec Hc Hh Hl; [discriminate|].
  injection Hh as <-. destruct l as [|b l].
  - injection Hl as <-. split; reflexivity.
  - cbn [check_holes] in Hc.
    destruct (sec_PointerToRawData a + sec_SizeOfRawData a =? sec_PointerToRawData b) eqn:E;
      cbn [negb] in Hc; [|discriminate].
    apply Z.eqb_eq in E. split; [reflexivity|]. rewrite E.
    apply IH; [exact Hc | reflexivity | exact Hl].
Qed.

Lemma blob_load_H_inv (blob : list byte) (offs v : Z) :
  blob_load_H blob offs = Ok v -> 0 <= v < 2 ^ 16.
Proof.
  unfold blob_load_H.
  destruct (Nat.eqb (length (py_slice blob (Some offs) (Some (offs + 2)))) 2) eqn:E;
    [|discriminate].
  apply Nat.eqb_eq in E. intros H. injection H as <-.
  pose proof (le_decode_bounds (py_slice blob (Some offs) (Some (offs + 2)))) as Hb.
  rewrite E in Hb. exact Hb.
Qed.

(** The bytes of a file that parses: the stub, the signature, the headers
    as they pack, and the rest. *)
Lemma init_image (blob : list byte) (self : _PeFile) :
  __init__ blob = Ok self ->
  exists fh magic oh dds shs rest,
    FileHeader.pack (_file_header self) = Ok fh /\
    pack_uint 2 (OptionalHeader.sig (_opt_header self)) = Ok magic /\
    OptionalHeader.pack (_opt_header self) = Ok oh /\
    pack_all DataDirectory.pack (_data_directories self) = Ok dds /\
    pack_all (fun sec => SectionHeader.pack (hdr sec)) (_sections self) = Ok shs /\
    blob = _dos_stub self ++ PE_signature ++ fh ++ magic ++ oh
           ++ concat dds ++ concat shs ++ rest /\
    _checksum_offs self = len (_dos_stub self) + 88 /\
    len (_dos_stub self) < 2 ^ 16 /\
    (OptionalHeader.sig (_opt_header self) = IMAGE_NT_OPTIONAL_HDR32_MAGIC /\
     OptionalHeader.struct (_opt_header self) = OptionalHeader.PE32 \/
     OptionalHeader.sig (_opt_header self) = IMAGE_NT_OPTIONAL_HDR64_MAGIC /\
     OptionalHeader.struct (_opt_header self) = OptionalHeader.PE32Plus).
Proof.
  intros H. destruct (init_facts _ _ H)
    as (pe_offs & fin_hdr & fin_opt & fin_dds & fin_end & last_sec & Hload & Hsig & Hfh &
        Hmagic & Hopt & Hoffs & _ & _ & Hdds & Hsecs & _ & _ & _ & _ & Hstub & _).
  pose proof (blob_load_H_inv _ _ _ Hload) as Hpe.
  unfold blob_seek in *. rewrite py_slice_suffix in * by lia.
  rewrite py_slice_prefix in Hstub by lia.
  destruct (FileHeader_parse_pack _ _ _ Hfh) as (fh & Hfhp & Hfin1 & Hfhl).
  assert (Hopt' : OptionalHeader.parse32 (le_decode (take 2 fin_hdr)) (drop 2 fin_hdr)
                  = Ok (_opt_header self, fin_opt) \/
                  OptionalHeader.parse64 (le_decode (take 2 fin_hdr)) (drop 2 fin_hdr)
                  = Ok (_opt_header self, fin_opt))
    by (destruct Hopt as [[_ Hp]|[_ Hp]]; [left | right]; exact Hp).
  destruct (OptionalHeader_parse_pack _ _ _ _ Hopt') as (oh & Hohp & Hfin2 & Hohl & Hs & Hbod).
  destruct (parse_data_directories_facts _ _ _ _ Hdds) as (_ & dds & Hddsp & Hfin3).
  destruct (parse_sections_facts _ _ _ _ _ _ _ Hsecs) as (_ & _ & shs & Hshsp & Hfin4).
  assert (Hlen : (Z.to_nat pe_offs + 4 <= length blob)%nat).
  { apply (f_equal (@length byte)) in Hsig. rewrite length_take, length_drop in Hsig.
    cbn [PE_signature length] in Hsig. lia. }
  assert (Hstubl : len (_dos_stub self) = pe_offs).
  { rewrite Hstub. unfold len. rewrite length_take. lia. }
  exists fh, (take 2 fin_hdr), oh, dds, shs, fin_end.
  split; [exact Hfhp|]. split.
  { rewrite Hs. rewrite pack_uint_ok.
    - rewrite <- Hmagic at 1. rewrite le_encode_decode. reflexivity.
    - pose proof (le_decode_bounds (take 2 fin_hdr)) as Hb. rewrite Hmagic in Hb. exact Hb. }
  split; [exact Hohp|]. split; [exact Hddsp|]. split; [exact Hshsp|]. split.
  { rewrite <- Hfin4, <- Hfin3, <- Hfin2, (take_drop 2 fin_hdr), <- Hfin1, <- Hsig.
    rewrite (take_drop 4), Hstub. symmetry. apply take_drop. }
  split; [rewrite Hoffs, Hstubl; unfold FileHeader.size; vm_compute layout_size; lia|].
  split; [lia|].
  rewrite Hs. destruct Hopt as [[Hm Hp]|[Hm Hp]]; [left | right]; (split; [exact Hm|]).
  - unfold OptionalHeader.parse32 in Hp.
    destruct (read_fields _ _) as [[vs f]|]; [|discriminate]. cbn [rbind fst snd] in Hp.
    split_values vs. injection Hp as <- _. reflexivity.
  - unfold OptionalHeader.parse64 in Hp.
    destruct (read_fields _ _) as [[vs f]|]; [|discriminate]. cbn [rbind fst snd] in Hp.
    split_values vs. injection Hp as <- _. reflexivity.
Qed.

Lemma pe_checksum_join (blobs : list (list byte)) :
  pe_checksum blobs = pe_checksum [join_blobs blobs].
Proof. rewrite !pe_checksum_spec, join_blobs_single. reflexivity. Qed.

Lemma take_drop_middle_bytes (A mid B : list byte) (n : Z) :
  len A = n ->
  take (Z.to_nat n) (A ++ mid ++ B) = A /\
  take (length mid) (drop (Z.to_nat n) (A ++ mid ++ B)) = mid /\
  drop (Z.to_nat n + length mid) (A ++ mid ++ B) = B.
Proof.
  intros <-. unfold len. rewrite Nat2Z.id. split; [|split].
  - apply take_app_length.
  - rewrite drop_app_length. apply take_app_length.
  - rewrite <- drop_drop, drop_app_length. apply drop_app_length.
Qed.

(** The file behind a parsed image holds [CheckSum] at [_checksum_offs]. *)
Lemma init_checksum_field (blob : list byte) (self : _PeFile) :
  __init__ blob = Ok self ->
  exists A B,
    blob = A ++ le_encode 4 (OptionalHeader.CheckSum (_opt_header self)) ++ B /\
    len A = _checksum_offs self /\ 0 <= _checksum_offs self.
Proof.
  intros H. destruct (init_image _ _ H)
    as (fh & magic & oh & dds & shs & rest & Hfh & Hmagic & Hoh & _ & _ & Hblob & Hoffs & _).
  destruct (OptionalHeader_pack_checksum _ _ Hoh) as (P & Q & HP & HohPQ & _).
  apply pack_uint_inv in Hmagic as [-> _].
  pose proof (pack_fields_len _ _ _ Hfh) as Hfhl.
  exists (_dos_stub self ++ PE_signature ++ fh ++ le_encode 2 (OptionalHeader.sig (_opt_header self)) ++ P),
    (Q ++ concat dds ++ concat shs ++ rest).
  split; [|split].
  - rewrite Hblob at 1. rewrite HohPQ. rewrite <- !app_assoc. reflexivity.
  - assert (Hm : len (le_encode 2 (OptionalHeader.sig (_opt_header self))) = 2)
      by (unfold len; rewrite length_le_encode; reflexivity).
    rewrite !len_app, Hoffs, HP, Hfhl, Hm. vm_compute layout_size.
    change (len PE_signature) with 4. lia.
  - rewrite Hoffs. pose proof (len_nonneg (_dos_stub self)). lia.
Qed.

(** A file that parses with a nonzero [CheckSum] has an even length; the
    field, read at [_checksum_offs], is the checksum of the file with the
    field zeroed, and lies between the length of the file and 0xFFFF
    above it. *)
Theorem parse_pe_checksum (blob : list byte) (self : _PeFile) :
  parse_pe blob = Ok self ->
  OptionalHeader.CheckSum (_opt_header self) <> 0 ->
  let offs := Z.to_nat (_checksum_offs self) in
  Z.even (len blob) = true /\
  le_decode (take 4 (drop offs blob)) = OptionalHeader.CheckSum (_opt_header self) /\
  pe_checksum [take offs blob ++ [x00; x00; x00; x00] ++ drop (offs + 4) blob]
  = Ok (OptionalHeader.CheckSum (_opt_header self)) /\
  len blob <= OptionalHeader.CheckSum (_opt_header self) <= len blob + 0xFFFF.
Proof.
  intros H Hnz offs. unfold parse_pe in H.
  destruct (init_checksum_field _ _ H) as (A & B & Hblob & HA & Hpos).
  destruct (init_image _ _ H) as (_ & _ & oh & _ & _ & _ & _ & _ & Hoh & _).
  destruct (OptionalHeader_fit _ _ Hoh) as (_ & _ & Hcs & _).
  destruct (init_facts _ _ H)
    as (_ & _ & _ & _ & _ & _ & _ & _ & _ & _ & _ & _ & Hsum & _).
  specialize (Hsum Hnz).
  rewrite py_slice_prefix, py_slice_suffix in Hsum by lia.
  destruct (take_drop_middle_bytes A (le_encode 4 (OptionalHeader.CheckSum (_opt_header self)))
              B _ HA) as (Ht & Hm & Hd).
  rewrite <- Hblob, length_le_encode in *.
  replace (Z.to_nat (_checksum_offs self + 4)) with (offs + 4)%nat in Hsum by (unfold offs; lia).
  fold offs in Ht, Hm, Hd, Hsum.
  rewrite pe_checksum_join in Hsum. unfold join_blobs in Hsum at 1.
  cbn [concat] in Hsum. rewrite app_nil_r in Hsum.
  assert (Hlen : len (take offs blob ++ [x00; x00; x00; x00] ++ drop (offs + 4) blob)
                 = len blob).
  { rewrite Ht, Hd, Hblob, !len_app. unfold len.
    rewrite length_le_encode. reflexivity. }
  pose proof (pe_checksum_ok_iff_even
                (take offs blob ++ [x00; x00; x00; x00] ++ drop (offs + 4) blob)) as Hev.
  rewrite Hsum, Hlen in Hev. cbn [is_ok] in Hev.
  split; [symmetry; exact Hev|]. split; [rewrite Hm; apply le_decode_encode; exact Hcs|].
  split; [exact Hsum|].
  pose proof (checksum_untruncated_bounds
                (take offs blob ++ [x00; x00; x00; x00] ++ drop (offs + 4) blob)) as Hb.
  rewrite pe_checksum_spec, join_blobs_single, Hlen, <- Hev in Hsum.
  rewrite Hlen in Hb.
  replace (OptionalHeader.CheckSum (_opt_header self))
    with (checksum_untruncated
            (take offs blob ++ [x00; x00; x00; x00] ++ drop (offs + 4) blob))
    by congruence.
  lia.
Qed.

Lemma parse_sample_pe_summed : parse_pe sample_pe_summed = Ok sample_image_summed.
Proof. vm_compute. reflexivity. Qed.

Lemma parse_pe_checksum_witness :
  Z.even (len sample_pe_summed) = true /\
  le_decode (take 4 (drop 152 sample_pe_summed)) = 30310.
Proof.
  destruct (parse_pe_checksum sample_pe_summed sample_image_summed parse_sample_pe_summed)
    as (H1 & H2 & _).
  - vm_compute. discriminate.
  - split; [exact H1 | exact H2].
Defined.

(** The headers of a parsed image pack to the header bytes of its file:
    the file is the stub, the signature, the packed file header, the
    magic, the packed optional header, data directories and section
    headers, and what follows them. *)
Theorem parse_pe_headers (blob : list byte) (self : _PeFile) :
  parse_pe blob = Ok self ->
  exists fh magic oh dds shs rest,
    FileHeader.pack (_file_header self) = Ok fh /\
    pack_uint 2 (OptionalHeader.sig (_opt_header self)) = Ok magic /\
    OptionalHeader.pack (_opt_header self) = Ok oh /\
    pack_all DataDirectory.pack (_data_directories self) = Ok dds /\
    pack_all (fun sec => SectionHeader.pack (hdr sec)) (_sections self) = Ok shs /\
    blob = _dos_stub self ++ PE_signature ++ fh ++ magic ++ oh
           ++ concat dds ++ concat shs ++ rest /\
    _checksum_offs self = len (_dos_stub self) + 88.
Proof.
  intros H. destruct (init_image _ _ H)
    as (fh & magic & oh & dds & shs & rest & H1 & H2 & H3 & H4 & H5 & H6 & H7 & _).
  exists fh, magic, oh, dds, shs, rest. auto 10.
Qed.

Lemma parse_pe_headers_witness :
  exists fh magic oh dds shs rest,
    FileHeader.pack (_file_header (sample_image true)) = Ok fh /\
    pack_uint 2 (OptionalHeader.sig (_opt_header (sample_image true))) = Ok magic /\
    OptionalHeader.pack (_opt_header (sample_image true)) = Ok oh /\
    pack_all DataDirectory.pack (_data_directories (sample_image true)) = Ok dds /\
    pack_all (fun sec => SectionHeader.pack (hdr sec)) (_sections (sample_image true)) = Ok shs /\
    sample_pe true = _dos_stub (sample_image true) ++ PE_signature ++ fh ++ magic ++ oh
                     ++ concat dds ++ concat shs ++ rest /\
    _checksum_offs (sample_image true) = len (_dos_stub (sample_image true)) + 88.
Proof. exact (parse_pe_headers (sample_pe true) (sample_image true) (parse_sample_pe true)). Defined.

(** In a parsed image the sections with raw data, in the order of their
    raw pointers, follow one another in the file without a gap up to
    [_trailer_offset]; the trailer is the file from there on and the stub
    the file before the signature. *)
Theorem parse_pe_layout (blob : list byte) (self : _PeFile) :
  parse_pe blob = Ok self ->
  (exists first,
      head (present_sections (_sections self)) = Some first /\
      raw_chain (present_sections (_sections self)) (sec_PointerToRawData first)
        (_trailer_offset self)) /\
  (forall sec, In sec (present_sections (_sections self)) <->
               In sec (_sections self) /\ sec_SizeOfRawData sec <> 0) /\
  0 < _trailer_offset self /\
  _trailer self = drop (Z.to_nat (_trailer_offset self)) blob /\
  _dos_stub self = take (Z.to_nat (len (_dos_stub self))) blob /\
  take 4 (drop (Z.to_nat (len (_dos_stub self))) blob) = PE_signature.
Proof.
  intros H. unfold parse_pe in H.
  destruct (init_facts _ _ H)
    as (pe_offs & fin_hdr & fin_opt & fin_dds & fin_end & last_sec & Hload & Hsig & _ & _ &
        _ & _ & _ & _ & _ & Hsecs & Hlast & Hholes & Hoff & Htr & Hstub & _).
  destruct (parse_sections_facts _ _ _ _ _ _ _ Hsecs) as (_ & Hall & _).
  pose proof (blob_load_H_inv _ _ _ Hload) as Hpe.
  assert (Hin : forall sec, In sec (present_sections (_sections self)) <->
                            In sec (_sections self) /\ sec_SizeOfRawData sec <> 0).
  { intros sec. unfold present_sections.
    rewrite <- !list_elem_of_In, (sorted_perm sec_PointerToRawData), !list_elem_of_In.
    rewrite filter_In, negb_true_iff, Z.eqb_neq. reflexivity. }
  assert (Hlast_in : In last_sec (present_sections (_sections self))).
  { apply list_elem_of_In. apply last_Some_elem_of. exact Hlast. }
  assert (Hend : 0 < _trailer_offset self).
  { apply Hin in Hlast_in as [Hl Hnz]. rewrite Forall_forall in Hall.
    destruct (Hall _ (proj2 (list_elem_of_In _ _) Hl)) as (_ & _ & Hp & Hs & _). lia. }
  unfold blob_seek in Hsig. rewrite py_slice_suffix in Hsig by lia.
  rewrite py_slice_prefix in Hstub by lia. rewrite py_slice_suffix in Htr by lia.
  assert (Hstubl : len (_dos_stub self) = pe_offs).
  { apply (f_equal (@length byte)) in Hsig. rewrite length_take, length_drop in Hsig.
    cbn [PE_signature length] in Hsig.
    rewrite Hstub. unfold len. rewrite length_take. lia. }
  split.
  { destruct (present_sections (_sections self)) as [|first l] eqn:E; [discriminate|].
    exists first. split; [reflexivity|]. rewrite Hoff.
    apply check_holes_chain; [exact Hholes | reflexivity | exact Hlast]. }
  split; [exact Hin|]. split; [exact Hend|]. split; [exact Htr|].
  rewrite Hstubl. split; [exact Hstub | exact Hsig].
Qed.

Lemma parse_pe_layout_witness :
  0 < _trailer_offset (sample_image true) /\
  _trailer (sample_image true)
  = drop (Z.to_nat (_trailer_offset (sample_image true))) (sample_pe true).
Proof.
  destruct (parse_pe_layout (sample_pe true) (sample_image true) (parse_sample_pe true))
    as (_ & _ & H1 & H2 & _).
  split; [exact H1 | exact H2].
Defined.

(** ** [store] taken apart *)

Lemma store_section_data_pieces (alignment : Z) (secs : list _PeSection) :
  forall body,
    store_section_data alignment secs = Ok body ->
    exists pieces,
      concat body = concat pieces /\ Forall2 (stored_piece alignment) secs pieces.
Proof.
  induction secs as [|sec secs IH]; intros body H; cbn [store_section_data] in H.
  - injection H as <-. exists []. split; [reflexivity | constructor].
  - destruct (data sec) as [d|] eqn:Ed; [|discriminate].
    destruct (_align (len d) alignment) as [r|] eqn:Er; [|discriminate]. cbn [rbind] in H.
    destruct (store_section_data alignment secs) as [rest|] eqn:Erest; [|discriminate].
    cbn [rbind] in H. injection H as <-.
    destruct (IH rest eq_refl) as (pieces & Hc & Hp).
    exists ((d ++ PadBlob (r - len d)) :: pieces). split.
    + destruct (r - len d =? 0) eqn:E0; cbn [concat]; rewrite Hc.
      * apply Z.eqb_eq in E0. rewrite E0. change (PadBlob 0) with (@nil byte).
        rewrite app_nil_r. reflexivity.
      * rewrite <- app_assoc. reflexivity.
    + constructor; [|exact Hp]. exists d, r. auto.
Qed.

Lemma store_inv (self self' : _PeFile) (out : list byte) :
  store self = (Ok out, self') ->
  exists off0 secs' c fh magic oh0 dds shs pieces,
    _check_vm_overlaps self = Ok tt /\
    _file_align self (header_end self) = Ok off0 /\
    store_assign_offsets (OptionalHeader.FileAlignment (_opt_header self)) off0
      (_sections self) = (Ok tt, secs') /\
    self' = set_opt_header (OptionalHeader.set_CheckSum 0 (_opt_header self))
              (set_sections secs' self) /\
    FileHeader.pack (_file_header self) = Ok fh /\
    pack_uint 2 (OptionalHeader.sig (_opt_header self)) = Ok magic /\
    OptionalHeader.pack (OptionalHeader.set_CheckSum 0 (_opt_header self)) = Ok oh0 /\
    pack_all DataDirectory.pack (_data_directories self) = Ok dds /\
    pack_all (fun sec => SectionHeader.pack (hdr sec)) secs' = Ok shs /\
    Forall2 (stored_piece (OptionalHeader.FileAlignment (_opt_header self))) secs' pieces /\
    let out0 := _dos_stub self ++ PE_signature ++ fh ++ magic ++ oh0
                ++ concat dds ++ concat shs ++ PadBlob (off0 - header_end self)
                ++ concat pieces ++ _trailer self in
    pe_checksum [out0] = Ok c /\ 0 <= c < 2 ^ 32 /\
    out = py_slice out0 None (Some (_checksum_offs self)) ++ le_encode 4 c
          ++ py_slice out0 (Some (_checksum_offs self + 4)) None.
Proof.
  unfold store, mbind, mlift, mget, mmodify, mret. intros H.
  destruct (_check_vm_overlaps self) as [[]|] eqn:Evm; [|discriminate H].
  fold (header_end self) in H.
  destruct (_file_align self (header_end self)) as [off0|] eqn:Eoff; [|discriminate H].
  destruct (store_assign_offsets _ _ _) as [r secs'] eqn:Eassign.
  destruct r as [[]|]; [|discriminate H]. cbv beta iota zeta in H.
  unfold set_opt_header, set_sections in H;
    cbn [_sections _opt_header _file_header _data_directories _dos_stub _trailer
         _checksum_offs _blob _trailer_offset] in H.
  change (OptionalHeader.FileAlignment (OptionalHeader.set_CheckSum 0 (_opt_header self)))
    with (OptionalHeader.FileAlignment (_opt_header self)) in H.
  change (OptionalHeader.sig (OptionalHeader.set_CheckSum 0 (_opt_header self)))
    with (OptionalHeader.sig (_opt_header self)) in H.
  destruct (FileHeader.pack _) as [fh|] eqn:Efh; [|discriminate H]. cbv beta iota zeta in H.
  destruct (pack_uint 2 _) as [magic|] eqn:Emagic; [|discriminate H]. cbv beta iota zeta in H.
  destruct (OptionalHeader.pack _) as [oh0|] eqn:Eoh; [|discriminate H]. cbv beta iota zeta in H.
  destruct (pack_all DataDirectory.pack _) as [dds|] eqn:Edds; [|discriminate H].
  cbv beta iota zeta in H.
  destruct (pack_all _ secs') as [shs|] eqn:Eshs; [|discriminate H]. cbv beta iota zeta in H.
  destruct (store_section_data _ secs') as [body|] eqn:Ebody; [|discriminate H].
  cbv beta iota zeta in H.
  destruct (store_section_data_pieces _ _ _ Ebody) as (pieces & Hconcat & Hpieces).
  assert (Hjoin : join_blobs
                    ([_dos_stub self; PE_signature; fh; magic; oh0] ++ dds ++ shs
                     ++ [PadBlob (off0 - header_end self)] ++ body ++ [_trailer self])
                  = _dos_stub self ++ PE_signature ++ fh ++ magic ++ oh0
                    ++ concat dds ++ concat shs ++ PadBlob (off0 - header_end self)
                    ++ concat pieces ++ _trailer self).
  { unfold join_blobs. cbn [app concat]. rewrite !concat_app. cbn [concat].
    rewrite concat_app. cbn [concat]. rewrite app_nil_r, Hconcat. reflexivity. }
  rewrite Hjoin in H.
  destruct (pe_checksum _) as [c|] eqn:Ec; [|discriminate H]. cbv beta iota zeta in H.
  destruct (pack_uint 4 c) as [packed|] eqn:Epacked; [|discriminate H].
  cbv beta iota zeta in H.
  apply pack_uint_inv in Epacked as [-> Hc].
  unfold write_blob in H. injection H as <- <-.
  exists off0, secs', c, fh, magic, oh0, dds, shs, pieces.
  change (2 ^ (8 * Z.of_nat 4)) with (2 ^ 32) in Hc.
  repeat (split; [first [assumption | reflexivity]|]). reflexivity.
Qed.

Lemma align_inv (offs alignment r : Z) :
  0 < alignment -> _align offs alignment = Ok r ->
  (alignment | r) /\ offs <= r < offs + alignment.
Proof.
  intros Hpos. unfold _align.
  destruct (alignment =? 0) eqn:E; [discriminate|]. intros H. injection H as <-.
  split; [apply Z.divide_factor_r|].
  pose proof (Z.div_mod (offs + alignment - 1) alignment ltac:(lia)) as Hd.
  pose proof (Z.mod_pos_bound (offs + alignment - 1) alignment Hpos) as Hm.
  lia.
Qed.

Lemma align_ok_nonzero (offs alignment r : Z) :
  _align offs alignment = Ok r -> alignment <> 0.
Proof.
  unfold _align. destruct (alignment =? 0) eqn:E; [discriminate|].
  intros _. apply Z.eqb_neq. exact E.
Qed.

Lemma raw_moved_refl (sec : _PeSection) : raw_moved sec sec.
Proof.
  exists (sec_PointerToRawData sec), (sec_SizeOfRawData sec).
  destruct sec as [[] ? ? ?]. reflexivity.
Qed.

Lemma raw_moved_pointer (sec : _PeSection) (ptr : Z) :
  raw_moved sec (set_hdr (SectionHeader.set_PointerToRawData ptr (hdr sec)) sec).
Proof.
  exists ptr, (sec_SizeOfRawData sec). destruct sec as [[] ? ? ?]. reflexivity.
Qed.

Lemma raw_moved_both (sec : _PeSection) (ptr size : Z) :
  raw_moved sec
    (set_hdr (SectionHeader.set_SizeOfRawData size
                (hdr (set_hdr (SectionHeader.set_PointerToRawData ptr (hdr sec)) sec)))
       (set_hdr (SectionHeader.set_PointerToRawData ptr (hdr sec)) sec)).
Proof. exists ptr, size. destruct sec as [[] ? ? ?]. reflexivity. Qed.

(** The first loop of [store] changes raw pointers and raw sizes only, and
    nothing of a section whose pointer is zero; this holds when it raises
    as well. *)
Lemma store_assign_offsets_frame (alignment : Z) (secs : list _PeSection) :
  forall section_offset,
    Forall2 (fun sec sec' => raw_moved sec sec' /\ (sec_PointerToRawData sec = 0 -> sec' = sec))
      secs (store_assign_offsets alignment section_offset secs).2.
Proof.
  assert (Hrefl : forall l : list _PeSection,
             Forall2 (fun sec sec' => raw_moved sec sec' /\
                                      (sec_PointerToRawData sec = 0 -> sec' = sec)) l l).
  { intros l. apply Forall_Forall2_diag, Forall_true. intros sec.
    split; [apply raw_moved_refl | reflexivity]. }
  induction secs as [|sec secs IH]; intros section_offset; cbn [store_assign_offsets].
  - constructor.
  - destruct (sec_PointerToRawData sec =? 0) eqn:E0.
    + specialize (IH section_offset).
      destruct (store_assign_offsets alignment section_offset secs). cbn [snd] in *.
      constructor; [|exact IH]. split; [apply raw_moved_refl | reflexivity].
    + apply Z.eqb_neq in E0. cbn [set_hdr data]. destruct (data sec) as [d|] eqn:Ed.
      * destruct (_align (len d) alignment) as [size|e].
        -- specialize (IH (section_offset + size)).
           destruct (store_assign_offsets alignment (section_offset + size) secs).
           cbn [snd] in *. constructor; [|exact IH].
           split; [|intros; contradiction].
           exists section_offset, size. destruct sec as [[] ? ? ?]. reflexivity.
        -- cbn [snd]. constructor; [|apply Hrefl].
           split; [|intros; contradiction].
           exists section_offset, (sec_SizeOfRawData sec). destruct sec as [[] ? ? ?].
           reflexivity.
      * cbn [snd]. constructor; [|apply Hrefl].
        split; [|intros; contradiction].
        exists section_offset, (sec_SizeOfRawData sec). destruct sec as [[] ? ? ?].
        reflexivity.
Qed.

(** The statement of the theorem that follows, as a lemma for the proofs
    further down. *)
Lemma store_frame_facts (self : _PeFile) :
  let self' := (store self).2 in
  _checksum_offs self' = _checksum_offs self /\
  _blob self' = _blob self /\
  _dos_stub self' = _dos_stub self /\
  _file_header self' = _file_header self /\
  _data_directories self' = _data_directories self /\
  _trailer_offset self' = _trailer_offset self /\
  _trailer self' = _trailer self /\
  (_opt_header self' = _opt_header self \/
   _opt_header self' = OptionalHeader.set_CheckSum 0 (_opt_header self)) /\
  (is_ok (store self).1 = true -> OptionalHeader.CheckSum (_opt_header self') = 0) /\
  Forall2 (fun sec sec' => raw_moved sec sec' /\ (sec_PointerToRawData sec = 0 -> sec' = sec))
    (_sections self) (_sections self').
Proof.
  assert (Hrefl : Forall2 (fun sec sec' => raw_moved sec sec' /\
                                           (sec_PointerToRawData sec = 0 -> sec' = sec))
                    (_sections self) (_sections self)).
  { apply Forall_Forall2_diag, Forall_true. intros sec.
    split; [apply raw_moved_refl | reflexivity]. }
  unfold store, mbind, mlift, mget, mmodify, mret.
  destruct (_check_vm_overlaps self) as [[]|]; [|cbn; repeat split; auto; discriminate].
  destruct (_file_align self _) as [off0|]; [|cbn; repeat split; auto; discriminate].
  pose proof (store_assign_offsets_frame (OptionalHeader.FileAlignment (_opt_header self))
                (_sections self) off0) as Hframe.
  destruct (store_assign_offsets _ _ _) as [r secs']. cbn [snd] in Hframe.
  destruct r as [[]|]; [|cbn; repeat split; auto; discriminate].
  cbv beta iota zeta.
  repeat match goal with
         | |- context [match ?x with (p, q) => _ end] =>
             match x with
             | (_, _) => cbv beta iota zeta
             end
         | |- context [match ?r with Ok _ => _ | Raise _ => _ end] =>
             destruct r; cbv beta iota zeta
         end;
    cbn; repeat split; auto; discriminate.
Qed.

(** [store] leaves the stub, the file header, the data directories, the
    trailer and the recorded offsets as they are, raise or not; of the
    sections it changes raw pointers and raw sizes only, and nothing of a
    section whose raw pointer is zero; the optional header keeps every
    field but [CheckSum], which is zero in the object after a store that
    returns. *)
Theorem store_frame (self : _PeFile) :
  let self' := (store self).2 in
  _checksum_offs self' = _checksum_offs self /\
  _blob self' = _blob self /\
  _dos_stub self' = _dos_stub self /\
  _file_header self' = _file_header self /\
  _data_directories self' = _data_directories self /\
  _trailer_offset self' = _trailer_offset self /\
  _trailer self' = _trailer self /\
  (_opt_header self' = _opt_header self \/
   _opt_header self' = OptionalHeader.set_CheckSum 0 (_opt_header self)) /\
  (is_ok (store self).1 = true -> OptionalHeader.CheckSum (_opt_header self') = 0) /\
  Forall2 (fun sec sec' => raw_moved sec sec' /\ (sec_PointerToRawData sec = 0 -> sec' = sec))
    (_sections self) (_sections self').
Proof.
  assert (Hrefl : Forall2 (fun sec sec' => raw_moved sec sec' /\
                                           (sec_PointerToRawData sec = 0 -> sec' = sec))
                    (_sections self) (_sections self)).
  { apply Forall_Forall2_diag, Forall_true. intros sec.
    split; [apply raw_moved_refl | reflexivity]. }
  unfold store, mbind, mlift, mget, mmodify, mret.
  destruct (_check_vm_overlaps self) as [[]|]; [|cbn; repeat split; auto; discriminate].
  destruct (_file_align self _) as [off0|]; [|cbn; repeat split; auto; discriminate].
  pose proof (store_assign_offsets_frame (OptionalHeader.FileAlignment (_opt_header self))
                (_sections self) off0) as Hframe.
  destruct (store_assign_offsets _ _ _) as [r secs']. cbn [snd] in Hframe.
  destruct r as [[]|]; [|cbn; repeat split; auto; discriminate].
  cbv beta iota zeta.
  repeat match goal with
         | |- context [match ?x with (p, q) => _ end] =>
             match x with
             | (_, _) => cbv beta iota zeta
             end
         | |- context [match ?r with Ok _ => _ | Raise _ => _ end] =>
             destruct r; cbv beta iota zeta
         end;
    cbn; repeat split; auto; discriminate.
Qed.

Lemma store_sample : store (sample_image false) = (Ok sample_pe_summed, sample_image false).
Proof. vm_compute. reflexivity. Qed.

(** When the first loop of [store] ends, the sections with a raw pointer
    have the offsets from [section_offset] on, in the order of the table,
    each as long as its data aligned. *)
Lemma store_assign_offsets_ok (alignment : Z) (secs : list _PeSection) :
  0 < alignment ->
  forall section_offset secs',
    store_assign_offsets alignment section_offset secs = (Ok tt, secs') ->
    0 < section_offset -> (alignment | section_offset) ->
    Forall2 (fun sec sec' => file_backed sec' = file_backed sec) secs secs' /\
    Forall (fun sec' =>
              file_backed sec' = true ->
              (alignment | sec_PointerToRawData sec') /\
              0 < sec_PointerToRawData sec' /\
              exists d, data sec' = Some d /\
                        _align (len d) alignment = Ok (sec_SizeOfRawData sec')) secs' /\
    exists stop,
      raw_chain (List.filter file_backed secs') section_offset stop /\
      section_offset <= stop /\ (alignment | stop).
Proof.
  intros Hpos. induction secs as [|sec secs IH]; intros off secs' H Hoff Hdiv;
    cbn [store_assign_offsets] in H.
  - injection H as <-. split; [constructor|]. split; [constructor|].
    exists off. split; [reflexivity|]. split; [lia | exact Hdiv].
  - destruct (sec_PointerToRawData sec =? 0) eqn:E0.
    + destruct (store_assign_offsets alignment off secs) as [r rest'] eqn:Er.
      injection H as -> <-.
      destruct (IH _ _ Er Hoff Hdiv) as (Hfb & Hall & stop & Hchain & Hle & Hstop).
      split; [constructor; [reflexivity | exact Hfb]|]. split.
      * constructor; [|exact Hall]. unfold file_backed. rewrite E0. discriminate.
      * exists stop. cbn [List.filter]. unfold file_backed at 1. rewrite E0. cbn [negb].
        auto.
    + cbn [set_hdr data] in H. destruct (data sec) as [d|] eqn:Ed; [|discriminate H].
      destruct (_align (len d) alignment) as [size|] eqn:Ea; [|discriminate H].
      destruct (store_assign_offsets alignment (off + size) secs) as [r rest'] eqn:Er.
      injection H as -> <-.
      destruct (align_inv _ _ _ Hpos Ea) as (Hsize & Hlen).
      pose proof (len_nonneg d) as Hd.
      destruct (IH _ _ Er ltac:(lia) ltac:(apply Z.divide_add_r; assumption))
        as (Hfb & Hall & stop & Hchain & Hle & Hstop).
      match goal with
      | |- Forall2 _ _ (?s2 :: _) /\ _ => assert (Hb : file_backed s2 = true)
      end.
      { unfold file_backed, sec_PointerToRawData. cbn. apply negb_true_iff, Z.eqb_neq. lia. }
      split; [constructor; [rewrite Hb; unfold file_backed; rewrite E0; reflexivity
                           | exact Hfb]|].
      split.
      * constructor; [|exact Hall]. intros _. unfold sec_PointerToRawData, sec_SizeOfRawData.
        cbn. split; [exact Hdiv|]. split; [exact Hoff|]. exists d. auto.
      * exists stop. cbn [List.filter]. rewrite Hb. cbn [raw_chain].
        split; [|split; [lia | exact Hstop]]. split; [reflexivity|]. exact Hchain.
Qed.

Lemma header_end_pos (self : _PeFile) : 0 < header_end self.
Proof.
  unfold header_end. pose proof (len_nonneg (_dos_stub self)).
  pose proof (len_nonneg (_data_directories self)).
  pose proof (len_nonneg (_sections self)).
  assert (0 <= OptionalHeader.size (_opt_header self))
    by (unfold OptionalHeader.size; destruct (OptionalHeader.struct _); vm_compute; discriminate).
  change FileHeader.size with 20. change DataDirectory.size with 8.
  change SectionHeader.size with 40. lia.
Qed.

(** The statement of the theorem that follows, as a lemma for the proofs
    further down. *)
Lemma store_layout_facts (self self' : _PeFile) (out : list byte) :
  store self = (Ok out, self') ->
  let alignment := OptionalHeader.FileAlignment (_opt_header self) in
  0 < alignment /\
  exists section_offset stop,
    _file_align self (header_end self) = Ok section_offset /\
    (alignment | section_offset) /\
    header_end self <= section_offset < header_end self + alignment /\
    raw_chain (List.filter file_backed (_sections self')) section_offset stop /\
    Forall2 (fun sec sec' => file_backed sec' = file_backed sec)
      (_sections self) (_sections self') /\
    forall sec', In sec' (_sections self') -> file_backed sec' = true ->
      (alignment | sec_PointerToRawData sec') /\
      (alignment | sec_SizeOfRawData sec') /\
      exists d, data sec' = Some d /\
                len d <= sec_SizeOfRawData sec' < len d + alignment.
Proof.
  intros H alignment.
  destruct (store_inv _ _ _ H)
    as (off0 & secs' & c & fh & magic & oh0 & dds & shs & pieces & _ & Hoff & Hassign & -> &
        _ & _ & Hoh & _).
  destruct (OptionalHeader_fit _ _ Hoh) as (_ & Hfa & _).
  change (OptionalHeader.FileAlignment (OptionalHeader.set_CheckSum 0 (_opt_header self)))
    with alignment in Hfa.
  unfold _file_align in Hoff. fold alignment in Hoff, Hassign.
  pose proof (align_ok_nonzero _ _ _ Hoff) as Hnz.
  assert (Hpos : 0 < alignment) by lia.
  destruct (align_inv _ _ _ Hpos Hoff) as (Hdiv & Hrange).
  pose proof (header_end_pos self) as Hhe.
  destruct (store_assign_offsets_ok alignment _ Hpos _ _ Hassign ltac:(lia) Hdiv)
    as (Hfb & Hall & stop & Hchain & _).
  split; [exact Hpos|]. exists off0, stop.
  split; [exact Hoff|]. split; [exact Hdiv|]. split; [exact Hrange|].
  cbn [set_opt_header set_sections _sections].
  split; [exact Hchain|]. split; [exact Hfb|].
  intros sec' Hin Hb. rewrite Forall_forall in Hall.
  destruct (Hall sec' (proj2 (list_elem_of_In _ _) Hin) Hb) as (Hp & _ & d & Hd & Ha).
  destruct (align_inv _ _ _ Hpos Ha) as (Hs & Hr).
  split; [exact Hp|]. split; [exact Hs|]. exists d. auto.
Qed.

(** After a [store] that returns, [FileAlignment] is positive, the first
    raw pointer is [header_end] aligned up, the sections that had a raw
    pointer follow one another from there in the order of the section
    table, and each has a raw size that is its data's length aligned up. *)
Theorem store_layout (self self' : _PeFile) (out : list byte) :
  store self = (Ok out, self') ->
  let alignment := OptionalHeader.FileAlignment (_opt_header self) in
  0 < alignment /\
  exists section_offset stop,
    _file_align self (header_end self) = Ok section_offset /\
    (alignment | section_offset) /\
    header_end self <= section_offset < header_end self + alignment /\
    raw_chain (List.filter file_backed (_sections self')) section_offset stop /\
    Forall2 (fun sec sec' => file_backed sec' = file_backed sec)
      (_sections self) (_sections self') /\
    forall sec', In sec' (_sections self') -> file_backed sec' = true ->
      (alignment | sec_PointerToRawData sec') /\
      (alignment | sec_SizeOfRawData sec') /\
      exists d, data sec' = Some d /\
                len d <= sec_SizeOfRawData sec' < len d + alignment.
Proof.
  intros H alignment.
  destruct (store_inv _ _ _ H)
    as (off0 & secs' & c & fh & magic & oh0 & dds & shs & pieces & _ & Hoff & Hassign & -> &
        _ & _ & Hoh & _).
  destruct (OptionalHeader_fit _ _ Hoh) as (_ & Hfa & _).
  change (OptionalHeader.FileAlignment (OptionalHeader.set_CheckSum 0 (_opt_header self)))
    with alignment in Hfa.
  unfold _file_align in Hoff. fold alignment in Hoff, Hassign.
  pose proof (align_ok_nonzero _ _ _ Hoff) as Hnz.
  assert (Hpos : 0 < alignment) by lia.
  destruct (align_inv _ _ _ Hpos Hoff) as (Hdiv & Hrange).
  pose proof (header_end_pos self) as Hhe.
  destruct (store_assign_offsets_ok alignment _ Hpos _ _ Hassign ltac:(lia) Hdiv)
    as (Hfb & Hall & stop & Hchain & _).
  split; [exact Hpos|]. exists off0, stop.
  split; [exact Hoff|]. split; [exact Hdiv|]. split; [exact Hrange|].
  cbn [set_opt_header set_sections _sections].
  split; [exact Hchain|]. split; [exact Hfb|].
  intros sec' Hin Hb. rewrite Forall_forall in Hall.
  destruct (Hall sec' (proj2 (list_elem_of_In _ _) Hin) Hb) as (Hp & _ & d & Hd & Ha).
  destruct (align_inv _ _ _ Hpos Ha) as (Hs & Hr).
  split; [exact Hp|]. split; [exact Hs|]. exists d. auto.
Qed.

Lemma store_layout_witness :
  0 < OptionalHeader.FileAlignment (_opt_header (sample_image false)) /\
  exists section_offset stop,
    _file_align (sample_image false) (header_end (sample_image false)) = Ok section_offset /\
    raw_chain (List.filter file_backed (_sections (sample_image false))) section_offset stop.
Proof.
  destruct (store_layout _ _ _ store_sample) as (H1 & off & stop & H2 & _ & _ & H3 & _).
  split; [exact H1|]. exists off, stop. split; [exact H2 | exact H3].
Defined.

(** ** The bytes [store] writes *)

Lemma OptionalHeader_pack_len (h : OptionalHeader.t) (bs : list byte) :
  OptionalHeader.pack h = Ok bs -> len bs = OptionalHeader.size h.
Proof.
  unfold OptionalHeader.pack, OptionalHeader.size, OptionalHeader.layout_of.
  destruct (OptionalHeader.struct h).
  - destruct (OptionalHeader.BaseOfData h); [|discriminate]. apply pack_fields_len.
  - apply pack_fields_len.
Qed.

Lemma pack_all_len {A} (pack : A -> result (list byte)) (n : Z) (xs : list A) :
  (forall x bs, pack x = Ok bs -> len bs = n) ->
  forall bss, pack_all pack xs = Ok bss -> len (concat bss) = len xs * n.
Proof.
  intros Hn. induction xs as [|x xs IH]; intros bss H; cbn [pack_all] in H.
  - injection H as <-. reflexivity.
  - destruct (pack x) as [bs|] eqn:E; [|discriminate]. cbn [rbind] in H.
    destruct (pack_all pack xs) as [rest|]; [|discriminate]. cbn [rbind] in H.
    injection H as <-. cbn [concat]. rewrite len_app, (Hn _ _ E), (IH _ eq_refl).
    unfold len. cbn [length]. lia.
Qed.

Lemma len_PadBlob (n : Z) : 0 <= n -> len (PadBlob n) = n.
Proof. intros Hn. unfold len, PadBlob. rewrite length_replicate. lia. Qed.

Lemma header_len (self : _PeFile) (h : OptionalHeader.t) (secs' : list _PeSection)
    (fh magic oh : list byte) (dds shs : list (list byte)) (off0 : Z) :
  FileHeader.pack (_file_header self) = Ok fh ->
  pack_uint 2 (OptionalHeader.sig (_opt_header self)) = Ok magic ->
  OptionalHeader.pack h = Ok oh ->
  OptionalHeader.struct h = OptionalHeader.struct (_opt_header self) ->
  pack_all DataDirectory.pack (_data_directories self) = Ok dds ->
  pack_all (fun sec => SectionHeader.pack (hdr sec)) secs' = Ok shs ->
  length secs' = length (_sections self) ->
  header_end self <= off0 ->
  len (_dos_stub self ++ PE_signature ++ fh ++ magic ++ oh) = header_end self
    - len (_data_directories self) * DataDirectory.size
    - len (_sections self) * SectionHeader.size /\
  len (_dos_stub self ++ PE_signature ++ fh ++ magic ++ oh ++ concat dds ++ concat shs
       ++ PadBlob (off0 - header_end self)) = off0.
Proof.
  intros Hfh Hmagic Hoh Hstruct Hdds Hshs Hlen Hoff.
  apply pack_uint_inv in Hmagic as [-> _].
  pose proof (pack_fields_len _ _ _ Hfh) as Lfh.
  pose proof (OptionalHeader_pack_len _ _ Hoh) as Loh.
  pose proof (pack_all_len _ _ _ DataDirectory_pack_len _ Hdds) as Ldds.
  pose proof (pack_all_len (fun sec => SectionHeader.pack (hdr sec)) SectionHeader.size secs'
                (fun sec bs => SectionHeader_pack_len (hdr sec) bs) _ Hshs) as Lshs.
  assert (Lm : len (le_encode 2 (OptionalHeader.sig (_opt_header self))) = 2)
    by (unfold len; rewrite length_le_encode; reflexivity).
  assert (Hl : len secs' = len (_sections self)) by (unfold len; rewrite Hlen; reflexivity).
  rewrite Hl in Lshs.
  rewrite !len_app, Lfh, Lm, Loh, Ldds, Lshs, len_PadBlob by lia.
  change (len PE_signature) with 4. unfold header_end, OptionalHeader.size.
  rewrite Hstruct. fold FileHeader.size. split; lia.
Qed.

Lemma store_assign_offsets_length (alignment : Z) (secs : list _PeSection) (off : Z) :
  length (store_assign_offsets alignment off secs).2 = length secs.
Proof.
  symmetry. eapply Forall2_length. apply store_assign_offsets_frame.
Qed.

(** The file a [store] returns: the headers of the object under the new
    offsets and the checksum of the file, the fill up to the first
    section, each section's data with its fill, the trailer. *)
Lemma store_image (self self' : _PeFile) (out : list byte) :
  store self = (Ok out, self') ->
  _checksum_offs self = len (_dos_stub self) + 88 ->
  exists off0 c fh magic oh dds shs pieces,
    _file_align self (header_end self) = Ok off0 /\
    FileHeader.pack (_file_header self) = Ok fh /\
    pack_uint 2 (OptionalHeader.sig (_opt_header self)) = Ok magic /\
    OptionalHeader.pack (OptionalHeader.set_CheckSum c (_opt_header self)) = Ok oh /\
    pack_all DataDirectory.pack (_data_directories self) = Ok dds /\
    pack_all (fun sec => SectionHeader.pack (hdr sec)) (_sections self') = Ok shs /\
    Forall2 (stored_piece (OptionalHeader.FileAlignment (_opt_header self)))
      (_sections self') pieces /\
    out = (_dos_stub self ++ PE_signature ++ fh ++ magic ++ oh ++ concat dds ++ concat shs
           ++ PadBlob (off0 - header_end self))
          ++ concat pieces ++ _trailer self /\
    len (_dos_stub self ++ PE_signature ++ fh ++ magic ++ oh ++ concat dds ++ concat shs
         ++ PadBlob (off0 - header_end self)) = off0 /\
    0 <= c < 2 ^ 32 /\
    exists A B,
      len A = _checksum_offs self /\ out = A ++ le_encode 4 c ++ B /\
      pe_checksum [A ++ [x00; x00; x00; x00] ++ B] = Ok c.
Proof.
  intros H Hoffs.
  destruct (store_inv _ _ _ H)
    as (off0 & secs' & c & fh & magic & oh0 & dds & shs & pieces & _ & Hoff & Hassign & -> &
        Hfh & Hmagic & Hoh & Hdds & Hshs & Hpieces & Hsum & Hc & ->).
  destruct (OptionalHeader_pack_checksum _ _ Hoh) as (P & Q & HP & -> & Hset).
  specialize (Hset c Hc).
  change (OptionalHeader.set_CheckSum c (OptionalHeader.set_CheckSum 0 (_opt_header self)))
    with (OptionalHeader.set_CheckSum c (_opt_header self)) in Hset.
  change (OptionalHeader.CheckSum (OptionalHeader.set_CheckSum 0 (_opt_header self)))
    with 0 in *.
  destruct (OptionalHeader_fit _ _ Hoh) as (_ & Hfa & _).
  change (OptionalHeader.FileAlignment (OptionalHeader.set_CheckSum 0 (_opt_header self)))
    with (OptionalHeader.FileAlignment (_opt_header self)) in Hfa.
  unfold _file_align in Hoff. pose proof (align_ok_nonzero _ _ _ Hoff) as Hnz.
  assert (Hpos : 0 < OptionalHeader.FileAlignment (_opt_header self)) by lia.
  destruct (align_inv _ _ _ Hpos Hoff) as (_ & Hrange).
  assert (Hlen' : length secs' = length (_sections self)).
  { replace secs' with (store_assign_offsets (OptionalHeader.FileAlignment (_opt_header self))
                          off0 (_sections self)).2 by (rewrite Hassign; reflexivity).
    apply store_assign_offsets_length. }
  destruct (header_len self _ secs' _ _ _ _ _ off0 Hfh Hmagic Hset eq_refl Hdds Hshs Hlen'
              ltac:(lia)) as (_ & Hhead).
  pose proof (pack_fields_len _ _ _ Hfh) as Lfh.
  pose proof Hmagic as Hmagic'. apply pack_uint_inv in Hmagic' as [Hm _].
  assert (Lm : len magic = 2)
    by (rewrite Hm; unfold len; rewrite length_le_encode; reflexivity).
  set (A := _dos_stub self ++ PE_signature ++ fh ++ magic ++ P).
  set (B := Q ++ concat dds ++ concat shs ++ PadBlob (off0 - header_end self)
            ++ concat pieces ++ _trailer self).
  assert (HA : len A = _checksum_offs self).
  { unfold A. rewrite !len_app, Lfh, Lm, HP, Hoffs. change (len PE_signature) with 4.
    vm_compute layout_size. lia. }
  assert (Hout0 : _dos_stub self ++ PE_signature ++ fh ++ magic
                  ++ (P ++ le_encode 4 0 ++ Q) ++ concat dds ++ concat shs
                  ++ PadBlob (off0 - header_end self) ++ concat pieces ++ _trailer self
                  = A ++ le_encode 4 0 ++ B).
  { unfold A, B. rewrite <- !app_assoc. reflexivity. }
  cbv zeta in Hsum. rewrite Hout0 in *. clear Hout0.
  pose proof (len_nonneg A) as HA0.
  destruct (take_drop_middle_bytes A (le_encode 4 0) B _ HA) as (Ht & _ & Hd).
  rewrite length_le_encode in Hd.
  rewrite py_slice_prefix, py_slice_suffix by lia.
  replace (Z.to_nat (_checksum_offs self + 4)) with (Z.to_nat (_checksum_offs self) + 4)%nat
    by lia.
  rewrite Ht, Hd.
  exists off0, c, fh, magic, (P ++ le_encode 4 c ++ Q), dds, shs, pieces.
  cbn [set_opt_header set_sections _sections].
  repeat (split; [first [assumption | reflexivity]|]).
  split; [unfold A, B; rewrite <- !app_assoc; reflexivity|].
  split; [exact Hhead|]. split; [exact Hc|].
  exists A, B. split; [exact HA|]. split; [reflexivity|]. exact Hsum.
Qed.

(** The file a [store] returns has an even length and carries at
    [_checksum_offs] the checksum of itself with that field zeroed, the
    value the parser asks for. *)
Theorem store_checksum (self self' : _PeFile) (out : list byte) :
  store self = (Ok out, self') ->
  _checksum_offs self = len (_dos_stub self) + 88 ->
  let offs := Z.to_nat (_checksum_offs self) in
  Z.even (len out) = true /\
  pe_checksum [take offs out ++ [x00; x00; x00; x00] ++ drop (offs + 4) out]
  = Ok (le_decode (take 4 (drop offs out))) /\
  len out <= le_decode (take 4 (drop offs out)) <= len out + 0xFFFF.
Proof.
  intros H Hoffs offs.
  destruct (store_image _ _ _ H Hoffs)
    as (off0 & c & fh & magic & oh & dds & shs & pieces & _ & _ & _ & _ & _ & _ & _ & _ & _ &
        Hc & A & B & HA & Hout & Hsum).
  destruct (take_drop_middle_bytes A (le_encode 4 c) B _ HA) as (Ht & Hm & Hd).
  rewrite <- Hout, length_le_encode in *. fold offs in Ht, Hm, Hd.
  rewrite Ht, Hm, Hd, le_decode_encode by exact Hc.
  assert (Hlen : len (A ++ [x00; x00; x00; x00] ++ B) = len out).
  { rewrite Hout, !len_app. unfold len. rewrite length_le_encode. reflexivity. }
  pose proof (pe_checksum_ok_iff_even (A ++ [x00; x00; x00; x00] ++ B)) as Hev.
  rewrite Hsum, Hlen in Hev. cbn [is_ok] in Hev.
  split; [symmetry; exact Hev|]. split; [exact Hsum|].
  pose proof (checksum_untruncated_bounds (A ++ [x00; x00; x00; x00] ++ B)) as Hb.
  rewrite pe_checksum_spec, join_blobs_single, Hlen, <- Hev in Hsum. rewrite Hlen in Hb.
  replace c with (checksum_untruncated (A ++ [x00; x00; x00; x00] ++ B)) by congruence.
  lia.
Qed.

Lemma store_checksum_witness :
  Z.even (len sample_pe_summed) = true /\
  pe_checksum [take 152 sample_pe_summed ++ [x00; x00; x00; x00] ++ drop 156 sample_pe_summed]
  = Ok (le_decode (take 4 (drop 152 sample_pe_summed))).
Proof.
  destruct (store_checksum _ _ _ store_sample) as (H1 & H2 & _).
  - vm_compute. reflexivity.
  - split; [exact H1 | exact H2].
Defined.

Lemma stored_piece_len (alignment : Z) (sec : _PeSection) (piece : list byte) :
  0 < alignment -> stored_piece alignment sec piece ->
  exists d, data sec = Some d /\ _align (len d) alignment = Ok (len piece) /\
            piece = d ++ PadBlob (len piece - len d) /\ len d <= len piece.
Proof.
  intros Hpos (d & r & Hd & Hr & ->).
  destruct (align_inv _ _ _ Hpos Hr) as (_ & Hrange).
  assert (Hl : len (d ++ PadBlob (r - len d)) = r)
    by (rewrite len_app, len_PadBlob by lia; lia).
  exists d. rewrite Hl. auto with zarith.
Qed.

Lemma stored_pieces_divide (alignment : Z) (secs : list _PeSection)
    (pieces : list (list byte)) :
  0 < alignment -> Forall2 (stored_piece alignment) secs pieces ->
  (alignment | len (concat pieces)).
Proof.
  intros Hpos. induction 1 as [|sec piece secs pieces Hp _ IH]; cbn [concat].
  - apply Z.divide_0_r.
  - destruct (stored_piece_len _ _ _ Hpos Hp) as (d & _ & Ha & _).
    destruct (align_inv _ _ _ Hpos Ha) as (Hdiv & _).
    rewrite len_app. apply Z.divide_add_r; assumption.
Qed.

Lemma even_multiple (a x : Z) : Z.even a = true -> (a | x) -> Z.even x = true.
Proof. intros Ha [k ->]. rewrite Z.even_mul, Ha. apply orb_true_r. Qed.

(** [store] raises when [FileAlignment] is even and the trailer has an odd
    length: the file to write has an odd length then, and [pe_checksum]
    cannot read it. *)
Theorem store_odd_trailer (self : _PeFile) :
  Z.even (OptionalHeader.FileAlignment (_opt_header self)) = true ->
  Z.odd (len (_trailer self)) = true ->
  exists e, (store self).1 = Raise e.
Proof.
  intros Hfa Hodd. destruct (store self) as [[out|e] self'] eqn:E; [exfalso | eauto].
  destruct (store_inv _ _ _ E)
    as (off0 & secs' & c & fh & magic & oh0 & dds & shs & pieces & _ & Hoff & Hassign & _ &
        Hfh & Hmagic & Hoh & Hdds & Hshs & Hpieces & Hsum & _).
  destruct (OptionalHeader_fit _ _ Hoh) as (_ & Hrange & _).
  change (OptionalHeader.FileAlignment (OptionalHeader.set_CheckSum 0 (_opt_header self)))
    with (OptionalHeader.FileAlignment (_opt_header self)) in Hrange.
  unfold _file_align in Hoff. pose proof (align_ok_nonzero _ _ _ Hoff) as Hnz.
  assert (Hpos : 0 < OptionalHeader.FileAlignment (_opt_header self)) by lia.
  destruct (align_inv _ _ _ Hpos Hoff) as (Hdiv & Hle).
  assert (Hlen' : length secs' = length (_sections self)).
  { replace secs' with (store_assign_offsets (OptionalHeader.FileAlignment (_opt_header self))
                          off0 (_sections self)).2 by (rewrite Hassign; reflexivity).
    apply store_assign_offsets_length. }
  destruct (header_len self _ secs' _ _ _ _ _ off0 Hfh Hmagic Hoh eq_refl Hdds Hshs Hlen'
              ltac:(lia)) as (_ & Hhead).
  pose proof (stored_pieces_divide _ _ _ Hpos Hpieces) as Hbody.
  cbv zeta in Hsum.
  pose proof (pe_checksum_ok_iff_even
                (_dos_stub self ++ PE_signature ++ fh ++ magic ++ oh0 ++ concat dds
                 ++ concat shs ++ PadBlob (off0 - header_end self) ++ concat pieces
                 ++ _trailer self)) as Hev.
  rewrite Hsum in Hev. cbn [is_ok] in Hev.
  replace (_dos_stub self ++ PE_signature ++ fh ++ magic ++ oh0 ++ concat dds
           ++ concat shs ++ PadBlob (off0 - header_end self) ++ concat pieces
           ++ _trailer self)
    with ((_dos_stub self ++ PE_signature ++ fh ++ magic ++ oh0 ++ concat dds
           ++ concat shs ++ PadBlob (off0 - header_end self)) ++ concat pieces
          ++ _trailer self) in Hev by (rewrite <- !app_assoc; reflexivity).
  rewrite len_app, Hhead, len_app, !Z.even_add in Hev.
  rewrite (even_multiple _ _ Hfa Hdiv), (even_multiple _ _ Hfa Hbody) in Hev.
  rewrite <- Z.negb_odd, Hodd in Hev. discriminate Hev.
Qed.

Lemma store_odd_trailer_witness :
  exists e, (store (set_trailer [x01] (sample_image false))).1 = Raise e.
Proof.
  apply store_odd_trailer; vm_compute; reflexivity.
Defined.

Lemma filter_all {A} (f : A -> bool) (l : list A) :
  Forall (fun x => f x = true) l -> List.filter f l = l.
Proof.
  induction 1 as [|x l Hx _ IH]; cbn [List.filter]; [reflexivity|].
  rewrite Hx, IH. reflexivity.
Qed.

(** Pieces laid one after another behind [pre] are found again at the
    offsets of a chain that starts at the length of [pre]. *)
Lemma raw_chain_slices (secs : list _PeSection) (pieces : list (list byte)) :
  Forall2 (fun sec piece => len piece = sec_SizeOfRawData sec) secs pieces ->
  forall (a b : Z) (pre post : list byte),
    raw_chain secs a b -> len pre = a ->
    Forall2 (fun sec piece =>
               py_slice (pre ++ concat pieces ++ post) (Some (sec_PointerToRawData sec))
                 (Some (sec_PointerToRawData sec + sec_SizeOfRawData sec)) = piece)
      secs pieces /\
    len (pre ++ concat pieces) = b.
Proof.
  induction 1 as [|sec piece secs pieces Hp _ IH]; intros a b pre post Hchain Hpre.
  - cbn [raw_chain] in Hchain. cbn [concat]. rewrite app_nil_r.
    split; [constructor | lia].
  - destruct Hchain as [Hptr Hchain]. cbn [concat].
    destruct (IH (a + sec_SizeOfRawData sec) b (pre ++ piece) post Hchain
                ltac:(rewrite len_app; lia)) as (Hrest & Hlen).
    replace (pre ++ (piece ++ concat pieces) ++ post)
      with ((pre ++ piece) ++ concat pieces ++ post) by (rewrite <- !app_assoc; reflexivity).
    replace (pre ++ piece ++ concat pieces) with ((pre ++ piece) ++ concat pieces)
      by (rewrite <- app_assoc; reflexivity).
    split; [|exact Hlen]. constructor; [|exact Hrest].
    pose proof (len_nonneg pre). pose proof (len_nonneg piece).
    rewrite py_slice_nonneg by lia.
    rewrite Hptr, <- Hpre, <- Hp. unfold len.
    replace (Z.to_nat (Z.of_nat (length pre) + Z.of_nat (length piece))
             - Z.to_nat (Z.of_nat (length pre)))%nat with (length piece) by lia.
    rewrite Nat2Z.id, <- !app_assoc, drop_app_length, take_app_length. reflexivity.
Qed.

(** The statement of the theorem that follows, as a lemma for the proofs
    further down. *)
Lemma store_output_facts (self self' : _PeFile) (out : list byte) :
  store self = (Ok out, self') ->
  _checksum_offs self = len (_dos_stub self) + 88 ->
  Forall (fun sec => sec_PointerToRawData sec <> 0) (_sections self) ->
  (forall sec', In sec' (_sections self') ->
     exists d, data sec' = Some d /\ len d <= sec_SizeOfRawData sec' /\
       py_slice out (Some (sec_PointerToRawData sec'))
         (Some (sec_PointerToRawData sec' + sec_SizeOfRawData sec'))
       = d ++ PadBlob (sec_SizeOfRawData sec' - len d)) /\
  exists section_offset stop,
    _file_align self (header_end self) = Ok section_offset /\
    raw_chain (_sections self') section_offset stop /\
    drop (Z.to_nat stop) out = _trailer self /\
    len out = stop + len (_trailer self) /\
    take (Z.to_nat (len (_dos_stub self))) out = _dos_stub self.
Proof.
  intros H Hoffs Hbacked.
  destruct (store_layout_facts _ _ _ H) as (Hpos & off0' & stop & Hoff' & _ & _ & Hchain & Hfb & _).
  destruct (store_image _ _ _ H Hoffs)
    as (off0 & c & fh & magic & oh & dds & shs & pieces & Hoff & _ & _ & _ & _ & _ & Hpieces &
        Hout & Hhead & _).
  assert (off0' = off0) by congruence. subst off0'.
  assert (Hall : Forall (fun sec' => file_backed sec' = true) (_sections self')).
  { clear - Hfb Hbacked. induction Hfb as [|sec sec' secs secs' Hs _ IH]; [constructor|].
    inversion Hbacked as [|? ? Hnz Hrest]; subst. constructor; [|apply IH; exact Hrest].
    rewrite Hs. unfold file_backed. apply negb_true_iff, Z.eqb_neq. exact Hnz. }
  rewrite (filter_all _ _ Hall) in Hchain.
  set (alignment := OptionalHeader.FileAlignment (_opt_header self)) in *.
  assert (Hsizes : Forall2 (fun sec' piece =>
                              len piece = sec_SizeOfRawData sec' /\
                              stored_piece alignment sec' piece) (_sections self') pieces).
  { destruct (store_inv _ _ _ H)
      as (off1 & secs' & _ & _ & _ & _ & _ & _ & _ & _ & Hoff1 & Hassign & -> & _).
    unfold _file_align in Hoff1, Hoff. fold alignment in Hoff1, Hoff, Hassign.
    assert (off1 = off0) by congruence. subst off1.
    destruct (align_inv _ _ _ Hpos Hoff) as (Hdiv & Hle).
    pose proof (header_end_pos self) as Hhe.
    destruct (store_assign_offsets_ok alignment _ Hpos _ _ Hassign ltac:(lia) Hdiv)
      as (_ & Hok & _).
    cbn [set_opt_header set_sections _sections] in *.
    clear - Hok Hall Hpieces Hpos. induction Hpieces as [|sec' piece secs' pieces Hp _ IH];
      [constructor|].
    inversion Hok as [|? ? Hs Hok']; subst. inversion Hall as [|? ? Hb Hall']; subst.
    constructor; [|apply IH; assumption]. split; [|exact Hp].
    destruct (Hs Hb) as (_ & _ & d & Hd & Ha).
    destruct (stored_piece_len _ _ _ Hpos Hp) as (d' & Hd' & Ha' & _).
    congruence. }
  destruct (raw_chain_slices (_sections self') pieces
              ltac:(eapply Forall2_impl; [exact Hsizes | intros ? ? [? _]; assumption])
              off0 stop _ (_trailer self) Hchain Hhead) as (Hslices & Hstop).
  rewrite <- Hout in Hslices. split.
  - intros sec' Hin. apply list_elem_of_In in Hin.
    destruct (list_elem_of_lookup_1 _ _ Hin) as [i Hi].
    destruct (Forall2_lookup_l _ _ _ _ _ Hsizes Hi) as (piece & Hpi & Hlen & Hpiece).
    pose proof (Forall2_lookup_lr _ _ _ _ _ _ Hslices Hi Hpi) as Hslice. cbv beta in Hslice.
    destruct (stored_piece_len _ _ _ Hpos Hpiece) as (d & Hd & _ & Heq & Hle).
    exists d. rewrite Hslice, <- Hlen. auto.
  - exists off0, stop. split; [exact Hoff|]. split; [exact Hchain|].
    pose proof (len_nonneg (_dos_stub self)) as Hs0.
    assert (Hstop' : Z.to_nat stop
                     = length ((_dos_stub self ++ PE_signature ++ fh ++ magic ++ oh
                                ++ concat dds ++ concat shs
                                ++ PadBlob (off0 - header_end self)) ++ concat pieces))
      by (rewrite <- Hstop; unfold len; lia).
    split; [|split].
    + rewrite Hout, app_assoc, Hstop'. apply drop_app_length.
    + rewrite Hout, app_assoc, len_app, Hstop. reflexivity.
    + rewrite Hout, <- !app_assoc. unfold len. rewrite Nat2Z.id. apply take_app_length.
Qed.

(** When every section has a raw pointer and [_checksum_offs] is where the
    parser puts it, the file a [store] returns holds each section's data,
    filled with zeros to its raw size, at the section's new raw pointer;
    the sections follow one another from [header_end] aligned up, and the
    trailer is the rest of the file. *)
Theorem store_output (self self' : _PeFile) (out : list byte) :
  store self = (Ok out, self') ->
  _checksum_offs self = len (_dos_stub self) + 88 ->
  Forall (fun sec => sec_PointerToRawData sec <> 0) (_sections self) ->
  (forall sec', In sec' (_sections self') ->
     exists d, data sec' = Some d /\ len d <= sec_SizeOfRawData sec' /\
       py_slice out (Some (sec_PointerToRawData sec'))
         (Some (sec_PointerToRawData sec' + sec_SizeOfRawData sec'))
       = d ++ PadBlob (sec_SizeOfRawData sec' - len d)) /\
  exists section_offset stop,
    _file_align self (header_end self) = Ok section_offset /\
    raw_chain (_sections self') section_offset stop /\
    drop (Z.to_nat stop) out = _trailer self /\
    len out = stop + len (_trailer self) /\
    take (Z.to_nat (len (_dos_stub self))) out = _dos_stub self.
Proof.
  intros H Hoffs Hbacked.
  destruct (store_layout_facts _ _ _ H) as (Hpos & off0' & stop & Hoff' & _ & _ & Hchain & Hfb & _).
  destruct (store_image _ _ _ H Hoffs)
    as (off0 & c & fh & magic & oh & dds & shs & pieces & Hoff & _ & _ & _ & _ & _ & Hpieces &
        Hout & Hhead & _).
  assert (off0' = off0) by congruence. subst off0'.
  assert (Hall : Forall (fun sec' => file_backed sec' = true) (_sections self')).
  { clear - Hfb Hbacked. induction Hfb as [|sec sec' secs secs' Hs _ IH]; [constructor|].
    inversion Hbacked as [|? ? Hnz Hrest]; subst. constructor; [|apply IH; exact Hrest].
    rewrite Hs. unfold file_backed. apply negb_true_iff, Z.eqb_neq. exact Hnz. }
  rewrite (filter_all _ _ Hall) in Hchain.
  set (alignment := OptionalHeader.FileAlignment (_opt_header self)) in *.
  assert (Hsizes : Forall2 (fun sec' piece =>
                              len piece = sec_SizeOfRawData sec' /\
                              stored_piece alignment sec' piece) (_sections self') pieces).
  { destruct (store_inv _ _ _ H)
      as (off1 & secs' & _ & _ & _ & _ & _ & _ & _ & _ & Hoff1 & Hassign & -> & _).
    unfold _file_align in Hoff1, Hoff. fold alignment in Hoff1, Hoff, Hassign.
    assert (off1 = off0) by congruence. subst off1.
    destruct (align_inv _ _ _ Hpos Hoff) as (Hdiv & Hle).
    pose proof (header_end_pos self) as Hhe.
    destruct (store_assign_offsets_ok alignment _ Hpos _ _ Hassign ltac:(lia) Hdiv)
      as (_ & Hok & _).
    cbn [set_opt_header set_sections _sections] in *.
    clear - Hok Hall Hpieces Hpos. induction Hpieces as [|sec' piece secs' pieces Hp _ IH];
      [constructor|].
    inversion Hok as [|? ? Hs Hok']; subst. inversion Hall as [|? ? Hb Hall']; subst.
    constructor; [|apply IH; assumption]. split; [|exact Hp].
    destruct (Hs Hb) as (_ & _ & d & Hd & Ha).
    destruct (stored_piece_len _ _ _ Hpos Hp) as (d' & Hd' & Ha' & _).
    congruence. }
  destruct (raw_chain_slices (_sections self') pieces
              ltac:(eapply Forall2_impl; [exact Hsizes | intros ? ? [? _]; assumption])
              off0 stop _ (_trailer self) Hchain Hhead) as (Hslices & Hstop).
  rewrite <- Hout in Hslices. split.
  - intros sec' Hin. apply list_elem_of_In in Hin.
    destruct (list_elem_of_lookup_1 _ _ Hin) as [i Hi].
    destruct (Forall2_lookup_l _ _ _ _ _ Hsizes Hi) as (piece & Hpi & Hlen & Hpiece).
    pose proof (Forall2_lookup_lr _ _ _ _ _ _ Hslices Hi Hpi) as Hslice. cbv beta in Hslice.
    destruct (stored_piece_len _ _ _ Hpos Hpiece) as (d & Hd & _ & Heq & Hle).
    exists d. rewrite Hslice, <- Hlen. auto.
  - exists off0, stop. split; [exact Hoff|]. split; [exact Hchain|].
    pose proof (len_nonneg (_dos_stub self)) as Hs0.
    assert (Hstop' : Z.to_nat stop
                     = length ((_dos_stub self ++ PE_signature ++ fh ++ magic ++ oh
                                ++ concat dds ++ concat shs
                                ++ PadBlob (off0 - header_end self)) ++ concat pieces))
      by (rewrite <- Hstop; unfold len; lia).
    split; [|split].
    + rewrite Hout, app_assoc, Hstop'. apply drop_app_length.
    + rewrite Hout, app_assoc, len_app, Hstop. reflexivity.
    + rewrite Hout, <- !app_assoc. unfold len. rewrite Nat2Z.id. apply take_app_length.
Qed.

Lemma store_output_witness :
  exists section_offset stop,
    _file_align (sample_image false) (header_end (sample_image false)) = Ok section_offset /\
    raw_chain (_sections (sample_image false)) section_offset stop /\
    drop (Z.to_nat stop) sample_pe_summed = _trailer (sample_image false).
Proof.
  destruct (store_output _ _ _ store_sample) as (_ & off & stop & H1 & H2 & H3 & _).
  - vm_compute. reflexivity.
  - repeat constructor; vm_compute; discriminate.
  - exists off, stop. split; [exact H1|]. split; [exact H2 | exact H3].
Defined.

(** ** Parsing what was packed *)

Lemma OptionalHeader_pack_parse (h : OptionalHeader.t) (bs rest : list byte) :
  OptionalHeader.pack h = Ok bs ->
  (OptionalHeader.struct h = OptionalHeader.PE32 ->
   OptionalHeader.parse32 (OptionalHeader.sig h) (bs ++ rest) = Ok (h, rest)) /\
  (OptionalHeader.struct h = OptionalHeader.PE32Plus ->
   OptionalHeader.BaseOfData h = None ->
   OptionalHeader.parse64 (OptionalHeader.sig h) (bs ++ rest) = Ok (h, rest)).
Proof.
  unfold OptionalHeader.pack, OptionalHeader.parse32, OptionalHeader.parse64. intros H.
  split.
  - intros Hs. rewrite Hs in H. destruct (OptionalHeader.BaseOfData h) as [bod|] eqn:Eb;
      [|discriminate].
    rewrite (pack_fields_read _ _ _ rest H). destruct h. cbn in *. subst. reflexivity.
  - intros Hs Hb. rewrite Hs in H.
    rewrite (pack_fields_read _ _ _ rest H). destruct h. cbn in *. subst. reflexivity.
Qed.

Lemma parse_data_directories_pack (dds : list DataDirectory.t) :
  forall (bss : list (list byte)) (rest : list byte),
    pack_all DataDirectory.pack dds = Ok bss ->
    parse_data_directories (length dds) (concat bss ++ rest) = Ok (dds, rest).
Proof.
  induction dds as [|dd dds IH]; intros bss rest H; cbn [pack_all] in H.
  - injection H as <-. reflexivity.
  - destruct (DataDirectory.pack dd) as [bs|] eqn:E; [|discriminate]. cbn [rbind] in H.
    destruct (pack_all DataDirectory.pack dds) as [bss'|] eqn:E'; [|discriminate].
    cbn [rbind] in H. injection H as <-.
    cbn [length parse_data_directories concat]. rewrite <- app_assoc.
    rewrite (DataDirectory_pack_parse _ _ _ E). cbn [rbind fst snd].
    rewrite (IH _ _ eq_refl). reflexivity.
Qed.

Lemma parse_sections_pack (blob : list byte) (opt : OptionalHeader.t)
    (secs : list _PeSection) :
  forall (shs : list (list byte)) (sec_idx : Z) (rest : list byte),
    pack_all (fun sec => SectionHeader.pack (hdr sec)) secs = Ok shs ->
    Forall (fun sec =>
              length (SectionHeader.Name (hdr sec)) = 8%nat /\
              sec_PointerToRawData sec mod OptionalHeader.FileAlignment opt = 0 /\
              sec_SizeOfRawData sec mod OptionalHeader.FileAlignment opt = 0) secs ->
    parse_sections blob opt (length secs) sec_idx (concat shs ++ rest)
    = Ok (map (fun sec => section_of_header blob (hdr sec)) secs, rest).
Proof.
  induction secs as [|sec secs IH]; intros shs sec_idx rest H Hall; cbn [pack_all] in H.
  - injection H as <-. reflexivity.
  - destruct (SectionHeader.pack (hdr sec)) as [bs|] eqn:E; [|discriminate]. cbn [rbind] in H.
    destruct (pack_all _ secs) as [shs'|] eqn:E'; [|discriminate].
    cbn [rbind] in H. injection H as <-.
    inversion Hall as [|? ? (Hname & Hptr & Hsize) Hall']; subst.
    cbn [length parse_sections concat map]. rewrite <- app_assoc.
    rewrite (SectionHeader_pack_parse _ _ _ Hname E). cbn [rbind fst snd].
    unfold make_pe_section. unfold sec_PointerToRawData, sec_SizeOfRawData in Hptr, Hsize.
    rewrite Hptr, Hsize. cbn [Z.eqb negb rbind].
    rewrite (IH _ _ _ eq_refl Hall'). reflexivity.
Qed.

Lemma blob_load_H_app (A rest : list byte) :
  62 <= len A -> blob_load_H (A ++ rest) 0x3c = blob_load_H A 0x3c.
Proof.
  intros HA. unfold blob_load_H. rewrite !py_slice_nonneg by lia.
  unfold len in HA.
  rewrite drop_app_le by lia. rewrite take_app_le by (rewrite length_drop; lia).
  reflexivity.
Qed.

(** ** Chains of sections *)

Lemma raw_chain_filter (secs : list _PeSection) :
  forall a b,
    raw_chain secs a b ->
    raw_chain (List.filter (fun sec => negb (sec_SizeOfRawData sec =? 0)) secs) a b.
Proof.
  induction secs as [|sec secs IH]; intros a b H; [exact H|].
  destruct H as [Hptr H]. cbn [List.filter].
  destruct (sec_SizeOfRawData sec =? 0) eqn:E; cbn [negb].
  - apply Z.eqb_eq in E. rewrite E, Z.add_0_r in H. apply IH, H.
  - split; [exact Hptr | apply IH, H].
Qed.

Lemma sorted_chain (secs : list _PeSection) :
  forall a b,
    raw_chain secs a b -> Forall (fun sec => 0 <= sec_SizeOfRawData sec) secs ->
    sorted sec_PointerToRawData secs = secs.
Proof.
  induction secs as [|sec secs IH]; intros a b H Hall; [reflexivity|].
  destruct H as [Hptr H]. inversion Hall as [|? ? Hs Hall']; subst.
  cbn [sorted]. rewrite (IH _ _ H Hall').
  destruct secs as [|sec2 secs]; [reflexivity|]. cbn [insert_sorted].
  destruct H as [Hptr2 _].
  replace (sec_PointerToRawData sec <=? sec_PointerToRawData sec2) with true
    by (symmetry; apply Z.leb_le; lia).
  reflexivity.
Qed.

Lemma check_holes_of_chain (secs : list _PeSection) :
  forall a b, raw_chain secs a b -> check_holes secs = Ok tt.
Proof.
  induction secs as [|sec secs IH]; intros a b H; [reflexivity|].
  destruct H as [Hptr H]. destruct secs as [|sec2 secs]; [reflexivity|].
  cbn [check_holes]. pose proof H as [Hptr2 _].
  replace (sec_PointerToRawData sec + sec_SizeOfRawData sec =? sec_PointerToRawData sec2)
    with true by (symmetry; apply Z.eqb_eq; lia).
  cbn [negb]. eapply IH, H.
Qed.

Lemma raw_chain_last (secs : list _PeSection) :
  forall a b last_sec,
    raw_chain secs a b -> last secs = Some last_sec ->
    sec_PointerToRawData last_sec + sec_SizeOfRawData last_sec = b.
Proof.
  induction secs as [|sec secs IH]; intros a b last_sec H Hl; [discriminate|].
  destruct H as [Hptr H]. destruct secs as [|sec2 secs].
  - injection Hl as <-. cbn [raw_chain] in H. lia.
  - eapply IH; [exact H | exact Hl].
Qed.

(** ** What no call changes *)

Lemma section_kept_refl (sec : _PeSection) : section_kept sec sec.
Proof. unfold section_kept. repeat split; auto; lia. Qed.

Lemma section_kept_trans (a b c : _PeSection) :
  section_kept a b -> section_kept b c -> section_kept a c.
Proof.
  unfold section_kept. intros (H1 & H2 & H3 & H4 & H5) (G1 & G2 & G3 & G4 & G5).
  repeat split; try congruence; try lia; auto.
Qed.

Lemma sections_kept_refl (secs : list _PeSection) : Forall2 section_kept secs secs.
Proof. apply Forall_Forall2_diag, Forall_true, section_kept_refl. Qed.

Lemma OptionalHeader_set_CheckSum_same (h : OptionalHeader.t) :
  h = OptionalHeader.set_CheckSum (OptionalHeader.CheckSum h) h.
Proof. destruct h. reflexivity. Qed.

Lemma image_kept_refl (self : _PeFile) : image_kept self self.
Proof.
  unfold image_kept. repeat split; try reflexivity.
  - exists (OptionalHeader.CheckSum (_opt_header self)). apply OptionalHeader_set_CheckSum_same.
  - apply sections_kept_refl.
Qed.

Lemma sections_kept_trans (l1 l2 l3 : list _PeSection) :
  Forall2 section_kept l1 l2 -> Forall2 section_kept l2 l3 -> Forall2 section_kept l1 l3.
Proof.
  intros H. revert l3. induction H as [|x y l l' Hxy _ IH]; intros l3 G;
    inversion G; subst; constructor.
  - eapply section_kept_trans; eassumption.
  - apply IH. assumption.
Qed.

Lemma image_kept_trans (a b c : _PeFile) :
  image_kept a b -> image_kept b c -> image_kept a c.
Proof.
  unfold image_kept.
  intros (H1 & H2 & H3 & H4 & H5 & (c1 & H6) & H7 & H8)
         (G1 & G2 & G3 & G4 & G5 & (c2 & G6) & G7 & G8).
  repeat split; try congruence.
  - exists c2. rewrite G6, H6. reflexivity.
  - eapply sections_kept_trans; eassumption.
Qed.

Lemma image_kept_directories (self : _PeFile) (dds : list DataDirectory.t) :
  length dds = length (_data_directories self) ->
  image_kept self (set_data_directories dds self).
Proof.
  intros H. destruct (image_kept_refl self) as (H1 & H2 & H3 & H4 & H5 & H6 & _ & H8).
  unfold image_kept. cbn. auto 10.
Qed.

Lemma image_kept_trailer (self : _PeFile) (tr : list byte) :
  image_kept self (set_trailer tr self).
Proof. exact (image_kept_refl self). Qed.

Lemma image_kept_sections (self : _PeFile) (secs : list _PeSection) :
  Forall2 section_kept (_sections self) secs ->
  image_kept self (set_sections secs self).
Proof.
  intros H. destruct (image_kept_refl self) as (H1 & H2 & H3 & H4 & H5 & H6 & H7 & _).
  unfold image_kept. cbn. auto 10.
Qed.

Lemma remove_signature_kept (self : _PeFile) : image_kept self (remove_signature self).2.
Proof.
  unfold remove_signature, mbind, mget, mlift, mraise, mmodify, mret.
  destruct (len (_data_directories self) <? IMAGE_DIRECTORY_ENTRY_SECURITY);
    [apply image_kept_refl|].
  destruct (py_index _ _) as [k|]; [|apply image_kept_refl].
  destruct (py_getitem _ _) as [dd|]; [|apply image_kept_refl].
  destruct (DataDirectory.Size dd =? 0); [apply image_kept_refl|].
  destruct (negb _); [apply image_kept_refl|].
  destruct (_ <? _); [apply image_kept_refl|].
  cbn [snd].
  eapply image_kept_trans; [apply image_kept_trailer|].
  eapply image_kept_trans; apply image_kept_directories; apply length_alter.
Qed.

Lemma remove_trailer_kept (self : _PeFile) : image_kept self (remove_trailer self).2.
Proof.
  pose proof (remove_signature_kept self) as H.
  unfold remove_trailer, mbind, mmodify.
  destruct (remove_signature self) as [[[]|e] s]; cbn [snd] in *; [|exact H].
  eapply image_kept_trans; [exact H | apply image_kept_trailer].
Qed.

Lemma resize_directory_kept (idx size : Z) (self : _PeFile) :
  Forall (fun sec => attr_VirtualAddress sec = None) (_sections self) ->
  image_kept self (_resize_directory idx size self).2.
Proof.
  intros Hfresh.
  unfold _resize_directory, mbind, mget, mlift, mraise, mmodify, mret.
  destruct (py_index _ idx) as [k|]; [|apply image_kept_refl].
  destruct (py_getitem (_data_directories self) idx) as [dd|]; [|apply image_kept_refl].
  destruct (_get_directory_section self _ _) as [sec_idx|]; [|apply image_kept_refl].
  destruct (py_getitem (_sections self) (Z.of_nat sec_idx)) as [sec|] eqn:Hsec;
    [|apply image_kept_refl].
  apply py_getitem_nat in Hsec.
  destruct (size <=? sec_VirtualSize sec) eqn:Hle.
  - apply Z.leb_le in Hle. cbn [snd].
    eapply image_kept_trans; [apply image_kept_sections
                             | apply image_kept_directories, length_alter].
    apply Forall2_alter_r; [apply sections_kept_refl|].
    intros x y Hx Hy _. rewrite Hsec in Hy. injection Hy as <-.
    rewrite Hsec in Hx. injection Hx as <-.
    unfold section_kept, sec_VirtualAddress, sec_VirtualSize. cbn. auto.
  - rewrite find_vm_hole_fresh by (apply Forall_delete; exact Hfresh).
    apply image_kept_refl.
Qed.

Lemma sections_kept_fresh (secs secs' : list _PeSection) :
  Forall2 section_kept secs secs' ->
  Forall (fun sec => attr_VirtualAddress sec = None) secs ->
  Forall (fun sec => attr_VirtualAddress sec = None) secs'.
Proof.
  induction 1 as [|x y l l' (_ & _ & _ & Hx & _) _ IH]; intros Hall; [constructor|].
  inversion Hall; subst. constructor; auto.
Qed.

Lemma store_kept (self : _PeFile) : image_kept self (store self).2.
Proof.
  destruct (store_frame_facts self) as (H1 & H2 & H3 & H4 & H5 & H6 & _ & H8 & _ & H10).
  unfold image_kept.
  split; [exact H1|]. split; [exact H2|]. split; [exact H3|]. split; [exact H4|].
  split; [exact H6|]. split; [|split].
  - destruct H8 as [-> | ->]; eexists; [apply OptionalHeader_set_CheckSum_same | reflexivity].
  - rewrite H5. reflexivity.
  - eapply Forall2_impl; [exact H10|]. cbv beta.
    intros sec sec' [(ptr & size & ->) _].
    unfold section_kept, sec_VirtualAddress, sec_VirtualSize. cbn. repeat split; auto; lia.
Qed.

Lemma after_kept (m : method) (self : _PeFile) :
  Forall (fun sec => attr_VirtualAddress sec = None) (_sections self) ->
  image_kept self (after m self).
Proof.
  intros Hfresh. destruct m as [| |idx size|idx blob|]; cbn [after].
  - apply remove_signature_kept.
  - apply remove_trailer_kept.
  - pose proof (resize_directory_kept idx size self Hfresh) as H.
    unfold resize_directory, mbind, mret.
    destruct (_resize_directory idx size self) as [[r|e] s]; exact H.
  - pose proof (resize_directory_kept idx (len blob) self Hfresh) as H.
    unfold set_directory, mbind, mmodify.
    destruct (_resize_directory idx (len blob) self) as [[r|e] s]; cbn [snd] in *;
      [|exact H].
    eapply image_kept_trans; [exact H|]. apply image_kept_sections.
    apply Forall2_alter_r; [apply sections_kept_refl|].
    intros x y _ _ Hxy. exact Hxy.
  - apply store_kept.
Qed.

Lemma after_all_kept (blob : list byte) (self : _PeFile) (ms : list method) :
  __init__ blob = Ok self ->
  image_kept self (after_all ms self) /\
  Forall (fun sec => attr_VirtualAddress sec = None) (_sections (after_all ms self)).
Proof.
  intros Hparse.
  assert (Hfresh : Forall (fun sec => attr_VirtualAddress sec = None) (_sections self)).
  { eapply Forall_impl; [apply (init_as_parsed _ _ Hparse)|]. intros x (H & _). exact H. }
  induction ms as [|m ms IH] using rev_ind.
  - split; [apply image_kept_refl | exact Hfresh].
  - unfold after_all in *. rewrite fold_left_app. cbn [fold_left].
    destruct IH as (Hkept & Hfresh').
    pose proof (after_kept m _ Hfresh') as Hstep.
    split; [eapply image_kept_trans; eassumption|].
    destruct Hstep as (_ & _ & _ & _ & _ & _ & _ & Hsecs).
    eapply sections_kept_fresh; eassumption.
Qed.

(** Whatever is called on a parsed image, in whatever order and whether
    the calls return or raise: the stub, the file header, the recorded
    offsets, the optional header but for [CheckSum], the number of data
    directories and every section's name and virtual address stay as
    parsed; no virtual size grows and no section is given attributes of
    its own; the check of the virtual ranges keeps passing and
    [_checksum_offs] keeps pointing at the [CheckSum] field. *)
Theorem calls_keep_image (blob : list byte) (self : _PeFile) (ms : list method) :
  parse_pe blob = Ok self ->
  image_kept self (after_all ms self) /\
  Forall (fun sec => attr_VirtualAddress sec = None /\ attr_VirtualSize sec = None)
    (_sections (after_all ms self)) /\
  _check_vm_overlaps (after_all ms self) = Ok tt /\
  _checksum_offs (after_all ms self) = len (_dos_stub (after_all ms self)) + 88.
Proof.
  intros Hparse. unfold parse_pe in Hparse.
  destruct (after_all_kept _ _ ms Hparse) as (Hkept & _).
  split; [exact Hkept|].
  destruct Hkept as (H1 & _ & H3 & _ & _ & (c & H6) & _ & H8).
  split; [|split].
  - pose proof (init_as_parsed _ _ Hparse) as Hfresh. clear - H8 Hfresh.
    induction H8 as [|x y l l' (_ & _ & _ & Hx & Hy) _ IH]; [constructor|].
    inversion Hfresh as [|? ? (Ha & Hb & _) Hrest]; subst. constructor; auto.
  - destruct (init_inv _ _ Hparse) as (Hvm & _).
    unfold _check_vm_overlaps in *. rewrite H6.
    change (OptionalHeader.SectionAlignment (OptionalHeader.set_CheckSum c (_opt_header self)))
      with (OptionalHeader.SectionAlignment (_opt_header self)).
    revert Hvm. apply check_vm_overlaps_loop_shrunk; [|constructor].
    apply sorted_Forall2; [intros a b [Hva _]; exact Hva|].
    eapply Forall2_impl; [exact H8|]. cbv beta. intros x y (_ & Hva & Hvs & _).
    split; assumption.
  - destruct (init_image _ _ Hparse)
      as (fh & magic & oh & dds & shs & rest & _ & _ & _ & _ & _ & _ & Hoffs & _).
    rewrite H1, H3. exact Hoffs.
Qed.

Lemma calls_keep_image_witness :
  _check_vm_overlaps
    (after_all [call_set_directory 1 [x01; x02]; call_remove_signature; call_store;
                call_resize_directory 1 0x1000]
       (sample_image false)) = Ok tt.
Proof.
  destruct (calls_keep_image (sample_pe false) (sample_image false)
              [call_set_directory 1 [x01; x02]; call_remove_signature; call_store;
               call_resize_directory 1 0x1000] (parse_sample_pe false))
    as (_ & _ & H & _).
  exact H.
Defined.

Lemma resize_directory_grow_run (self : _PeFile) (idx size : Z)
    (k sec_idx : nat) (dd : DataDirectory.t) (sec : _PeSection) :
  Forall (fun sec => attr_VirtualAddress sec = None) (_sections self) ->
  py_index (len (_data_directories self)) idx = Ok k ->
  _data_directories self !! k = Some dd ->
  _get_directory_section self (DataDirectory.VirtualAddress dd)
    (DataDirectory.VirtualAddress dd + DataDirectory.Size dd) = Some sec_idx ->
  _sections self !! sec_idx = Some sec ->
  sec_VirtualSize sec < size ->
  exists e, _resize_directory idx size self = (Raise e, self)
            /\ (e = AttributeError \/ e = IndexError).
Proof.
  intros Hfresh Hk Hdd Hsec Hlook Hgrow.
  unfold _resize_directory, mbind, mget, mlift, mraise.
  rewrite Hk, (py_getitem_index _ _ _ _ Hk Hdd), Hsec.
  rewrite (py_getitem_in_range _ (Z.of_nat sec_idx) sec)
    by (rewrite ?Nat2Z.id; first [lia | exact Hlook]).
  replace (size <=? sec_VirtualSize sec) with false by (symmetry; apply Z.leb_gt; lia).
  rewrite find_vm_hole_fresh.
  - eexists. split; [reflexivity|]. destruct (delete sec_idx (_sections self)); auto.
  - apply Forall_delete. exact Hfresh.
Qed.

(** After any calls on a parsed image, a directory cannot be made larger
    than the virtual size of its section: [resize_directory] and
    [set_directory] raise [AttributeError], or [IndexError] when the image
    has one section, and leave the object as it is. *)
Theorem calls_never_grow (blob : list byte) (self : _PeFile) (ms : list method)
    (idx size : Z) (new_blob : list byte)
    (k sec_idx : nat) (dd : DataDirectory.t) (sec : _PeSection) :
  parse_pe blob = Ok self ->
  let s := after_all ms self in
  py_index (len (_data_directories s)) idx = Ok k ->
  _data_directories s !! k = Some dd ->
  _get_directory_section s (DataDirectory.VirtualAddress dd)
    (DataDirectory.VirtualAddress dd + DataDirectory.Size dd) = Some sec_idx ->
  _sections s !! sec_idx = Some sec ->
  (sec_VirtualSize sec < size ->
   exists e, resize_directory idx size s = (Raise e, s) /\
             (e = AttributeError \/ e = IndexError)) /\
  (sec_VirtualSize sec < len new_blob ->
   exists e, set_directory idx new_blob s = (Raise e, s) /\
             (e = AttributeError \/ e = IndexError)).
Proof.
  intros Hparse s Hk Hdd Hsec Hlook. unfold parse_pe in Hparse.
  destruct (after_all_kept _ _ ms Hparse) as (_ & Hfresh). fold s in Hfresh.
  split; intros Hgrow.
  - destruct (resize_directory_grow_run s idx size k sec_idx dd sec Hfresh Hk Hdd Hsec Hlook
                Hgrow) as (e & He & Hcase).
    exists e. split; [|exact Hcase]. unfold resize_directory, mbind. rewrite He. reflexivity.
  - destruct (resize_directory_grow_run s idx (len new_blob) k sec_idx dd sec Hfresh Hk Hdd
                Hsec Hlook Hgrow) as (e & He & Hcase).
    exists e. split; [|exact Hcase]. unfold set_directory, mbind. rewrite He. reflexivity.
Qed.

Lemma calls_never_grow_witness :
  exists e,
    set_directory 1 (replicate 0x101 x00) (after_all [call_remove_signature] (sample_image false))
    = (Raise e, after_all [call_remove_signature] (sample_image false)) /\
    (e = AttributeError \/ e = IndexError).
Proof.
  refine (proj2 (calls_never_grow (sample_pe false) (sample_image false) [call_remove_signature]
                   1 0x101 (replicate 0x101 x00) 1 1 (DataDirectory.mk 0x2000 0x100)
                   (mk_PeSection
                      (SectionHeader.mk [x2e; x69; x64; x61; x74; x61; x00; x00]
                         0x100 0x2000 0x200 0x400 0 0 0 0 0)
                      (Some (replicate 0x200 x11)) None None)
                   (parse_sample_pe false) _ _ _ _) _).
  - vm_compute. reflexivity.
  - vm_compute. reflexivity.
  - vm_compute. reflexivity.
  - vm_compute. reflexivity.
  - vm_compute. reflexivity.
Defined.

(** ** Storing and parsing again *)

Lemma init_wf (blob : list byte) (self : _PeFile) :
  __init__ blob = Ok self ->
  blob_load_H blob 0x3c = Ok (len (_dos_stub self)) /\
  (OptionalHeader.struct (_opt_header self) = OptionalHeader.PE32Plus ->
   OptionalHeader.BaseOfData (_opt_header self) = None) /\
  length (_data_directories self)
  = Z.to_nat (OptionalHeader.NumberOfRvaAndSizes (_opt_header self)) /\
  length (_sections self) = Z.to_nat (FileHeader.NumberOfSections (_file_header self)) /\
  Forall (fun sec => length (SectionHeader.Name (hdr sec)) = 8%nat) (_sections self).
Proof.
  intros H. destruct (init_facts _ _ H)
    as (pe_offs & fin_hdr & fin_opt & fin_dds & fin_end & last_sec & Hload & Hsig & _ & _ &
        Hopt & _ & _ & _ & Hdds & Hsecs & _ & _ & _ & _ & Hstub & _).
  pose proof (blob_load_H_inv _ _ _ Hload) as Hpe.
  unfold blob_seek in Hsig. rewrite py_slice_suffix in Hsig by lia.
  rewrite py_slice_prefix in Hstub by lia.
  assert (Hstubl : len (_dos_stub self) = pe_offs).
  { apply (f_equal (@length byte)) in Hsig. rewrite length_take, length_drop in Hsig.
    cbn [PE_signature length] in Hsig.
    rewrite Hstub. unfold len. rewrite length_take. lia. }
  assert (Hopt' : OptionalHeader.parse32 (le_decode (take 2 fin_hdr)) (drop 2 fin_hdr)
                  = Ok (_opt_header self, fin_opt) \/
                  OptionalHeader.parse64 (le_decode (take 2 fin_hdr)) (drop 2 fin_hdr)
                  = Ok (_opt_header self, fin_opt))
    by (destruct Hopt as [[_ Hp]|[_ Hp]]; [left | right]; exact Hp).
  destruct (OptionalHeader_parse_pack _ _ _ _ Hopt') as (_ & _ & _ & _ & _ & Hbod).
  destruct (parse_data_directories_facts _ _ _ _ Hdds) as (Hlen & _).
  destruct (parse_sections_facts _ _ _ _ _ _ _ Hsecs) as (Hlens & Hall & _).
  split; [rewrite Hstubl; exact Hload|]. split; [apply Hbod|].
  split; [exact Hlen|]. split; [exact Hlens|].
  eapply Forall_impl; [exact Hall|]. cbv beta. intros sec Hs. tauto.
Qed.

Lemma store_ok_backed (blob : list byte) (self self' : _PeFile) (out : list byte) :
  __init__ blob = Ok self -> store self = (Ok out, self') ->
  Forall (fun sec => sec_PointerToRawData sec <> 0) (_sections self).
Proof.
  intros Hparse Hstore. pose proof (init_as_parsed _ _ Hparse) as Hfresh.
  rewrite Forall_forall in *. intros sec Hin Hptr.
  destruct (Hfresh sec Hin) as (_ & _ & Hdata).
  destruct (store_absent_data self) as (e & s & He).
  - apply in_map_iff. exists sec. split; [apply Hdata, Hptr | apply list_elem_of_In, Hin].
  - congruence.
Qed.

Lemma raw_chain_map (g : _PeSection -> _PeSection) (secs : list _PeSection) :
  (forall sec, hdr (g sec) = hdr sec) ->
  forall a b, raw_chain secs a b -> raw_chain (map g secs) a b.
Proof.
  intros Hg. induction secs as [|sec secs IH]; intros a b H; [exact H|].
  destruct H as [Hptr H]. cbn [map raw_chain].
  unfold sec_PointerToRawData, sec_SizeOfRawData in *. rewrite Hg.
  split; [exact Hptr | apply IH, H].
Qed.

Lemma fin_read_app (a b : list byte) : fin_read (length a) (a ++ b) = (a, b).
Proof. unfold fin_read. rewrite take_app_length, drop_app_length. reflexivity. Qed.

(** What the parser has established and no call undoes. *)
Lemma image_kept_wf (blob : list byte) (self0 self : _PeFile) :
  __init__ blob = Ok self0 -> image_kept self0 self ->
  exists fh magic P Q cs rest,
    FileHeader.pack (_file_header self) = Ok fh /\
    pack_uint 2 (OptionalHeader.sig (_opt_header self)) = Ok magic /\
    len P = 62 /\
    (forall c, 0 <= c < 2 ^ 32 ->
               OptionalHeader.pack (OptionalHeader.set_CheckSum c (_opt_header self))
               = Ok (P ++ le_encode 4 c ++ Q)) /\
    blob = (_dos_stub self ++ PE_signature ++ fh ++ magic ++ P) ++ le_encode 4 cs ++ rest /\
    blob_load_H blob 0x3c = Ok (len (_dos_stub self)) /\
    _checksum_offs self = len (_dos_stub self) + 88 /\
    (OptionalHeader.sig (_opt_header self) = IMAGE_NT_OPTIONAL_HDR32_MAGIC /\
     OptionalHeader.struct (_opt_header self) = OptionalHeader.PE32 \/
     OptionalHeader.sig (_opt_header self) = IMAGE_NT_OPTIONAL_HDR64_MAGIC /\
     OptionalHeader.struct (_opt_header self) = OptionalHeader.PE32Plus) /\
    (OptionalHeader.struct (_opt_header self) = OptionalHeader.PE32Plus ->
     OptionalHeader.BaseOfData (_opt_header self) = None) /\
    length (_data_directories self)
    = Z.to_nat (OptionalHeader.NumberOfRvaAndSizes (_opt_header self)) /\
    length (_sections self) = Z.to_nat (FileHeader.NumberOfSections (_file_header self)) /\
    Forall (fun sec => length (SectionHeader.Name (hdr sec)) = 8%nat) (_sections self).
Proof.
  intros Hparse (K1 & _ & K3 & K4 & _ & (c0 & K6) & K7 & K8).
  destruct (init_image _ _ Hparse)
    as (fh & magic & oh & dds & shs & rest & Hfh & Hmagic & Hoh & _ & _ & Hblob & Hoffs & _ &
        Hsig).
  destruct (init_wf _ _ Hparse) as (Hload & Hbod & Hndds & Hnsecs & Hnames).
  destruct (OptionalHeader_pack_checksum _ _ Hoh) as (P & Q & HP & HohPQ & Hset).
  exists fh, magic, P, (Q), (OptionalHeader.CheckSum (_opt_header self0)),
    (Q ++ concat dds ++ concat shs ++ rest).
  rewrite K1, K3, K4, K6, K7.
  change (OptionalHeader.sig (OptionalHeader.set_CheckSum c0 (_opt_header self0)))
    with (OptionalHeader.sig (_opt_header self0)).
  change (OptionalHeader.struct (OptionalHeader.set_CheckSum c0 (_opt_header self0)))
    with (OptionalHeader.struct (_opt_header self0)).
  change (OptionalHeader.BaseOfData (OptionalHeader.set_CheckSum c0 (_opt_header self0)))
    with (OptionalHeader.BaseOfData (_opt_header self0)).
  change (OptionalHeader.NumberOfRvaAndSizes
            (OptionalHeader.set_CheckSum c0 (_opt_header self0)))
    with (OptionalHeader.NumberOfRvaAndSizes (_opt_header self0)).
  split; [exact Hfh|]. split; [exact Hmagic|]. split; [exact HP|]. split; [exact Hset|].
  split; [rewrite Hblob at 1; rewrite HohPQ, <- !app_assoc; reflexivity|].
  split; [exact Hload|]. split; [exact Hoffs|]. split; [exact Hsig|]. split; [exact Hbod|].
  split; [exact Hndds|].
  split; [rewrite <- Hnsecs; symmetry; eapply Forall2_length, K8|].
  clear - K8 Hnames. induction K8 as [|x y l l' (Hn & _) _ IH]; [constructor|].
  inversion Hnames; subst. constructor; [congruence | auto].
Qed.

(** An image that has kept what the parser established, with a raw
    pointer in every section and data in one of them, is stored to a file
    that parses again, to the image itself under the new raw pointers,
    raw sizes and checksum. *)
Lemma store_parse_facts (blob : list byte) (self0 self self' : _PeFile)
    (out : list byte) :
  parse_pe blob = Ok self0 ->
  image_kept self0 self ->
  store self = (Ok out, self') ->
  Forall (fun sec => sec_PointerToRawData sec <> 0) (_sections self) ->
  (exists sec d, In sec (_sections self) /\ data sec = Some d /\ d <> []) ->
  exists self2,
    parse_pe out = Ok self2 /\
    _dos_stub self2 = _dos_stub self /\
    _file_header self2 = _file_header self /\
    _opt_header self2
    = OptionalHeader.set_CheckSum (OptionalHeader.CheckSum (_opt_header self2))
        (_opt_header self) /\
    _data_directories self2 = _data_directories self /\
    _trailer self2 = _trailer self /\
    _sections self2 = map (fun sec => section_of_header out (hdr sec)) (_sections self') /\
    Forall2 (fun sec sec2 =>
               (exists ptr size,
                   hdr sec2 = SectionHeader.set_SizeOfRawData size
                                (SectionHeader.set_PointerToRawData ptr (hdr sec))) /\
               exists d, data sec = Some d /\
                         data sec2 = Some (d ++ PadBlob (sec_SizeOfRawData sec2 - len d)) /\
                         (OptionalHeader.FileAlignment (_opt_header self)
                          | sec_SizeOfRawData sec2) /\
                         len d <= sec_SizeOfRawData sec2
                         < len d + OptionalHeader.FileAlignment (_opt_header self))
      (_sections self) (_sections self2).
Proof.
  intros Hparse Hkept Hstore Hbacked (sec0 & d0 & Hin0 & Hd0 & Hne0). unfold parse_pe in *.
  destruct (image_kept_wf _ _ _ Hparse Hkept)
    as (fhb & magicb & P & Q & cs & restb & Hfhb & Hmagicb & HP & Hset & Hblob & Hload &
        Hoffs & Hsig & Hbod & Hndds & Hnsecs & Hnames).
  destruct (store_image _ _ _ Hstore Hoffs)
    as (off0 & c & fh & magic & oh & dds & shs & pieces & Hoff & Hfh & Hmagic & Hoh & Hdds &
        Hshs & Hpieces & Hout & Hhead & Hc & A & B & HA & HoutAB & Hsum).
  destruct (store_layout_facts _ _ _ Hstore)
    as (Hpos & off0' & stop' & Hoff' & Hdiv & Hrange & _ & Hfb & Hsecs').
  destruct (store_output_facts _ _ _ Hstore Hoffs Hbacked)
    as (Hdata & off0'' & stop & Hoff'' & Hchain & Htrailer & Hlen & Hstub).
  assert (off0' = off0) by congruence. assert (off0'' = off0) by congruence. subst off0' off0''.
  clear Hoff' Hoff''.
  assert (fhb = fh) by congruence. assert (magicb = magic) by congruence. subst fhb magicb.
  clear Hfhb Hmagicb.
  assert (HohPQ : oh = P ++ le_encode 4 c ++ Q)
    by (pose proof (Hset c Hc) as Hoh2; rewrite Hoh in Hoh2; congruence).
  pose proof (pack_fields_len _ _ _ Hfh) as Lfh.
  change (layout_size _IMAGE_FILE_HEADER) with 20 in Lfh.
  assert (Lfh' : length fh = 20%nat) by (unfold len in Lfh; lia).
  pose proof Hmagic as Hmagic'. apply pack_uint_inv in Hmagic' as [Hm Hsigr].
  assert (Lm : length magic = 2%nat) by (rewrite Hm; apply length_le_encode).
  assert (Lmz : len magic = 2) by (unfold len; rewrite Lm; reflexivity).
  pose proof (len_nonneg (_dos_stub self)) as Hstub0.
  set (opt2 := OptionalHeader.set_CheckSum c (_opt_header self)) in *.
  set (secs2 := map (fun sec => section_of_header out (hdr sec)) (_sections self')).
  set (tail := PadBlob (off0 - header_end self) ++ concat pieces ++ _trailer self).
  assert (Hout' : out = _dos_stub self ++ PE_signature ++ fh ++ magic ++ oh ++ concat dds
                        ++ concat shs ++ tail)
    by (rewrite Hout at 1; unfold tail; rewrite <- !app_assoc; reflexivity).
  (* the offset of the PE header *)
  assert (Hload2 : blob_load_H out 0x3c = Ok (len (_dos_stub self))).
  { rewrite <- Hload. rewrite Hout' at 1. rewrite Hblob at 1. rewrite HohPQ.
    set (A0 := _dos_stub self ++ PE_signature ++ fh ++ magic ++ P).
    replace (_dos_stub self ++ PE_signature ++ fh ++ magic
             ++ (P ++ le_encode 4 c ++ Q) ++ concat dds ++ concat shs ++ tail)
      with (A0 ++ le_encode 4 c ++ Q ++ concat dds ++ concat shs ++ tail)
      by (unfold A0; rewrite <- !app_assoc; reflexivity).
    assert (62 <= len A0).
    { unfold A0. rewrite !len_app, Lfh, Lmz, HP. change (len PE_signature) with 4. lia. }
    etransitivity; [apply blob_load_H_app; assumption|].
    symmetry. apply blob_load_H_app. assumption. }
  assert (Hseek : blob_seek out (len (_dos_stub self))
                  = PE_signature ++ fh ++ magic ++ oh ++ concat dds ++ concat shs ++ tail).
  { unfold blob_seek. rewrite py_slice_suffix by lia. rewrite Hout' at 1.
    unfold len. rewrite Nat2Z.id. apply drop_app_length. }
  (* the sections of the stored object *)
  pose proof (store_frame_facts self) as Hframe. rewrite Hstore in Hframe. cbn [fst snd] in Hframe.
  destruct Hframe as (_ & _ & _ & _ & _ & _ & _ & _ & _ & Hmoved).
  assert (Hall' : Forall (fun sec' => file_backed sec' = true) (_sections self')).
  { clear - Hfb Hbacked. induction Hfb as [|sec sec' secs secs' Hs _ IH]; [constructor|].
    inversion Hbacked as [|? ? Hnz Hrest]; subst. constructor; [|apply IH; exact Hrest].
    rewrite Hs. unfold file_backed. apply negb_true_iff, Z.eqb_neq. exact Hnz. }
  assert (Hwf' : Forall (fun sec =>
                           length (SectionHeader.Name (hdr sec)) = 8%nat /\
                           sec_PointerToRawData sec mod OptionalHeader.FileAlignment opt2 = 0 /\
                           sec_SizeOfRawData sec mod OptionalHeader.FileAlignment opt2 = 0)
                   (_sections self')).
  { change (OptionalHeader.FileAlignment opt2)
      with (OptionalHeader.FileAlignment (_opt_header self)).
    rewrite Forall_forall. intros sec' Hin'.
    rewrite Forall_forall in Hall'.
    destruct (Hsecs' sec' (proj1 (list_elem_of_In _ _) Hin') (Hall' _ Hin'))
      as (Hp & Hs & _).
    apply Z.mod_divide in Hp; [|lia]. apply Z.mod_divide in Hs; [|lia].
    split; [|split; assumption].
    destruct (list_elem_of_lookup_1 _ _ Hin') as [i Hi].
    destruct (Forall2_lookup_r _ _ _ _ _ Hmoved Hi) as (sec & Hsec & (ptr & size & ->) & _).
    rewrite Forall_forall in Hnames. apply (Hnames sec).
    eapply list_elem_of_lookup_2, Hsec. }
  assert (Hlen' : length (_sections self') = length (_sections self))
    by (symmetry; eapply Forall2_length, Hmoved).
  (* the headers *)
  assert (Hopt2 : forall X,
             (if OptionalHeader.sig (_opt_header self) =? IMAGE_NT_OPTIONAL_HDR32_MAGIC
              then OptionalHeader.parse32 (OptionalHeader.sig (_opt_header self)) (oh ++ X)
              else if OptionalHeader.sig (_opt_header self) =? IMAGE_NT_OPTIONAL_HDR64_MAGIC
                   then OptionalHeader.parse64 (OptionalHeader.sig (_opt_header self)) (oh ++ X)
                   else Raise (RuntimeError "Unknown optional header type."))
             = Ok (opt2, X)).
  { intros X. destruct (OptionalHeader_pack_parse _ _ X Hoh) as (H32 & H64).
    destruct Hsig as [[Hs Hv]|[Hs Hv]].
    - replace (OptionalHeader.sig (_opt_header self) =? IMAGE_NT_OPTIONAL_HDR32_MAGIC)
        with true by (rewrite Hs; reflexivity).
      apply H32. exact Hv.
    - replace (OptionalHeader.sig (_opt_header self) =? IMAGE_NT_OPTIONAL_HDR32_MAGIC)
        with false by (rewrite Hs; reflexivity).
      replace (OptionalHeader.sig (_opt_header self) =? IMAGE_NT_OPTIONAL_HDR64_MAGIC)
        with true by (rewrite Hs; reflexivity).
      apply H64; [exact Hv | apply Hbod, Hv]. }
  (* the checksum *)
  assert (Hsum2 : pe_checksum
                    [py_slice out None (Some (len (_dos_stub self) + 4 + FileHeader.size + 4 * 16));
                     [x00; x00; x00; x00];
                     py_slice out (Some (len (_dos_stub self) + 4 + FileHeader.size + 4 * 16 + 4))
                       None] = Ok c).
  { change (len (_dos_stub self) + 4 + FileHeader.size + 4 * 16)
      with (len (_dos_stub self) + 4 + 20 + 4 * 16).
    replace (len (_dos_stub self) + 4 + 20 + 4 * 16) with (_checksum_offs self) by lia.
    rewrite py_slice_prefix, py_slice_suffix by lia.
    destruct (take_drop_middle_bytes A (le_encode 4 c) B _ HA) as (Ht & _ & Hd).
    rewrite <- HoutAB, length_le_encode in *.
    replace (Z.to_nat (_checksum_offs self + 4)) with (Z.to_nat (_checksum_offs self) + 4)%nat
      by lia.
    rewrite Ht, Hd, pe_checksum_join. unfold join_blobs at 1. cbn [concat].
    rewrite app_nil_r. exact Hsum. }
  assert (Hcpos : c <> 0).
  { pose proof (checksum_untruncated_bounds (A ++ [x00; x00; x00; x00] ++ B)) as Hb.
    rewrite pe_checksum_spec, join_blobs_single in Hsum.
    destruct (Z.even _); [|discriminate Hsum].
    rewrite len_app in Hb. pose proof (len_nonneg A). pose proof (len_nonneg B).
    rewrite len_app in Hb. change (len [x00; x00; x00; x00]) with 4 in Hb.
    assert (checksum_untruncated (A ++ [x00; x00; x00; x00] ++ B) = c) by congruence. lia. }
  (* the directories and the section table *)
  assert (Hdds2 : forall X,
             parse_data_directories
               (Z.to_nat (OptionalHeader.NumberOfRvaAndSizes opt2)) (concat dds ++ X)
             = Ok (_data_directories self, X)).
  { intros X. change (OptionalHeader.NumberOfRvaAndSizes opt2)
      with (OptionalHeader.NumberOfRvaAndSizes (_opt_header self)).
    rewrite <- Hndds. apply parse_data_directories_pack, Hdds. }
  assert (Hsecs2 : parse_sections out opt2
                     (Z.to_nat (FileHeader.NumberOfSections (_file_header self))) 0
                     (concat shs ++ tail) = Ok (secs2, tail)).
  { rewrite <- Hnsecs, <- Hlen'. apply parse_sections_pack; assumption. }
  (* the sections with raw data *)
  assert (Hsize0 : Forall (fun sec => 0 <= sec_SizeOfRawData sec) secs2).
  { unfold secs2. rewrite Forall_forall. intros sec2 Hin2.
    apply list_elem_of_In, in_map_iff in Hin2 as (sec' & <- & Hin').
    destruct (Hdata sec' Hin') as (d & _ & Hle & _). pose proof (len_nonneg d).
    unfold sec_SizeOfRawData in *. cbn [section_of_header hdr]. lia. }
  assert (Hchain2 : raw_chain secs2 off0 stop)
    by (apply raw_chain_map; [reflexivity | exact Hchain]).
  set (pres := List.filter (fun sec => negb (sec_SizeOfRawData sec =? 0)) secs2).
  assert (Hpres : raw_chain pres off0 stop) by apply raw_chain_filter, Hchain2.
  assert (Hsorted : sorted sec_PointerToRawData pres = pres).
  { apply (sorted_chain _ _ _ Hpres). rewrite Forall_forall in *. intros sec Hin.
    apply Hsize0. apply list_elem_of_In. apply list_elem_of_In in Hin.
    apply filter_In in Hin as [Hin _]. exact Hin. }
  assert (Hlast : exists last_sec, last pres = Some last_sec).
  { destruct (last pres) as [z|] eqn:El; [eauto | exfalso].
    apply last_None in El.
    apply list_elem_of_In in Hin0. destruct (list_elem_of_lookup_1 _ _ Hin0) as [i Hi].
    destruct (Forall2_lookup_l _ _ _ _ _ Hmoved Hi) as (sec0' & Hi' & (ptr & size & Heq) & _).
    assert (Hin' : In sec0' (_sections self'))
      by (apply list_elem_of_In; eapply list_elem_of_lookup_2, Hi').
    destruct (Hdata sec0' Hin') as (d & Hd & Hle & _).
    assert (d = d0) by (rewrite Heq in Hd; cbn [set_hdr data] in Hd; congruence). subst d.
    assert (0 < len d0) by (destruct d0; [congruence | unfold len; cbn [length]; lia]).
    assert (Hin2 : In (section_of_header out (hdr sec0')) pres).
    { apply filter_In. split.
      - unfold secs2. apply in_map_iff. exists sec0'. auto.
      - apply negb_true_iff, Z.eqb_neq. unfold sec_SizeOfRawData in *.
        cbn [section_of_header hdr]. lia. }
    rewrite El in Hin2. destruct Hin2. }
  destruct Hlast as [last_sec Hlast].
  pose proof (check_holes_of_chain _ _ _ Hpres) as Hholes.
  pose proof (raw_chain_last _ _ _ _ Hpres Hlast) as Hend.
  assert (Hstop0 : 0 <= stop).
  { rewrite Hout in Hlen. rewrite len_app, Hhead, len_app in Hlen.
    pose proof (len_nonneg (concat pieces)). pose proof (header_end_pos self). lia. }
  (* the virtual addresses *)
  set (self2 := mk_PeFile (len (_dos_stub self) + 4 + FileHeader.size + 4 * 16) out
                  (_dos_stub self) (_file_header self) opt2 (_data_directories self) secs2
                  stop (_trailer self)).
  assert (Hvm2 : _check_vm_overlaps self2 = Ok tt).
  { destruct (store_inv _ _ _ Hstore) as (? & ? & ? & ? & ? & ? & ? & ? & ? & Hvm & _).
    unfold _check_vm_overlaps in *. cbn [self2 _opt_header _sections].
    change (OptionalHeader.SectionAlignment opt2)
      with (OptionalHeader.SectionAlignment (_opt_header self)).
    revert Hvm. apply check_vm_overlaps_loop_shrunk; [|constructor].
    apply sorted_Forall2; [intros a b [Hva _]; exact Hva|].
    unfold secs2. clear - Hmoved.
    induction Hmoved as [|sec sec' secs secs' [(ptr & size & ->) _] _ IH]; cbn [map];
      constructor; [|exact IH].
    split; [reflexivity|]. unfold sec_VirtualSize. cbn. lia. }
  assert (Hmagic2 : forall X, fin_read 2 (magic ++ X) = (magic, X))
    by (intros X; rewrite <- Lm; apply fin_read_app).
  assert (Hsame : Forall2 (fun sec sec2 =>
                             (exists ptr size,
                                 hdr sec2 = SectionHeader.set_SizeOfRawData size
                                              (SectionHeader.set_PointerToRawData ptr (hdr sec))) /\
                             exists d, data sec = Some d /\
                                       data sec2
                                       = Some (d ++ PadBlob (sec_SizeOfRawData sec2 - len d)) /\
                                       (OptionalHeader.FileAlignment (_opt_header self)
                                        | sec_SizeOfRawData sec2) /\
                                       len d <= sec_SizeOfRawData sec2
                                       < len d + OptionalHeader.FileAlignment (_opt_header self))
                    (_sections self) secs2).
  { unfold secs2.
    change (map (fun sec => section_of_header out (hdr sec)) (_sections self'))
      with ((fun sec => section_of_header out (hdr sec)) <$> _sections self').
    apply Forall2_fmap_r. apply Forall2_same_length_lookup_2; [eapply Forall2_length, Hmoved|].
    intros i sec sec' Hi Hi'.
    destruct (Forall2_lookup_lr _ _ _ _ _ _ Hmoved Hi Hi') as [(ptr & size & Heq) _].
    assert (Hin' : In sec' (_sections self'))
      by (apply list_elem_of_In; eapply list_elem_of_lookup_2, Hi').
    destruct (Hdata sec' Hin') as (d & Hd & _ & Hslice).
    rewrite Forall_forall in Hall'.
    pose proof (Hall' sec' (proj2 (list_elem_of_In _ _) Hin')) as Hb.
    unfold file_backed in Hb. apply negb_true_iff in Hb.
    cbv beta. unfold compose. split.
    - exists ptr, size. rewrite Heq. reflexivity.
    - exists d. split; [rewrite Heq in Hd; exact Hd|].
      destruct (Hsecs' sec' Hin' (Hall' sec' (proj2 (list_elem_of_In _ _) Hin')))
        as (_ & Hsdiv & d' & Hd' & Hbounds).
      assert (d' = d) by congruence. subst d'.
      split; [|split; [exact Hsdiv | exact Hbounds]].
      unfold section_of_header. cbn [data]. unfold sec_PointerToRawData in Hb.
      rewrite Hb. unfold sec_SizeOfRawData at 1. cbn [hdr].
      f_equal. exact Hslice. }
  exists self2. split; [|repeat split; try reflexivity; exact Hsame].
  unfold __init__. rewrite Hload2. cbn [rbind]. rewrite Hseek.
  change (fin_read 4) with (fin_read (length PE_signature)). rewrite fin_read_app.
  cbv beta iota zeta. rewrite bytes_eqb_refl. cbn [negb].
  rewrite (FileHeader_pack_parse _ _ _ Hfh). cbn [rbind]. cbv beta iota zeta.
  rewrite Hmagic2. cbv beta iota zeta. rewrite Lm. cbn [Nat.eqb rbind].
  assert (Hdec : le_decode magic = OptionalHeader.sig (_opt_header self))
    by (rewrite Hm; apply le_decode_encode; exact Hsigr).
  rewrite Hdec, Hopt2. cbn [rbind]. cbv beta iota zeta.
  change (OptionalHeader.CheckSum opt2) with c.
  replace (c =? 0) with false by (symmetry; apply Z.eqb_neq; exact Hcpos).
  cbn [negb]. rewrite Hsum2. cbn [rbind]. rewrite Z.eqb_refl. cbn [negb rbind].
  replace (OptionalHeader.FileAlignment opt2 =? 0) with false
    by (symmetry; apply Z.eqb_neq;
        change (OptionalHeader.FileAlignment opt2)
          with (OptionalHeader.FileAlignment (_opt_header self)); lia).
  rewrite Hdds2. cbn [rbind]. cbv beta iota zeta. rewrite Hsecs2. cbn [rbind fst].
  fold pres. rewrite Hsorted, Hlast, Hholes. cbn [rbind]. rewrite Hend.
  rewrite py_slice_prefix, py_slice_suffix, Hstub, Htrailer by lia.
  fold self2. rewrite Hvm2. reflexivity.
Qed.

(** A parsed image with some data, stored, parses again: to the same
    stub, file header, data directories and trailer, the optional header
    under the new checksum, and the sections under their new raw pointers
    and sizes, each with its data filled with zeros to the raw size, which
    is the length of the data aligned up. *)
Theorem store_parse_round_trip (blob : list byte) (self self' : _PeFile) (out : list byte) :
  parse_pe blob = Ok self ->
  store self = (Ok out, self') ->
  (exists sec d, In sec (_sections self) /\ data sec = Some d /\ d <> []) ->
  exists self2,
    parse_pe out = Ok self2 /\
    _dos_stub self2 = _dos_stub self /\
    _file_header self2 = _file_header self /\
    _opt_header self2
    = OptionalHeader.set_CheckSum (OptionalHeader.CheckSum (_opt_header self2))
        (_opt_header self) /\
    _data_directories self2 = _data_directories self /\
    _trailer self2 = _trailer self /\
    _sections self2 = map (fun sec => section_of_header out (hdr sec)) (_sections self') /\
    Forall2 (fun sec sec2 =>
               (exists ptr size,
                   hdr sec2 = SectionHeader.set_SizeOfRawData size
                                (SectionHeader.set_PointerToRawData ptr (hdr sec))) /\
               exists d, data sec = Some d /\
                         data sec2 = Some (d ++ PadBlob (sec_SizeOfRawData sec2 - len d)) /\
                         (OptionalHeader.FileAlignment (_opt_header self)
                          | sec_SizeOfRawData sec2) /\
                         len d <= sec_SizeOfRawData sec2
                         < len d + OptionalHeader.FileAlignment (_opt_header self))
      (_sections self) (_sections self2).
Proof.
  intros Hparse Hstore Hne.
  exact (store_parse_facts blob self self self' out Hparse (image_kept_refl self) Hstore
           (store_ok_backed _ _ _ _ Hparse Hstore) Hne).
Qed.

Lemma store_parse_round_trip_witness :
  exists self2,
    parse_pe sample_pe_summed = Ok self2 /\
    _data_directories self2 = _data_directories (sample_image false) /\
    _trailer self2 = _trailer (sample_image false).
Proof.
  destruct (store_parse_round_trip _ _ _ _ (parse_sample_pe false) store_sample)
    as (self2 & H1 & _ & _ & _ & H2 & H3 & _).
  - exists (mk_PeSection
              (SectionHeader.mk [x2e; x74; x65; x78; x74; x00; x00; x00]
                 0x100 0x1000 0x200 0x200 0 0 0 0 0)
              (Some (replicate 0x200 xcc)) None None), (replicate 0x200 xcc).
    split; [left; reflexivity|]. split; [reflexivity | discriminate].
  - exists self2. split; [exact H1|]. split; [exact H2 | exact H3].
Defined.

Lemma raw_chain_bounds (secs : list _PeSection) :
  forall a b,
    raw_chain secs a b -> Forall (fun sec => 0 <= sec_SizeOfRawData sec) secs ->
    a <= b /\
    Forall (fun sec => a <= sec_PointerToRawData sec /\
                       sec_PointerToRawData sec + sec_SizeOfRawData sec <= b) secs.
Proof.
  induction secs as [|sec secs IH]; intros a b H Hall.
  - cbn [raw_chain] in H. split; [lia | constructor].
  - destruct H as [Hptr H]. inversion Hall as [|? ? Hs Hall']; subst.
    destruct (IH _ _ H Hall') as (Hle & Hrest). split; [lia|].
    constructor; [lia|]. eapply Forall_impl; [exact Hrest|]. cbv beta. intros s Hs'. lia.
Qed.

Lemma len_py_slice {A} (l : list A) (a b : Z) :
  0 <= a <= b ->
  len (py_slice l (Some a) (Some b)) = Z.min (b - a) (Z.max 0 (len l - a)).
Proof.
  intros Hab. rewrite py_slice_nonneg by lia. unfold len.
  rewrite length_take, length_drop. lia.
Qed.

(** In a parsed image whose file reaches [_trailer_offset], every section
    has as many bytes of data as its raw size says. *)
Lemma init_untruncated (blob : list byte) (self : _PeFile) :
  __init__ blob = Ok self ->
  _trailer_offset self <= len blob ->
  Forall (fun sec => sec_PointerToRawData sec <> 0) (_sections self) ->
  (exists sec d, In sec (_sections self) /\ data sec = Some d /\ d <> []) /\
  Forall (fun sec => forall d, data sec = Some d ->
                               len d = sec_SizeOfRawData sec /\
                               sec_SizeOfRawData sec
                                 mod OptionalHeader.FileAlignment (_opt_header self) = 0)
    (_sections self) /\
  exists sec, In sec (_sections self) /\ sec_SizeOfRawData sec <> 0.
Proof.
  intros H Hlen Hbacked.
  destruct (init_facts _ _ H)
    as (pe_offs & fin_hdr & fin_opt & fin_dds & fin_end & last_sec & _ & _ & _ & _ &
        _ & _ & _ & _ & _ & Hsecs & Hlast & Hholes & Hoff & _).
  destruct (parse_sections_facts _ _ _ _ _ _ _ Hsecs) as (_ & Hall & _).
  assert (Hin : forall sec, In sec (present_sections (_sections self)) <->
                            In sec (_sections self) /\ sec_SizeOfRawData sec <> 0).
  { intros sec. unfold present_sections.
    rewrite <- !list_elem_of_In, (sorted_perm sec_PointerToRawData), !list_elem_of_In.
    rewrite filter_In, negb_true_iff, Z.eqb_neq. reflexivity. }
  assert (Hsize0 : Forall (fun sec => 0 <= sec_SizeOfRawData sec)
                     (present_sections (_sections self))).
  { rewrite Forall_forall in *. intros sec Hs. apply list_elem_of_In, Hin in Hs as [Hs _].
    destruct (Hall sec (proj2 (list_elem_of_In _ _) Hs)) as (_ & _ & _ & Hr & _). lia. }
  assert (Hbound : Forall (fun sec => sec_PointerToRawData sec + sec_SizeOfRawData sec
                                      <= _trailer_offset self)
                     (present_sections (_sections self))).
  { destruct (present_sections (_sections self)) as [|first l] eqn:E; [constructor|].
    pose proof (check_holes_chain _ first last_sec Hholes eq_refl Hlast) as Hchain.
    rewrite <- Hoff in Hchain.
    destruct (raw_chain_bounds _ _ _ Hchain Hsize0) as (_ & Hb).
    eapply Forall_impl; [exact Hb|]. cbv beta. intros s Hs. lia. }
  assert (Hfull : Forall (fun sec => forall d, data sec = Some d ->
                                               len d = sec_SizeOfRawData sec /\
                                               sec_SizeOfRawData sec
                                                 mod OptionalHeader.FileAlignment
                                                       (_opt_header self) = 0)
                    (_sections self)).
  { rewrite Forall_forall in *. intros sec Hs d Hd.
    destruct (Hall sec Hs) as (_ & Hmod & Hp & Hr & _ & _ & _ & Hdata).
    split; [|exact Hmod]. rewrite Hd in Hdata.
    destruct (sec_PointerToRawData sec =? 0); [discriminate|]. injection Hdata as ->.
    rewrite len_py_slice by lia.
    destruct (Z.eq_dec (sec_SizeOfRawData sec) 0) as [H0|H0]; [lia|].
    assert (Hp' : In sec (present_sections (_sections self)))
      by (apply Hin; split; [apply list_elem_of_In, Hs | exact H0]).
    pose proof (Hbound sec (proj2 (list_elem_of_In _ _) Hp')). lia. }
  assert (Hlast_in : In last_sec (present_sections (_sections self)))
    by (apply list_elem_of_In, last_Some_elem_of, Hlast).
  apply Hin in Hlast_in as [Hl Hnz].
  split; [|split; [exact Hfull | exists last_sec; auto]].
  pose proof (init_as_parsed _ _ H) as Hfresh. rewrite Forall_forall in *.
  destruct (data last_sec) as [d|] eqn:Ed.
  - exists last_sec, d. split; [exact Hl|]. split; [exact Ed|].
    destruct (Hfull last_sec (proj2 (list_elem_of_In _ _) Hl) d Ed) as (Hd & _).
    intros ->. change (len []) with 0 in Hd. lia.
  - exfalso. destruct (Hfresh last_sec (proj2 (list_elem_of_In _ _) Hl)) as (_ & _ & Hnone).
    apply (Hbacked last_sec (proj2 (list_elem_of_In _ _) Hl)). apply Hnone, Ed.
Qed.

Lemma multiple_between (a x r : Z) :
  0 < a -> (a | x) -> (a | r) -> x <= r < x + a -> r = x.
Proof.
  intros Ha [k ->] [m ->] H. assert (m = k) by nia. subst. reflexivity.
Qed.

(** Storing a parsed image whose file reaches [_trailer_offset] and
    parsing what was stored gives the stub, the file header, the data
    directories, the trailer and every section's data and header again,
    the raw pointers apart. *)
Theorem store_parse_same_data (blob : list byte) (self self' : _PeFile) (out : list byte) :
  parse_pe blob = Ok self ->
  store self = (Ok out, self') ->
  _trailer_offset self <= len blob ->
  exists self2,
    parse_pe out = Ok self2 /\
    _dos_stub self2 = _dos_stub self /\
    _file_header self2 = _file_header self /\
    _data_directories self2 = _data_directories self /\
    _trailer self2 = _trailer self /\
    Forall2 (fun sec sec2 =>
               data sec2 = data sec /\
               exists ptr, hdr sec2 = SectionHeader.set_PointerToRawData ptr (hdr sec))
      (_sections self) (_sections self2).
Proof.
  intros Hparse Hstore Hlen.
  pose proof (store_ok_backed _ _ _ _ Hparse Hstore) as Hbacked.
  destruct (init_untruncated _ _ Hparse Hlen Hbacked) as (Hne & Hfull & _).
  destruct (store_layout_facts _ _ _ Hstore) as (Hpos & _).
  destruct (store_parse_facts _ _ _ _ _ Hparse (image_kept_refl self) Hstore Hbacked Hne)
    as (self2 & H1 & H2 & H3 & _ & H5 & H6 & _ & Hrel).
  exists self2. repeat (split; [assumption|]).
  apply Forall2_same_length_lookup_2; [eapply Forall2_length, Hrel|].
  intros i sec sec2 Hi Hi2.
  destruct (Forall2_lookup_lr _ _ _ _ _ _ Hrel Hi Hi2)
    as ((ptr & size & Hhdr) & d & Hd & Hd2 & Hdiv & Hbounds).
  rewrite Forall_forall in Hfull.
  destruct (Hfull sec (list_elem_of_lookup_2 _ _ _ Hi) d Hd) as (Hld & Hmod).
  apply Z.mod_divide in Hmod; [|lia].
  assert (Hsz : sec_SizeOfRawData sec2 = len d).
  { apply (multiple_between _ _ _ Hpos); [rewrite Hld| |]; assumption. }
  split.
  - rewrite Hd2, Hd, Hsz, Z.sub_diag. change (PadBlob 0) with (@nil byte).
    rewrite app_nil_r. reflexivity.
  - exists ptr. rewrite Hhdr. unfold sec_SizeOfRawData in Hsz, Hld. rewrite Hhdr in Hsz.
    cbn in Hsz. rewrite Hsz, Hld. destruct (hdr sec). reflexivity.
Qed.

Lemma store_parse_same_data_witness :
  exists self2,
    parse_pe sample_pe_summed = Ok self2 /\
    Forall2 (fun sec sec2 =>
               data sec2 = data sec /\
               exists ptr, hdr sec2 = SectionHeader.set_PointerToRawData ptr (hdr sec))
      (_sections (sample_image false)) (_sections self2).
Proof.
  destruct (store_parse_same_data _ _ _ _ (parse_sample_pe false) store_sample)
    as (self2 & H1 & _ & _ & _ & _ & H2).
  - vm_compute. discriminate.
  - exists self2. split; [exact H1 | exact H2].
Defined.

(** After any calls on a parsed image whose sections all have a raw
    pointer, [store] writes a file that parses again, to the stub and file
    header of the image, the data directories and the trailer as the calls
    left them, and every section with the data the calls left it, filled
    with zeros to its new raw size. *)
Theorem calls_store_parse (blob : list byte) (self : _PeFile) (ms : list method)
    (out : list byte) (s' : _PeFile) :
  parse_pe blob = Ok self ->
  let s := after_all ms self in
  store s = (Ok out, s') ->
  Forall (fun sec => sec_PointerToRawData sec <> 0) (_sections s) ->
  (exists sec d, In sec (_sections s) /\ data sec = Some d /\ d <> []) ->
  exists self2,
    parse_pe out = Ok self2 /\
    _dos_stub self2 = _dos_stub self /\
    _file_header self2 = _file_header self /\
    _data_directories self2 = _data_directories s /\
    _trailer self2 = _trailer s /\
    Forall2 (fun sec sec2 =>
               SectionHeader.Name (hdr sec2) = SectionHeader.Name (hdr sec) /\
               sec_VirtualAddress sec2 = sec_VirtualAddress sec /\
               sec_VirtualSize sec2 = sec_VirtualSize sec /\
               exists d, data sec = Some d /\
                         data sec2 = Some (d ++ PadBlob (sec_SizeOfRawData sec2 - len d)) /\
                         len d <= sec_SizeOfRawData sec2)
      (_sections s) (_sections self2).
Proof.
  intros Hparse s Hstore Hbacked Hne.
  destruct (after_all_kept _ _ ms Hparse) as (Hkept & _). fold s in Hkept.
  destruct (store_parse_facts _ _ _ _ _ Hparse Hkept Hstore Hbacked Hne)
    as (self2 & H1 & H2 & H3 & _ & H5 & H6 & _ & Hrel).
  destruct Hkept as (_ & _ & K3 & K4 & _).
  exists self2. split; [exact H1|]. split; [congruence|]. split; [congruence|].
  split; [exact H5|]. split; [exact H6|].
  eapply Forall2_impl; [exact Hrel|]. cbv beta.
  intros sec sec2 ((ptr & size & Hhdr) & d & Hd & Hd2 & _ & Hle & _).
  unfold sec_VirtualAddress, sec_VirtualSize. rewrite Hhdr. cbn.
  repeat split; try reflexivity. exists d. auto.
Qed.

Lemma calls_store_parse_witness :
  exists out s' self2,
    store (after_all [call_remove_signature] (sample_image false)) = (Ok out, s') /\
    parse_pe out = Ok self2 /\
    _trailer self2 = [] /\
    _data_directories self2
    = _data_directories (after_all [call_remove_signature] (sample_image false)).
Proof.
  destruct (store (after_all [call_remove_signature] (sample_image false)))
    as [r s'] eqn:E.
  assert (Hr : is_ok r = true)
    by (replace r with (store (after_all [call_remove_signature] (sample_image false))).1
          by (rewrite E; reflexivity); vm_compute; reflexivity).
  destruct r as [out|e]; [|discriminate Hr].
  destruct (calls_store_parse (sample_pe false) (sample_image false) [call_remove_signature]
              out s' (parse_sample_pe false) E)
    as (self2 & H1 & _ & _ & H2 & H3 & _).
  - repeat constructor; vm_compute; discriminate.
  - exists (mk_PeSection
              (SectionHeader.mk [x2e; x74; x65; x78; x74; x00; x00; x00]
                 0x100 0x1000 0x200 0x200 0 0 0 0 0)
              (Some (replicate 0x200 xcc)) None None), (replicate 0x200 xcc).
    split; [left; reflexivity|]. split; [reflexivity | discriminate].
  - exists out, s', self2. split; [reflexivity|]. split; [exact H1|].
    split; [rewrite H3; vm_compute; reflexivity | exact H2].
Defined.

(** The contents given to [set_directory] are what a parse of the stored
    file reads back: after any calls on a parsed image whose sections all
    have a raw pointer, set a directory to contents that are not empty and
    fit the virtual size of its section (the first section that matches
    the directory, no earlier section covering the new range), store the
    image and parse the file; [get_vm] of the new range then returns the
    contents and the trailer is as it was. [find_directory] returns the
    new range when the address of the directory is not zero, and [None]
    when it is zero. *)
Theorem set_directory_store_parse (blob : list byte) (self : _PeFile) (ms : list method)
    (idx : Z) (new_blob : list byte) (k sec_idx : nat) (dd : DataDirectory.t)
    (sec : _PeSection) (out : list byte) (s' : _PeFile) :
  parse_pe blob = Ok self ->
  let s := after_all ms self in
  py_index (len (_data_directories s)) idx = Ok k ->
  _data_directories s !! k = Some dd ->
  _sections s !! sec_idx = Some sec ->
  directory_matches dd sec ->
  (forall j sec', (j < sec_idx)%nat -> _sections s !! j = Some sec' ->
     ~ directory_matches dd sec' /\
     ~ vm_covers sec' (DataDirectory.VirtualAddress dd)
         (DataDirectory.VirtualAddress dd + len new_blob)) ->
  0 < len new_blob <= sec_VirtualSize sec ->
  Forall (fun sec => sec_PointerToRawData sec <> 0) (_sections s) ->
  store (set_directory idx new_blob s).2 = (Ok out, s') ->
  exists self2,
    parse_pe out = Ok self2 /\
    get_vm self2 (DataDirectory.VirtualAddress dd)
      (DataDirectory.VirtualAddress dd + len new_blob) = Ok (Some new_blob) /\
    find_directory idx self2
    = Ok (if DataDirectory.VirtualAddress dd =? 0 then None
          else Some (mk_slice (DataDirectory.VirtualAddress dd)
                       (DataDirectory.VirtualAddress dd + len new_blob))) /\
    _trailer self2 = _trailer s.
Proof.
  intros Hparse s Hk Hdd Hlook Hmatch Hfirst [Hne Hle] Hbacked Hstore.
  destruct (set_directory_run s idx new_blob k sec_idx dd sec Hk Hdd Hlook Hmatch)
    as (s1 & Hrun & Hsecs & Hdds & Htr & _); [|exact Hle|].
  { intros j sec' Hj Hl. apply (Hfirst j sec' Hj Hl). }
  rewrite Hrun in Hstore. cbn [snd] in Hstore.
  set (sec1 := mk_PeSection (SectionHeader.set_VirtualSize (len new_blob) (hdr sec))
                 (Some new_blob) (attr_VirtualAddress sec) (attr_VirtualSize sec)) in *.
  assert (Hlook1 : _sections s1 !! sec_idx = Some sec1).
  { rewrite Hsecs. apply list_lookup_insert_eq. eapply lookup_lt_Some; exact Hlook. }
  assert (Hkept : image_kept self s1).
  { destruct (after_all_kept _ _ (ms ++ [call_set_directory idx new_blob]) Hparse)
      as (Hkept & _).
    unfold after_all in Hkept. rewrite fold_left_app in Hkept. cbn [fold_left after] in Hkept.
    fold (after_all ms self) in Hkept. fold s in Hkept. rewrite Hrun in Hkept. exact Hkept. }
  assert (Hbacked1 : Forall (fun sec => sec_PointerToRawData sec <> 0) (_sections s1)).
  { rewrite Hsecs. apply Forall_insert; [exact Hbacked|].
    rewrite Forall_forall in Hbacked.
    apply (Hbacked sec). eapply list_elem_of_lookup_2, Hlook. }
  assert (Hne1 : exists sec d, In sec (_sections s1) /\ data sec = Some d /\ d <> []).
  { exists sec1, new_blob. split; [|split; [reflexivity|]].
    - apply list_elem_of_In. eapply list_elem_of_lookup_2, Hlook1.
    - intros ->. change (len []) with 0 in Hne. lia. }
  destruct (store_parse_facts _ _ _ _ _ Hparse Hkept Hstore Hbacked1 Hne1)
    as (self2 & H1 & _ & _ & _ & H5 & H6 & _ & Hrel).
  exists self2. split; [exact H1|].
  destruct Hmatch as [Hva _].
  destruct (Forall2_lookup_l _ _ _ _ _ Hrel Hlook1)
    as (sec2 & Hlook2 & (ptr & size & Hhdr) & d & Hd & Hd2 & _ & Hsize).
  assert (d = new_blob) by (cbn [sec1 data] in Hd; congruence). subst d.
  split; [|split].
  - destruct (get_vm_run self2 sec_idx sec2
                (new_blob ++ PadBlob (sec_SizeOfRawData sec2 - len new_blob))
                (DataDirectory.VirtualAddress dd)
                (DataDirectory.VirtualAddress dd + len new_blob))
      as (bytes & Hget & _ & Hbytes); try assumption.
    + unfold vm_covers, sec_VirtualAddress, sec_VirtualSize in *. rewrite Hhdr. cbn. lia.
    + intros j s2 Hj Hs2.
      destruct (Forall2_lookup_r _ _ _ _ _ Hrel Hs2) as (sj & Hsj & (p & z & Hh) & _).
      rewrite Hsecs, list_lookup_insert_ne in Hsj by lia.
      destruct (Hfirst j sj Hj Hsj) as (_ & Hcov). intros Hc. apply Hcov.
      unfold vm_covers, sec_VirtualAddress, sec_VirtualSize in *. rewrite Hh in Hc.
      cbn in Hc. exact Hc.
    + lia.
    + unfold sec_VirtualAddress in *. rewrite Hhdr. cbn. lia.
    + rewrite len_app, len_PadBlob by lia. lia.
    + rewrite Hget, Hbytes. f_equal. f_equal. unfold vm_image.
      replace (DataDirectory.VirtualAddress dd - sec_VirtualAddress sec2) with 0
        by (unfold sec_VirtualAddress in *; rewrite Hhdr; cbn; lia).
      replace (DataDirectory.VirtualAddress dd + len new_blob - DataDirectory.VirtualAddress dd)
        with (len new_blob) by lia.
      change (Z.to_nat 0) with 0%nat. rewrite drop_0.
      rewrite (take_ge (new_blob ++ PadBlob (sec_SizeOfRawData sec2 - len new_blob)))
        by (rewrite length_app; unfold PadBlob; rewrite length_replicate; unfold len in *; lia).
      rewrite <- !app_assoc. unfold len. rewrite Nat2Z.id. apply take_app_length.
  - assert (Hk' : py_index (len (_data_directories self2)) idx = Ok k).
    { rewrite H5, Hdds. unfold len in *. rewrite length_insert. exact Hk. }
    destruct (find_directory_cases self2 idx k
                (DataDirectory.mk (DataDirectory.VirtualAddress dd) (len new_blob)) Hk')
      as (_ & H & _).
    + rewrite H5, Hdds. apply list_lookup_insert_eq. eapply lookup_lt_Some; exact Hdd.
    + exact H.
  - rewrite H6. exact Htr.
Qed.

Lemma set_directory_store_parse_witness :
  exists out s' self2,
    store (set_directory 1 [x01; x02; x03] (sample_image false)).2 = (Ok out, s') /\
    parse_pe out = Ok self2 /\
    get_vm self2 0x2000 0x2003 = Ok (Some [x01; x02; x03]).
Proof.
  destruct (store (set_directory 1 [x01; x02; x03] (sample_image false)).2)
    as [r s'] eqn:E.
  assert (Hr : is_ok r = true)
    by (replace r with (store (set_directory 1 [x01; x02; x03] (sample_image false)).2).1
          by (rewrite E; reflexivity); vm_compute; reflexivity).
  destruct r as [out|e]; [|discriminate Hr].
  destruct (set_directory_store_parse (sample_pe false) (sample_image false) []
              1 [x01; x02; x03] 1 1 (DataDirectory.mk 0x2000 0x100)
              (mk_PeSection
                 (SectionHeader.mk [x2e; x69; x64; x61; x74; x61; x00; x00]
                    0x100 0x2000 0x200 0x400 0 0 0 0 0)
                 (Some (replicate 0x200 x11)) None None)
              out s' (parse_sample_pe false))
    as (self2 & H1 & H2 & _).
  - reflexivity.
  - reflexivity.
  - reflexivity.
  - split; reflexivity.
  - intros j sec' Hj Hsec'. destruct j as [|j]; [|lia].
    injection Hsec' as <-. split; vm_compute; intros [H H']; try discriminate H.
    apply H'. reflexivity.
  - vm_compute. split; [reflexivity | discriminate].
  - repeat constructor; vm_compute; discriminate.
  - exact E.
  - exists out, s', self2. split; [reflexivity|]. split; [exact H1 | exact H2].
Defined.

(** ** Storing twice *)

Lemma store_assign_offsets_again (alignment : Z) (secs : list _PeSection) :
  0 < alignment ->
  forall section_offset secs',
    0 < section_offset ->
    store_assign_offsets alignment section_offset secs = (Ok tt, secs') ->
    store_assign_offsets alignment section_offset secs' = (Ok tt, secs').
Proof.
  intros Hpos. induction secs as [|sec secs IH]; intros off secs' Hoff H;
    cbn [store_assign_offsets] in H.
  - injection H as <-. reflexivity.
  - destruct (sec_PointerToRawData sec =? 0) eqn:E0.
    + destruct (store_assign_offsets alignment off secs) as [r rest'] eqn:Er.
      injection H as -> <-. cbn [store_assign_offsets]. rewrite E0.
      rewrite (IH _ _ Hoff Er). reflexivity.
    + cbn [set_hdr data] in H. destruct (data sec) as [d|] eqn:Ed; [|discriminate H].
      destruct (_align (len d) alignment) as [size|] eqn:Ea; [|discriminate H].
      destruct (store_assign_offsets alignment (off + size) secs) as [r rest'] eqn:Er.
      injection H as -> <-.
      destruct (align_inv _ _ _ Hpos Ea) as (_ & Hlen). pose proof (len_nonneg d).
      cbn [store_assign_offsets]. unfold sec_PointerToRawData at 1. cbn [hdr set_hdr].
      change (SectionHeader.PointerToRawData
                (SectionHeader.set_SizeOfRawData size
                   (SectionHeader.set_PointerToRawData off (hdr sec)))) with off.
      replace (off =? 0) with false by (symmetry; apply Z.eqb_neq; lia).
      cbn [set_hdr data hdr]. rewrite Ed, Ea.
      assert (Hnext : 0 < off + size) by lia.
      rewrite (IH _ _ Hnext Er). reflexivity.
Qed.

(** A [store] that has returned can be repeated: the second call writes
    the same file and leaves the object as the first left it. *)
Theorem store_twice (self self' : _PeFile) (out : list byte) :
  store self = (Ok out, self') -> store self' = (Ok out, self').
Proof.
  intros H.
  destruct (store_inv _ _ _ H)
    as (off0 & secs' & c & fh & magic & oh0 & dds & shs & pieces & Hvm & Hoff & Hassign &
        Hself' & _ & _ & Hoh & _).
  destruct (OptionalHeader_fit _ _ Hoh) as (_ & Hfa & _).
  change (OptionalHeader.FileAlignment (OptionalHeader.set_CheckSum 0 (_opt_header self)))
    with (OptionalHeader.FileAlignment (_opt_header self)) in Hfa.
  pose proof Hoff as Hoff0. unfold _file_align in Hoff0.
  pose proof (align_ok_nonzero _ _ _ Hoff0) as Hnz.
  assert (Hpos : 0 < OptionalHeader.FileAlignment (_opt_header self)) by lia.
  destruct (align_inv _ _ _ Hpos Hoff0) as (_ & Hrange).
  pose proof (header_end_pos self) as Hhe.
  pose proof (store_assign_offsets_frame (OptionalHeader.FileAlignment (_opt_header self))
                (_sections self) off0) as Hframe.
  rewrite Hassign in Hframe. cbn [snd] in Hframe.
  assert (Hvm1 : _check_vm_overlaps self' = Ok tt).
  { subst self'. unfold _check_vm_overlaps in *.
    cbn [set_opt_header set_sections _opt_header _sections].
    change (OptionalHeader.SectionAlignment (OptionalHeader.set_CheckSum 0 (_opt_header self)))
      with (OptionalHeader.SectionAlignment (_opt_header self)).
    revert Hvm. apply check_vm_overlaps_loop_shrunk; [|constructor].
    apply sorted_Forall2; [intros a b [Hva _]; exact Hva|].
    eapply Forall2_impl; [exact Hframe|]. cbv beta.
    intros sec sec' [(ptr & size & ->) _]. split; [reflexivity|].
    unfold sec_VirtualSize. cbn. lia. }
  assert (Hhe1 : header_end self' = header_end self).
  { subst self'. unfold header_end. cbn [set_opt_header set_sections _opt_header _sections
      _dos_stub _data_directories]. unfold len.
    rewrite <- (Forall2_length _ _ _ Hframe). reflexivity. }
  assert (Hassign1 : store_assign_offsets (OptionalHeader.FileAlignment (_opt_header self'))
                       off0 (_sections self') = (Ok tt, secs')).
  { subst self'. cbn [set_opt_header set_sections _opt_header _sections].
    apply (store_assign_offsets_again _ (_sections self) Hpos); [lia | exact Hassign]. }
  assert (Hoff1 : _file_align self' (header_end self') = Ok off0).
  { rewrite Hhe1. subst self'. exact Hoff. }
  unfold store, mbind, mlift, mget, mmodify, mret in H |- *.
  fold (header_end self) in H. fold (header_end self').
  rewrite Hvm, Hoff, Hassign in H. rewrite Hvm1, Hoff1, Hassign1, Hhe1.
  subst self'. exact H.
Qed.

Lemma store_twice_witness :
  store (sample_image false) = (Ok sample_pe_summed, sample_image false).
Proof. exact (store_twice _ _ _ store_sample). Defined.
